(** * The virtual-memory core of the kernel (kernel/vm.cc)

    A sequential, single-core shallow embedding of [vmnode], [vma] and
    [vmap]: kernel objects live in finite maps indexed by their address,
    every operation is a state transformer over [kstate] that either
    returns a value and a new state or halts the kernel. *)

From stdpp Require Import gmap list strings.

From Stdlib Require Import ZArith Strings.Byte Lia.

Local Open Scope Z_scope.

(** ** Constants of the headers *)

(** Modelled from the spec: mmu.h is not part of the sources at hand; the
    page size is the one the end-to-end scenarios of the spec use. *)
Definition PGSIZE : Z := 4096.

(** Modelled from the spec: vm.hh (the declaration of [vmnode::page]) is not
    part of the sources at hand; the spec only says that the slot array is
    "bounded by a hard maximum".  The bound of the xv6 header is taken. *)
Definition NELEM_page : Z := 128.

(** Modelled from the spec: the named bits of a page-table entry
    (present, writable, user, the transitional lock bit and the COW tag),
    at their amd64 positions; [FEC_WR] is the write bit of the fault
    error code and [USERTOP] the user-addressable ceiling. *)
Definition PTE_P : Z := 1.

Definition PTE_W : Z := 2.

Definition PTE_U : Z := 4.

Definition PTE_LOCK : Z := 512.

Definition PTE_COW : Z := 2048.

Definition FEC_WR : Z := 2.

Definition USERTOP : Z := 2 ^ 47.

Definition KBASE : Z := 2 ^ 64 - 2 ^ 31.

Definition wrap64 (z : Z) : Z := z mod 2 ^ 64.

Definition PGROUNDDOWN (a : Z) : Z := Z.land a (Z.lnot (PGSIZE - 1) mod 2 ^ 64).

Definition PGROUNDUP (a : Z) : Z := PGROUNDDOWN (wrap64 (a + PGSIZE - 1)).

Definition PTE_ADDR (v : Z) : Z := Z.land v (Z.lnot 4095 mod 2 ^ 64).

Definition v2p (a : Z) : Z := wrap64 (a - KBASE).

(** ** Data model *)

Inductive vmntype := EAGER | ONDEMAND.

Inductive vmatype := PRIVATE | COW.

#[global] Instance vmntype_eq_dec : EqDecision vmntype.
Proof. solve_decision. Defined.

#[global] Instance vmatype_eq_dec : EqDecision vmatype.
Proof. solve_decision. Defined.

(** A kernel object pointer: [None] is the null pointer. *)
Definition ptr := option positive.

(** [struct vmnode]: [page] holds the first [npages] slots of the array,
    a slot is [0] (empty) or the kernel address of a physical page. *)
Record vmnode := mk_vmnode {
  npages : Z;
  page : list Z;
  ref : Z;
  type : vmntype;
  ip : ptr;
  offset : Z;
  sz : Z
}.

(** [struct vma]: the half-open range, the sharing mode and the node. *)
Record vma := mk_vma {
  vma_start : Z;
  vma_end : Z;
  va_type : vmatype;
  n : ptr
}.

#[global] Instance vma_eq_dec : EqDecision vma.
Proof. solve_decision. Defined.

(** [struct vmap]: the interval index [cr] in key order, the page table
    (one entry per virtual page number, absent entries read 0) and the
    reference count. *)
Record vmap := mk_vmap {
  cr : list vma;
  pml4 : gmap Z Z;
  vref : Z
}.

Record inode := mk_inode {
  idata : list byte;
  iref : Z
}.

(** The kernel state: the object heaps, physical memory by page address,
    the allocator's free list and the number of TLB flushes issued. *)
Record kstate := mk_kstate {
  nodes : gmap positive vmnode;
  vmaps : gmap positive vmap;
  inodes : gmap positive inode;
  mem : gmap Z (list byte);
  freelist : list Z;
  tlbflushes : nat
}.

Definition set_nodes (f : gmap positive vmnode → gmap positive vmnode) (s : kstate) :=
  mk_kstate (f (nodes s)) (vmaps s) (inodes s) (mem s) (freelist s) (tlbflushes s).

Definition set_vmaps (f : gmap positive vmap → gmap positive vmap) (s : kstate) :=
  mk_kstate (nodes s) (f (vmaps s)) (inodes s) (mem s) (freelist s) (tlbflushes s).

Definition set_inodes (f : gmap positive inode → gmap positive inode) (s : kstate) :=
  mk_kstate (nodes s) (vmaps s) (f (inodes s)) (mem s) (freelist s) (tlbflushes s).

Definition set_mem (f : gmap Z (list byte) → gmap Z (list byte)) (s : kstate) :=
  mk_kstate (nodes s) (vmaps s) (inodes s) (f (mem s)) (freelist s) (tlbflushes s).

Definition set_freelist (f : list Z → list Z) (s : kstate) :=
  mk_kstate (nodes s) (vmaps s) (inodes s) (mem s) (f (freelist s)) (tlbflushes s).

Definition set_tlbflushes (f : nat → nat) (s : kstate) :=
  mk_kstate (nodes s) (vmaps s) (inodes s) (mem s) (freelist s) (f (tlbflushes s)).

(** ** The kernel monad *)

(** Why the kernel stopped: [panic], a wild memory access (null or
    out-of-bounds dereference), a loop that spins forever when no other
    core runs, or the retry budget of the model used up. *)
Inductive halt := Panic (msg : string) | Fault | Spin | OutOfFuel.

Inductive result (A : Type) :=
  | Ok (a : A) (s : kstate)
  | Halt (h : halt).

Arguments Ok {A} a s.

Arguments Halt {A} h.

Definition M (A : Type) : Type := kstate → result A.

#[global] Instance M_ret : MRet M := λ A a s, Ok a s.

#[global] Instance M_bind : MBind M := λ A B f m s,
  match m s with
  | Ok a s' => f a s'
  | Halt h => Halt h
  end.

Definition halt_with {A} (h : halt) : M A := λ _, Halt h.

Definition panic {A} (msg : string) : M A := halt_with (Panic msg).

Definition get : M kstate := λ s, Ok s s.

Definition modify (f : kstate → kstate) : M unit := λ s, Ok tt (f s).

(** [assert(c)] of the kernel panics when [c] is false. *)
Definition assert (c : bool) : M unit :=
  if c then mret tt else panic "assertion failed".

(** Dereferencing: a null or dangling pointer is a wild access. *)
Definition deref_node (p : ptr) : M vmnode := λ s,
  match p with
  | Some a => match nodes s !! a with Some nd => Ok nd s | None => Halt Fault end
  | None => Halt Fault
  end.

Definition deref_vmap (a : positive) : M vmap := λ s,
  match vmaps s !! a with Some mp => Ok mp s | None => Halt Fault end.

(** Reading slot [i] of the page array; slots past [npages] were never
    initialised, reading one is a wild access. *)
Definition slot (nd : vmnode) (i : Z) : M Z :=
  if (0 <=? i) && (i <? npages nd) then
    match page nd !! Z.to_nat i with
    | Some p => mret p
    | None => halt_with Fault
    end
  else halt_with Fault.

(** ** Collaborators *)

(** Modelled from the spec: the physical page allocator (kalloc.hh) is an
    external collaborator, "allocate_page() -> page_or_exhausted,
    free_page(page)".  [kalloc] hands out the head of the free list, or
    the null address when the list is empty. *)
Definition kalloc : M Z := λ s,
  match freelist s with
  | [] => Ok 0 s
  | p :: fl => Ok p (set_freelist (λ _, fl) s)
  end.

Definition kfree (p : Z) : M unit := modify (set_freelist (cons p)).

Definition zero_page : list byte := replicate (Z.to_nat PGSIZE) x00.

(** The bytes of the physical page at address [p]. *)
Definition page_bytes (s : kstate) (p : Z) : list byte :=
  default zero_page (mem s !! p).

(** [memset(p, 0, PGSIZE)] and [memmove(dst, src, PGSIZE)] on whole pages;
    the null address is not a page. *)
Definition memset_page (p : Z) : M unit :=
  if p =? 0 then halt_with Fault else modify (set_mem <[p := zero_page]>).

Definition memmove_page (dst src : Z) : M unit :=
  if (dst =? 0) || (src =? 0) then halt_with Fault
  else s ← get; modify (set_mem <[dst := page_bytes s src]>).

(** Modelled from the spec: the backing-file layer (fs) is an external
    collaborator, "read(file, buffer, offset, length) ->
    bytes_read_or_error" with a reference-counted handle.  [readi] copies
    at most [cnt] bytes of the file, from [off] on, to the start of the
    page at [p] and returns how many; an offset past the end is an error. *)
Definition readi (i : ptr) (p : Z) (off cnt : Z) : M Z :=
  match i with
  | None => halt_with Fault
  | Some a =>
    s ← get;
    match inodes s !! a with
    | None => halt_with Fault
    | Some f =>
      let size := Z.of_nat (length (idata f)) in
      if (size <? off) || (2 ^ 64 <=? off + cnt) then mret (-1)
      else if p =? 0 then halt_with Fault
      else
        let k := if size <? off + cnt then size - off else cnt in
        let got := take (Z.to_nat k) (drop (Z.to_nat off) (idata f)) in
        modify (set_mem <[p := got ++ drop (Z.to_nat k) (page_bytes s p)]>);;
        mret k
    end
  end.

Definition idup (i : ptr) : M ptr :=
  match i with
  | None => mret None
  | Some a =>
    modify (set_inodes (alter (λ f, mk_inode (idata f) (wrap64 (iref f + 1))) a));;
    mret (Some a)
  end.

Definition iput (i : ptr) : M unit :=
  match i with
  | None => mret tt
  | Some a =>
    modify (set_inodes (alter (λ f, mk_inode (idata f) (wrap64 (iref f - 1))) a))
  end.

(** Modelled from the spec: [operator new] of the kernel is not part of
    the sources at hand; the spec names the physical page allocator as
    the only resource that runs out.  A new object gets an address that
    is not in use; the callers' tests for a null result are kept. *)
Definition new_node (nd : vmnode) : M ptr := λ s,
  let a := fresh (dom (nodes s)) in Ok (Some a) (set_nodes <[a := nd]> s).

Definition new_vmap_obj (mp : vmap) : M ptr := λ s,
  let a := fresh (dom (vmaps s)) in Ok (Some a) (set_vmaps <[a := mp]> s).

Definition put_node (a : positive) (nd : vmnode) : M unit :=
  modify (set_nodes <[a := nd]>).

Definition put_vmap (a : positive) (mp : vmap) : M unit :=
  modify (set_vmaps <[a := mp]>).

Definition set_page (nd : vmnode) (pg : list Z) : vmnode :=
  mk_vmnode (npages nd) pg (ref nd) (type nd) (ip nd) (offset nd) (sz nd).

Definition set_ref (nd : vmnode) (r : Z) : vmnode :=
  mk_vmnode (npages nd) (page nd) r (type nd) (ip nd) (offset nd) (sz nd).

(** [cmpxch(&page[i], old, new)] on a slot of the node at [a]. *)
Definition cmpxch_slot (a : positive) (i : Z) (old new : Z) : M bool :=
  nd ← deref_node (Some a);
  cur ← slot nd i;
  if cur =? old then
    put_node a (set_page nd (<[Z.to_nat i := new]> (page nd)));; mret true
  else mret false.

(** ** vmnode *)

(** [vmnode::allocpg], the body of the loop for slot [i]: [None] is
    [continue] or the end of the body, [Some r] is [return r]. *)
Definition allocpg_slot (this : positive) (i : Z) : M (option Z) :=
  nd ← deref_node (Some this);
  cur ← slot nd i;
  if negb (cur =? 0) then mret None
  else
    p ← kalloc;
    if p =? 0 then mret (Some (-1))
    else
      memset_page p;;
      ok ← cmpxch_slot this i 0 p;
      (if ok : bool then mret tt else kfree p);;
      mret None.

Fixpoint allocpg_loop (this : positive) (idx : list Z) : M Z :=
  match idx with
  | [] => mret 0
  | i :: rest =>
    r ← allocpg_slot this i;
    match r with
    | Some v => mret v
    | None => allocpg_loop this rest
    end
  end.

Definition allocpg (this : positive) : M Z :=
  nd ← deref_node (Some this);
  allocpg_loop this (seqZ 0 (npages nd)).

(** [vmnode::demand_load]: one [readi] per page-sized chunk of [sz]. *)
Definition demand_load_chunk (this : positive) (i : Z) : M (option Z) :=
  nd ← deref_node (Some this);
  p ← slot nd (i / PGSIZE);
  let cnt := if sz nd - i <? PGSIZE then sz nd - i else PGSIZE in
  r ← readi (ip nd) p (wrap64 (offset nd + i)) cnt;
  if negb (r =? cnt) then mret (Some (-1)) else mret None.

Fixpoint demand_load_loop (this : positive) (idx : list Z) : M Z :=
  match idx with
  | [] => mret 0
  | i :: rest =>
    r ← demand_load_chunk this i;
    match r with
    | Some v => mret v
    | None => demand_load_loop this rest
    end
  end.

(** The values [0, PGSIZE, 2*PGSIZE, ...] below [sz] that [i] takes. *)
Definition chunk_starts (size : Z) : list Z :=
  (λ k, k * PGSIZE) <$> seqZ 0 ((size + PGSIZE - 1) / PGSIZE).

Definition demand_load (this : positive) : M Z :=
  nd ← deref_node (Some this);
  demand_load_loop this (chunk_starts (sz nd)).

(** The constructor [vmnode::vmnode]. *)
Definition vmnode_new (npg : Z) (ntype : vmntype) (i : ptr) (off s : Z) : M ptr :=
  c ← new_node (mk_vmnode npg [] 0 ntype i off s);
  match c with
  | None => mret None
  | Some this =>
    if NELEM_page <? npg then panic "vmnode too big"
    else
      put_node this (mk_vmnode npg (replicate (Z.to_nat npg) 0) 0 ntype i off s);;
      (if decide (ntype = EAGER ∧ i ≠ None) then
         r ← allocpg this; assert (r =? 0);;
         r ← demand_load this; assert (r =? 0)
       else mret tt);;
      mret (Some this)
  end.

Fixpoint free_pages (pg : list Z) : M unit :=
  match pg with
  | [] => mret tt
  | p :: rest => (if negb (p =? 0) then kfree p else mret tt);; free_pages rest
  end.

(** The destructor [vmnode::~vmnode] followed by the release of the object. *)
Definition vmnode_delete (this : positive) : M unit :=
  nd ← deref_node (Some this);
  free_pages (take (Z.to_nat (npages nd)) (page nd));;
  (if decide (ip nd ≠ None) then iput (ip nd) else mret tt);;
  modify (set_nodes (delete this)).

(** [vmnode::decref]. *)
Definition vmnode_decref (this : positive) : M unit :=
  nd ← deref_node (Some this);
  let r := wrap64 (ref nd - 1) in
  put_node this (set_ref nd r);;
  if r =? 0 then vmnode_delete this else mret tt.

Definition vmnode_incref (this : positive) : M unit :=
  nd ← deref_node (Some this);
  put_node this (set_ref nd (wrap64 (ref nd + 1))).

(** [vmnode::copy], the loop body copying page [i]. *)
Definition copy_page (this c : positive) (i : Z) : M unit :=
  nd ← deref_node (Some this);
  src ← slot nd i;
  if negb (src =? 0) then
    cn ← deref_node (Some c);
    dst ← slot cn i;
    memmove_page dst src
  else mret tt.

Fixpoint copy_pages (this c : positive) (idx : list Z) : M unit :=
  match idx with
  | [] => mret tt
  | i :: rest => copy_page this c i;; copy_pages this c rest
  end.

Definition vmnode_copy (this : positive) : M ptr :=
  nd ← deref_node (Some this);
  i ← (if decide (type nd = ONDEMAND) then idup (ip nd) else mret None);
  c ← vmnode_new (npages nd) (type nd) i (offset nd) (sz nd);
  match c with
  | None => mret None
  | Some ca =>
    p0 ← slot nd 0;
    if p0 =? 0 then mret (Some ca)
    else
      r ← allocpg ca;
      if r <? 0 then vmnode_delete ca;; mret None
      else
        copy_pages this ca (seqZ 0 (npages nd));;
        mret (Some ca)
  end.

(** ** vma *)

(** The constructor [vma::vma]; the object itself is a value of the
    index, [Some] stands for the non-null result of [new]. *)
Definition vma_new (start end_ : Z) (vtype : vmatype) (vmn : ptr) : M (option vma) :=
  match vmn with
  | Some a => vmnode_incref a
  | None => mret tt
  end;;
  mret (Some (mk_vma start end_ vtype vmn)).

(** The destructor [vma::~vma]. *)
Definition vma_delete (v : vma) : M unit :=
  match n v with
  | Some a => vmnode_decref a
  | None => mret tt
  end.

Fixpoint vma_delete_all (l : list vma) : M unit :=
  match l with
  | [] => mret tt
  | v :: rest => vma_delete v;; vma_delete_all rest
  end.

(** ** The interval index and the page table *)

(** Modelled from the spec: crange (crange.hh) is an external
    collaborator, a "container keyed by address range" with a "locked
    span operation over entries overlapping a range, plus single-entry
    replace".  The index is the list of its regions in key order; the
    overlap test is the one [vmap::lookup] spells out. *)
Definition overlaps (k len : Z) (r : vma) : bool :=
  (vma_start r <? k + len) && (k <? vma_end r).

Definition span_of (l : list vma) (k len : Z) : list vma :=
  filter (λ r, overlaps k len r) l.

Fixpoint cr_insert (v : vma) (l : list vma) : list vma :=
  match l with
  | [] => [v]
  | x :: rest =>
    if vma_start v <? vma_start x then v :: l else x :: cr_insert v rest
  end.

Definition set_cr (mp : vmap) (l : list vma) : vmap :=
  mk_vmap l (pml4 mp) (vref mp).

Definition set_pml4 (mp : vmap) (pt : gmap Z Z) : vmap :=
  mk_vmap (cr mp) pt (vref mp).

(** [span.replace(b)]: the regions of the span leave the index and are
    destroyed ("destroyed when replaced", spec 3), [b] enters it unless
    it is null. *)
Definition span_replace (this : positive) (k len : Z) (b : option vma) : M unit :=
  mp ← deref_vmap this;
  let keep := filter (λ r, ¬ overlaps k len r) (cr mp) in
  put_vmap this (set_cr mp (match b with
                            | Some v => cr_insert v keep
                            | None => keep
                            end));;
  vma_delete_all (span_of (cr mp) k len).

(** [range::deleted()]: the region is no longer in the index. *)
Definition deleted (this : positive) (a : vma) : M bool :=
  mp ← deref_vmap this;
  mret (bool_decide (a ∉ cr mp)).

(** Modelled from the spec: the hardware MMU layer is an external
    collaborator, "walk-or-create the entry for a virtual address;
    bulk-apply a transformation function across all entries in a virtual
    range; flush the translation cache".  The entry of [va] is keyed by
    its page number. *)
Definition walkpgdir (va : Z) : Z := va / PGSIZE.

Definition pte_load (this : positive) (k : Z) : M Z :=
  mp ← deref_vmap this;
  mret (default 0 (pml4 mp !! k)).

Definition pte_store (this : positive) (k v : Z) : M unit :=
  mp ← deref_vmap this;
  put_vmap this (set_pml4 mp (<[k := v]> (pml4 mp))).

Definition cmpxch_pte (this : positive) (k old new : Z) : M bool :=
  cur ← pte_load this k;
  if cur =? old then pte_store this k new;; mret true else mret false.

Definition tlbflush : M unit := modify (set_tlbflushes S).

Definition in_pages (begin end_ k : Z) : bool :=
  (PGROUNDDOWN begin / PGSIZE <=? k) && (k <? PGROUNDUP end_ / PGSIZE).

(** A callback of [updatepages] takes the entry's value to [None] when
    its loop never exits, or to the new value and whether it set the
    captured flag. *)
Definition updatepages (this : positive) (begin end_ : Z)
    (cb : Z → option (Z * bool)) : M bool :=
  mp ← deref_vmap this;
  let touched := filter (λ kv, in_pages begin end_ kv.1) (map_to_list (pml4 mp)) in
  if forallb (λ kv, bool_decide (is_Some (cb kv.2))) touched then
    put_vmap this (set_pml4 mp
      (map_imap (λ k v, if in_pages begin end_ k
                        then Some (default v (fst <$> cb v)) else Some v) (pml4 mp)));;
    mret (existsb (λ kv, default false (snd <$> cb kv.2)) touched)
  else halt_with Spin.

Definition cmpxch_cell (cur old new : Z) : bool * Z :=
  if cur =? old then (true, new) else (false, cur).

(** The clearing loop of insert, remove and pagefault_wcow: the entry is
    re-read while its lock bit is set; the compare-and-swap against the
    value just read then succeeds and leaves the loop, and only a failed
    one reaches the assignment to [needtlb]. *)
Definition clear_cb (cur : Z) : option (Z * bool) :=
  let v := cur in
  if negb (Z.land v PTE_LOCK =? 0) then None
  else
    let '(ok, cur') := cmpxch_cell cur v 0 in
    if ok then Some (cur', false) else None.

(** The downgrading loop of [vmap::copy]. *)
Definition downgrade_cb (cur : Z) : option (Z * bool) :=
  let v := cur in
  if negb (Z.land v PTE_LOCK =? 0) then None
  else if (Z.land v PTE_P =? 0) || (Z.land v PTE_U =? 0) || (Z.land v PTE_W =? 0)
  then Some (cur, false)
  else
    let '(ok, cur') :=
      cmpxch_cell cur v (Z.lor (Z.lor (Z.lor (PTE_ADDR v) PTE_P) PTE_U) PTE_COW) in
    if ok then Some (cur', false) else None.

(** ** vmap *)

Definition vmap_new : M ptr := new_vmap_obj (mk_vmap [] ∅ 1).

(** The destructor [vmap::~vmap] with the one of its index, which
    destroys the regions still in it. *)
Definition vmap_delete (this : positive) : M unit :=
  mp ← deref_vmap this;
  modify (set_vmaps (delete this));;
  vma_delete_all (cr mp).

(** [vmap::replace_vma]. *)
Definition replace_vma (this : positive) (a : vma) (b : option vma) : M bool :=
  let len := wrap64 (vma_end a - vma_start a) in
  mp ← deref_vmap this;
  del ← deleted this a;
  if del : bool then mret false
  else
    assert (forallb (λ e, bool_decide (a = e)) (span_of (cr mp) (vma_start a) len));;
    span_replace this (vma_start a) len b;;
    mret true.

(** [vmap::lookup]. *)
Definition lookup (this : positive) (start len : Z) : M (option vma) :=
  if wrap64 (start + len) <? start then panic "vmap::lookup bad len"
  else
    mp ← deref_vmap this;
    match head (span_of (cr mp) start len) with
    | Some e =>
      if vma_end e <=? vma_start e then panic "malformed va"
      else if (vma_start e <? wrap64 (start + len)) && (start <? vma_end e)
      then mret (Some e)
      else mret None
    | None => mret None
    end.

(** [vmap::insert]. *)
Definition insert_vma (this : positive) (nn : ptr) (start : Z) (dotlb : bool) : M Z :=
  nd ← deref_node nn;
  let len := wrap64 (npages nd * PGSIZE) in
  mp ← deref_vmap this;
  match span_of (cr mp) start len with
  | _ :: _ => mret (-1)
  | [] =>
    e ← vma_new start (wrap64 (start + len)) PRIVATE nn;
    match e with
    | None => mret (-1)
    | Some e =>
      span_replace this start len (Some e);;
      needtlb ← updatepages this (vma_start e) (vma_end e) clear_cb;
      (if needtlb && dotlb then tlbflush else mret tt);;
      mret 0
    end
  end.

(** [vmap::remove]. *)
Definition remove_vma (this : positive) (start len : Z) : M Z :=
  let end_ := wrap64 (start + len) in
  mp ← deref_vmap this;
  if existsb (λ r, (vma_start r <? start) || (end_ <? vma_end r))
             (span_of (cr mp) start len)
  then mret (-1)
  else
    span_replace this start len None;;
    needtlb ← updatepages this start (wrap64 (start + len)) clear_cb;
    (if needtlb : bool then tlbflush else mret tt);;
    mret 0.

(** [vmap::copy], the body of the loop over the regions: [true] when the
    region was mirrored, [false] for [goto err]. *)
Definition copy_region (this nm : positive) (share : bool) (e : vma) : M bool :=
  ne ← (if share then
          ne ← vma_new (vma_start e) (vma_end e) COW (n e);
          (if decide (va_type e ≠ COW) then
             repl ← vma_new (vma_start e) (vma_end e) COW (n e);
             replace_vma this e repl;;
             updatepages this (vma_start e) (vma_end e) downgrade_cb;;
             mret tt
           else mret tt);;
          mret ne
        else
          c ← match n e with
              | Some a => vmnode_copy a
              | None => halt_with Fault
              end;
          vma_new (vma_start e) (vma_end e) PRIVATE c);
  match ne with
  | None => mret false
  | Some ne =>
    match n ne with
    | None => vma_delete ne;; mret false
    | Some _ =>
      let len := wrap64 (vma_end ne - vma_start ne) in
      mp ← deref_vmap nm;
      assert (bool_decide (span_of (cr mp) (vma_start ne) len = []));;
      span_replace nm (vma_start ne) len (Some ne);;
      mret true
    end
  end.

Fixpoint copy_regions (this nm : positive) (share : bool) (l : list vma) : M bool :=
  match l with
  | [] => mret true
  | e :: rest =>
    ok ← copy_region this nm share e;
    if ok : bool then copy_regions this nm share rest else mret false
  end.

Definition vmap_copy (this : positive) (share : bool) : M ptr :=
  nm ← vmap_new;
  match nm with
  | None => mret None
  | Some nma =>
    mp ← deref_vmap this;
    ok ← copy_regions this nma share (cr mp);
    if ok : bool then
      (if share then tlbflush else mret tt);;
      mret (Some nma)
    else
      vmap_delete nma;;
      mret None
  end.

(** ** Page faults *)

(** [vmap::pagefault_wcow]. *)
Definition pagefault_wcow (this : positive) (m : vma) : M Z :=
  nodecopy ← match n m with
             | Some a => vmnode_copy a
             | None => halt_with Fault
             end;
  match nodecopy with
  | None => mret (-1)
  | Some _ =>
    repl ← vma_new (vma_start m) (vma_end m) PRIVATE nodecopy;
    replace_vma this m repl;;
    updatepages this (vma_start m) (vma_end m) clear_cb;;
    mret 0
  end.

(** [vmap::pagefault], the two steps that materialise the faulting
    object: [allocpg] when the slot of the page is empty, [demand_load]
    when the object is loaded on demand; a failure of either panics. *)
Definition pagefault_fill (m : vma) (npg : Z) : M unit :=
  match n m with
  | Some a =>
    nd ← deref_node (Some a);
    p ← slot nd npg;
    if p =? 0 then
      r ← allocpg a;
      if r <? 0 then panic "pagefault: couldn't allocate pages" else mret tt
    else mret tt
  | None => mret tt
  end;;
  match n m with
  | Some a =>
    nd ← deref_node (Some a);
    if decide (type nd = ONDEMAND) then
      r ← demand_load a;
      if r <? 0 then panic "pagefault: couldn't load" else mret tt
    else mret tt
  | None => mret tt
  end.

(** [vmap::pagefault] from the claim of the entry to [return 1]; [None]
    stands for [goto retry]. *)
Definition pagefault_install (this : positive) (pte ptev : Z) (m : vma) (npg : Z)
    : M (option Z) :=
  ok ← cmpxch_pte this pte ptev (Z.lor ptev PTE_LOCK);
  if negb ok then mret None
  else
    del ← deleted this m;
    if del : bool then
      pte_store this pte ptev;;
      mret None
    else
      nd ← deref_node (n m);
      p ← slot nd npg;
      (if bool_decide (va_type m = COW) then
         pte_store this pte
           (Z.lor (Z.lor (Z.lor (v2p p) PTE_P) PTE_U) PTE_COW)
       else
         assert (ref nd =? 1);;
         pte_store this pte
           (Z.lor (Z.lor (Z.lor (v2p p) PTE_P) PTE_U) PTE_W));;
      mret (Some 1).

Definition PTE_PUW : Z := Z.lor (Z.lor PTE_P PTE_U) PTE_W.

(** [vmap::pagefault] from the label [retry] on; every [goto retry]
    takes one unit of [fuel]. *)
Fixpoint pagefault_retry (fuel : nat) (this : positive) (va err pte : Z) : M Z :=
  match fuel with
  | O => halt_with OutOfFuel
  | S fuel' =>
    ptev ← pte_load this pte;
    if Z.land ptev PTE_PUW =? PTE_PUW then mret 0
    else if negb (Z.land ptev PTE_LOCK =? 0) then pagefault_retry fuel' this va err pte
    else
      m ← lookup this va 1;
      match m with
      | None => mret (-1)
      | Some m =>
        let npg := wrap64 (PGROUNDDOWN va - vma_start m) / PGSIZE in
        pagefault_fill m npg;;
        if bool_decide (va_type m = COW) && negb (Z.land err FEC_WR =? 0) then
          r ← pagefault_wcow this m;
          if r <? 0 then mret (-1)
          else tlbflush;; pagefault_retry fuel' this va err pte
        else
          r ← pagefault_install this pte ptev m npg;
          match r with
          | Some v => mret v
          | None => pagefault_retry fuel' this va err pte
          end
      end
  end.

Definition pagefault (fuel : nat) (this : positive) (va err : Z) : M Z :=
  if USERTOP <=? va then mret (-1)
  else pagefault_retry fuel this va err (walkpgdir va).

(** ** copyout *)

(** [memmove(p0 + off, buf, n)] inside one page. *)
Definition write_page (p0 off : Z) (buf : list byte) : M unit :=
  if p0 =? 0 then halt_with Fault
  else
    s ← get;
    let old := page_bytes s p0 in
    modify (set_mem <[p0 := take (Z.to_nat off) old ++ buf
                              ++ drop (Z.to_nat off + length buf) old]>).

(** [vmap::copyout]; each pass of the loop writes at least one byte, so
    [fuel] is the length of the buffer. *)
Fixpoint copyout_loop (fuel : nat) (this : positive) (va : Z) (buf : list byte) : M Z :=
  match fuel with
  | O => mret 0
  | S fuel' =>
    if Z.of_nat (length buf) <=? 0 then mret 0
    else
      let va0 := PGROUNDDOWN va in
      v ← lookup this va 1;
      match v with
      | None => mret (-1)
      | Some v =>
        nd ← deref_node (n v);
        match n v with
        | Some a => allocpg a
        | None => halt_with Fault
        end;;
        let pn := wrap64 (va0 - vma_start v) / PGSIZE in
        nd ← deref_node (n v);
        p0 ← slot nd pn;
        if p0 =? 0 then panic "copyout: missing page"
        else
          let len := Z.of_nat (length buf) in
          let room := PGSIZE - (va - va0) in
          let cnt := if len <? room then len else room in
          write_page p0 (va - va0) (take (Z.to_nat cnt) buf);;
          copyout_loop fuel' this (wrap64 (va0 + PGSIZE)) (drop (Z.to_nat cnt) buf)
      end
  end.

Definition copyout (this : positive) (va : Z) (buf : list byte) : M Z :=
  copyout_loop (length buf) this va buf.

(** * Specifications *)

(** ** Well-formed objects and states *)

(** A node whose slot array has the length its page count says. *)
Definition node_wf (nd : vmnode) : Prop :=
  0 ≤ npages nd ≤ NELEM_page ∧ length (page nd) = Z.to_nat (npages nd).

(** An address is page aligned when its low twelve bits are zero. *)
Definition page_aligned (x : Z) : Prop := Z.land x 4095 = 0.

#[global] Instance node_wf_dec nd : Decision (node_wf nd).
Proof. unfold node_wf. apply _. Defined.

#[global] Instance page_aligned_dec x : Decision (page_aligned x).
Proof. unfold page_aligned. apply _. Defined.

(** Every node of the state has a slot array of the right length. *)
Definition nodes_wf (s : kstate) : Prop :=
  map_Forall (λ _ nd, node_wf nd) (nodes s).

(** Every resident page of the state is page aligned. *)
Definition pages_aligned (s : kstate) : Prop :=
  map_Forall (λ _ nd, Forall (λ p, p ≠ 0 → page_aligned p) (page nd)) (nodes s).

#[global] Instance nodes_wf_dec s : Decision (nodes_wf s).
Proof. unfold nodes_wf. apply _. Defined.

#[global] Instance pages_aligned_dec s : Decision (pages_aligned s).
Proof. unfold pages_aligned. apply _. Defined.

(** The allocator's free list is sound for the node [nd]: no null page,
    no page twice, no page of [nd]. *)
Definition freelist_ok (nd : vmnode) (s : kstate) : Prop :=
  (0 ∉ freelist s) ∧ NoDup (freelist s) ∧ ∀ p, p ∈ page nd → p ∉ freelist s.

#[global] Instance freelist_ok_dec nd s : Decision (freelist_ok nd s).
Proof.
  unfold freelist_ok.
  refine (cast_if (decide ((0 ∉ freelist s) ∧ NoDup (freelist s) ∧
                           Forall (λ p, p ∉ freelist s) (page nd))));
    rewrite Forall_forall in *; tauto.
Defined.

Definition disjointb (r1 r2 : vma) : bool :=
  (vma_end r1 <=? vma_start r2) || (vma_end r2 <=? vma_start r1).

(** The invariant of the spec's data model, as a test: every region is
    non-empty and below the user ceiling, and no two regions overlap. *)
Fixpoint cr_ok (l : list vma) : bool :=
  match l with
  | [] => true
  | r :: rest =>
    (0 <=? vma_start r) && (vma_start r <? vma_end r) && (vma_end r <=? USERTOP)
    && forallb (disjointb r) rest && cr_ok rest
  end.

Definition range_ok (r : vma) : Prop :=
  0 ≤ vma_start r ∧ vma_start r < vma_end r ∧ vma_end r ≤ USERTOP.

Definition disjoint (r1 r2 : vma) : Prop :=
  vma_end r1 ≤ vma_start r2 ∨ vma_end r2 ≤ vma_start r1.

Definition cr_wf (l : list vma) : Prop :=
  NoDup l ∧ Forall range_ok l ∧
  ∀ r1 r2, r1 ∈ l → r2 ∈ l → r1 ≠ r2 → disjoint r1 r2.

(** ** The loops of vmnode as functions of the slot array and the free list *)

(** What [allocpg] makes of the slots [pg] with the free list [fl]: the
    new slots, the pages it zeroed, the remaining free list and whether it
    got to the end. *)
Fixpoint fill_slots (pg fl : list Z) : list Z * list Z * list Z * bool :=
  match pg with
  | [] => ([], [], fl, true)
  | c :: rest =>
    if negb (c =? 0) then
      let '(pg', used, fl', ok) := fill_slots rest fl in (c :: pg', used, fl', ok)
    else
      match fl with
      | [] => (pg, [], [], false)
      | p :: fl1 =>
        if p =? 0 then (pg, [], fl1, false)
        else
          let '(pg', used, fl', ok) := fill_slots rest fl1 in
          (p :: pg', p :: used, fl', ok)
      end
  end.

Definition zero_fill (used : list Z) (m : gmap Z (list byte)) : gmap Z (list byte) :=
  foldl (λ m p, <[p := zero_page]> m) m used.

Definition alloc_state (this : positive) (nd : vmnode) (pg used fl : list Z)
    (s : kstate) : kstate :=
  mk_kstate (<[this := set_page nd pg]> (nodes s)) (vmaps s) (inodes s)
            (zero_fill used (mem s)) fl (tlbflushes s).

Definition fresh_node (s : kstate) : positive := fresh (dom (nodes s)).

(** What the copy loop leaves in memory: one page move per resident
    source slot, in slot order. *)
Definition copy_fill (pairs : list (Z * Z)) (m : gmap Z (list byte)) : gmap Z (list byte) :=
  foldl (λ m sd, if sd.1 =? 0 then m
                 else <[sd.2 := default zero_page (m !! sd.1)]> m) m pairs.

(** The backing-file handle the duplicate gets, and the state after the
    [idup] that yields it. *)
Definition copy_ip (nd : vmnode) : ptr :=
  if decide (type nd = ONDEMAND) then ip nd else None.

Definition after_idup (nd : vmnode) (s : kstate) : kstate :=
  match copy_ip nd with
  | Some a => set_inodes (alter (λ f, mk_inode (idata f) (wrap64 (iref f + 1))) a) s
  | None => s
  end.

(** The fresh, empty duplicate that [vmnode::copy] starts from. *)
Definition empty_dup (nd : vmnode) : vmnode :=
  mk_vmnode (npages nd) (replicate (Z.to_nat (npages nd)) 0) 0 (type nd)
            (copy_ip nd) (offset nd) (sz nd).

(** The state [vmnode::copy] of [nd] ends in when every slot of the
    duplicate gets a page. *)
Definition dup_state (nd : vmnode) (s : kstate) : kstate :=
  let k := Z.to_nat (npages nd) in
  let c := fresh_node s in
  let fl := freelist s in
  set_mem (copy_fill (zip (page nd) (take k fl)))
    (alloc_state c (empty_dup nd) (take k fl) (take k fl) (drop k fl)
       (set_nodes <[c := empty_dup nd]> (after_idup nd s))).

Definition chunk_len (size i : Z) : Z :=
  if size - i <? PGSIZE then size - i else PGSIZE.

(** The bytes a page holds after [readi] wrote the chunk starting at
    byte [i] of the node's range to its start. *)
Definition loaded_page (data : list byte) (off size i : Z) (old : list byte) : list byte :=
  take (Z.to_nat (chunk_len size i)) (drop (Z.to_nat (off + i)) data)
  ++ drop (Z.to_nat (chunk_len size i)) old.

Definition load_fill (data : list byte) (off size : Z) (chunks : list (Z * Z))
    (m : gmap Z (list byte)) : gmap Z (list byte) :=
  foldl (λ m ip, <[ip.2 := loaded_page data off size ip.1
                             (default zero_page (m !! ip.2))]> m) m chunks.

(** The state the constructor of an eager, file-backed node ends in. *)
Definition eager_state (npg : Z) (a : positive) (data : list byte) (off size : Z)
    (s : kstate) : kstate :=
  let k := Z.to_nat npg in
  let c := fresh_node s in
  let fl := freelist s in
  let nd0 := mk_vmnode npg (replicate k 0) 0 EAGER (Some a) off size in
  set_mem (load_fill data off size (zip (chunk_starts size) (take k fl)))
    (alloc_state c nd0 (take k fl) (take k fl) (drop k fl)
       (set_nodes <[c := nd0]> s)).

(** ** Page-table entries and frames *)

(** The entry as [pagefault] reads it. *)
Definition pte_of (mp : vmap) (va : Z) : Z := default 0 (pml4 mp !! walkpgdir va).

(** The index of the faulting page in the object of [m]. *)
Definition page_index (m : vma) (va : Z) : Z :=
  wrap64 (PGROUNDDOWN va - vma_start m) / PGSIZE.

(** [readi] and [demand_load] change physical memory only, and what they
    return depends on the nodes and the files only. *)
Definition same_but_mem (s s' : kstate) : Prop :=
  nodes s' = nodes s ∧ vmaps s' = vmaps s ∧ inodes s' = inodes s ∧
  freelist s' = freelist s ∧ tlbflushes s' = tlbflushes s.

(** The entry [pagefault] installs for page [p] of the region [m]. *)
Definition installed_pte (m : vma) (p : Z) : Z :=
  if bool_decide (va_type m = COW)
  then Z.lor (Z.lor (Z.lor (v2p p) PTE_P) PTE_U) PTE_COW
  else Z.lor (Z.lor (Z.lor (v2p p) PTE_P) PTE_U) PTE_W.

Definition set_pte (this : positive) (mp : vmap) (k v : Z) (s : kstate) : kstate :=
  set_vmaps <[this := set_pml4 mp (<[k := v]> (pml4 mp))]> s.

Definition bump_ref (a : positive) (nd : vmnode) (d : Z) (s : kstate) : kstate :=
  set_nodes <[a := set_ref nd (wrap64 (ref nd + d))]> s.

(** The regions the span over [k, k+len) leaves in the index. *)
Definition outside (k len : Z) (l : list vma) : list vma :=
  filter (λ r, ¬ overlaps k len r) l.

(** Physical memory outside the free list of [s] is as in [s], and the
    free list has not grown. *)
Definition mem_frame (s s' : kstate) : Prop :=
  (∀ p, p ∈ freelist s' → p ∈ freelist s) ∧
  (∀ p, p ∉ freelist s → mem s' !! p = mem s !! p).

(** ** Fork with sharing *)

(** The COW region over the same range and object. *)
Definition to_cow (e : vma) : vma := mk_vma (vma_start e) (vma_end e) COW (n e).

(** How many regions of the list refer to the node at [a]. *)
Definition refs_in (l : list vma) (a : positive) : Z :=
  Z.of_nat (length (filter (λ r, n r = Some a) l)).

(** The loop invariant of [vmap::copy] with sharing, after the regions
    [done] and before the regions [todo]. *)
Definition copy_inv (this nm : positive) (s0 : kstate)
    (done todo : list vma) (s : kstate) : Prop :=
  (∃ mp, vmaps s !! this = Some mp ∧ cr mp ≡ₚ (to_cow <$> done) ++ todo) ∧
  (∃ mc, vmaps s !! nm = Some mc ∧ cr mc ≡ₚ to_cow <$> done) ∧
  (∀ a, nodes s !! a =
        (λ nd, set_ref nd (ref nd + refs_in done a)) <$> (nodes s0 !! a)) ∧
  Forall (λ e, ∃ a, n e = Some a ∧ is_Some (nodes s0 !! a)) done.

(** ** Outcomes and postconditions *)

(** [wp m s Q]: run from [s], [m] either returns a value and a state
    that satisfy [Q], or halts the kernel; it does not stop for lack of
    fuel. *)
Definition wp {A} (m : M A) (s : kstate) (Q : A → kstate → Prop) : Prop :=
  match m s with
  | Ok a s' => Q a s'
  | Halt h => h ≠ OutOfFuel
  end.

(** What [pagefault_fill] leaves of the node [nd] at [a]. *)
Definition fill_post (a : positive) (nd : vmnode) (s s1 : kstate) : Prop :=
  vmaps s1 = vmaps s ∧ tlbflushes s1 = tlbflushes s ∧
  ∃ nd1, nodes s1 = <[a := nd1]> (nodes s) ∧
    ref nd1 = ref nd ∧ type nd1 = type nd ∧ npages nd1 = npages nd ∧
    node_wf nd1 ∧
    (∀ (i : nat) p, page nd !! i = Some p → p ≠ 0 → page nd1 !! i = Some p) ∧
    (type nd ≠ ONDEMAND → mem_frame s s1).

(** What [vmnode::copy] of the node [nd] leaves when it returns the
    node at [c]. *)
Definition copy_post (nd : vmnode) (s : kstate) (c : positive) (s3 : kstate) : Prop :=
  nodes s !! c = None ∧
  vmaps s3 = vmaps s ∧ tlbflushes s3 = tlbflushes s ∧ mem_frame s s3 ∧
  ∃ cn, nodes s3 = <[c := cn]> (nodes s) ∧
    ref cn = 0 ∧ npages cn = npages nd ∧ type cn = type nd ∧ node_wf cn.


(** ** Example states *)

(** A kernel address of a physical page, page aligned. *)
Definition pg (i : Z) : Z := KBASE + 1048576 + i * PGSIZE.

(** The state a computation ends in, [d] if it halts. *)
Definition state_of {A} (r : result A) (d : kstate) : kstate :=
  match r with Ok _ s => s | Halt _ => d end.

(** A machine with one free page, holding junk. *)
Definition ex_boot1 : kstate :=
  mk_kstate ∅ ∅ ∅ {[ pg 0 := replicate 4096 x55 ]} [pg 0] 0.

(** Map one anonymous page at 0, touch it, then fork with sharing. *)
Definition ex_fork_prog : M (ptr * ptr) :=
  nd ← vmnode_new 1 EAGER None 0 0;
  mp ← vmap_new;
  match mp with
  | Some mpa =>
    insert_vma mpa nd 0 true;;
    pagefault 2 mpa 0 0;;
    c ← vmap_copy mpa true;
    mret (mp, c)
  | None => mret (None, None)
  end.

Definition ex_cow_vma : vma := mk_vma 0 4096 COW (Some 1%positive).

Definition ex_shared_node : vmnode := mk_vmnode 1 [pg 0] 2 EAGER None 0 0.

(** The state after the fork: parent 1 and child 2 share node 1, the
    allocator is exhausted. *)
Definition ex_fork_state : kstate :=
  mk_kstate {[ 1%positive := ex_shared_node ]}
            {[ 1%positive := mk_vmap [ex_cow_vma] {[ 0 := 1050629 ]} 1;
               2%positive := mk_vmap [ex_cow_vma] ∅ 1 ]}
            ∅ {[ pg 0 := zero_page ]} [] 1.



(** A file of "ABCABC..." and a machine with four free pages of junk. *)
Definition abc_file : list byte := concat (replicate 4096 [x41; x42; x43]).

Definition ex_boot : kstate :=
  mk_kstate ∅ ∅ {[ 1%positive := mk_inode abc_file 1 ]}
    (list_to_map ((λ i, (pg i, replicate 4096 x55)) <$> seqZ 0 4))
    (pg <$> seqZ 0 4) 0.

(** An anonymous node of two empty slots on a machine with one free page. *)
Definition ex_empty_node : vmnode := mk_vmnode 2 [0; 0] 0 EAGER None 0 0.

Definition ex_alloc_state : kstate :=
  mk_kstate {[ 1%positive := ex_empty_node ]} ∅ ∅
            {[ pg 0 := replicate 4096 x55 ]} [pg 0] 0.

(** The same node after [allocpg] ran out of pages half-way and two pages
    were freed since. *)
Definition ex_half_node : vmnode := mk_vmnode 2 [pg 0; 0] 0 EAGER None 0 0.

Definition ex_half_state : kstate :=
  state_of ((allocpg 1;; kfree (pg 2);; kfree (pg 1)) ex_alloc_state) ex_alloc_state.

Definition ex_region0 : vma := mk_vma 0 4096 PRIVATE (Some 1%positive).

Definition ex_region1 : vma := mk_vma 8192 12288 PRIVATE (Some 2%positive).

Definition ex_two_vmap : vmap := mk_vmap [ex_region0; ex_region1] ∅ 1.

(** Two one-page regions at [0,4096) and [8192,12288), and a third node
    not mapped yet. *)
Definition ex_two_regions : kstate :=
  state_of ((n1 ← vmnode_new 1 EAGER None 0 0;
             n2 ← vmnode_new 1 EAGER None 0 0;
             n3 ← vmnode_new 1 EAGER None 0 0;
             mp ← vmap_new;
             match mp with
             | Some mpa => insert_vma mpa n1 0 true;; insert_vma mpa n2 8192 true
             | None => mret 0
             end) ex_boot) ex_boot.

Definition ex_ondemand_node : vmnode :=
  mk_vmnode 1 [pg 0] 2 ONDEMAND (Some 1%positive) 0 4096.

(** The same address space when the allocator has no page left. *)
Definition ex_two_regions_full : kstate := set_freelist (λ _, []) ex_two_regions.

(** A file-backed region loaded on demand, written to by [copyout], on
    the point of being forked, and after the fork. *)
Definition ex_ondemand_prefork : kstate :=
  state_of ((nd ← vmnode_new 1 ONDEMAND (Some 1%positive) 0 4096;
             mp ← vmap_new;
             match mp with
             | Some mpa => insert_vma mpa nd 0 true;; copyout mpa 0 [x58; x59; x5a]
             | None => mret 0
             end) ex_boot) ex_boot.

Definition ex_ondemand_fork : kstate :=
  state_of (vmap_copy 1 true ex_ondemand_prefork) ex_ondemand_prefork.


(** [ex_fork_state] after its parent has forked a second time. *)
Definition ex_refork_state : kstate :=
  state_of (vmap_copy 1 true ex_fork_state) ex_fork_state.

(** The fork of the file-backed region when the allocator has no page
    left. *)
Definition ex_ondemand_full : kstate := set_freelist (λ _, []) ex_ondemand_fork.

(** * Specifications of the further properties *)

(** ** Slots, pages and the allocator *)

(** The number of empty slots of a slot array, and its resident pages. *)
Definition empty_slots (pg : list Z) : nat := length (filter (λ c : Z, c = 0) pg).

Definition resident (pg : list Z) : list Z := filter (λ p : Z, p ≠ 0) pg.

(** The files after the node [nd] has dropped its handle. *)
Definition after_iput (nd : vmnode) (s : kstate) : gmap positive inode :=
  match ip nd with
  | Some i => alter (λ f, mk_inode (idata f) (wrap64 (iref f - 1))) i (inodes s)
  | None => inodes s
  end.

(** [ex_half_state] with its node held by one referrer. *)
Definition ex_half_held : kstate := bump_ref 1 ex_half_node 1 ex_half_state.

Definition ex_half_held_node : vmnode := set_ref ex_half_node 1.

(** A node of three slots with one resident page, and two free pages:
    one short of what a duplicate needs. *)
Definition ex_wide_node : vmnode := mk_vmnode 3 [pg 0; 0; 0] 1 EAGER None 0 0.

Definition ex_wide_state : kstate :=
  mk_kstate {[ 1%positive := ex_wide_node ]} ∅ ∅ ∅ [pg 1; pg 2] 0.


(** ** The index and the page table after insert and remove *)

(** The PRIVATE region [vmap::insert] builds for the node at [a]. *)
Definition inserted_vma (a : positive) (nd : vmnode) (start : Z) : vma :=
  mk_vma start (start + npages nd * PGSIZE) PRIVATE (Some a).

(** The page table after the clearing loop ran over the entries of
    [begin, end_). *)
Definition cleared (begin end_ : Z) (pt : gmap Z Z) : gmap Z Z :=
  map_imap (λ k v, if in_pages begin end_ k then Some 0 else Some v) pt.

(** No entry of the pages of [begin, end_) has its lock bit set. *)
Definition unlocked (begin end_ : Z) (pt : gmap Z Z) : Prop :=
  map_Forall (λ k v, in_pages begin end_ k = true → Z.land v PTE_LOCK = 0) pt.

#[global] Instance unlocked_dec b e pt : Decision (unlocked b e pt).
Proof. unfold unlocked. apply _. Defined.

(** The state a successful [vmap::insert] ends in. *)
Definition insert_state (this a : positive) (nd : vmnode) (mp : vmap) (start : Z)
    (s : kstate) : kstate :=
  mk_kstate (<[a := set_ref nd (ref nd + 1)]> (nodes s))
            (<[this := mk_vmap (cr_insert (inserted_vma a nd start) (cr mp))
                               (cleared start (start + npages nd * PGSIZE) (pml4 mp))
                               (vref mp)]> (vmaps s))
            (inodes s) (mem s) (freelist s) (tlbflushes s).

(** The third node of [ex_two_regions], not mapped anywhere. *)
Definition ex_spare_node : vmnode := mk_vmnode 1 [0] 0 EAGER None 0 0.

(** [ex_two_regions] with a stale present+user+writable entry left for
    the unmapped page at 4096. *)
Definition ex_stale_vmap : vmap := mk_vmap [ex_region0; ex_region1] {[ 1 := 1048583 ]} 1.

Definition ex_stale_state : kstate :=
  set_vmaps <[1%positive := ex_stale_vmap]> ex_two_regions.

(** [ex_two_regions] after a read fault on its first page: the entry of
    the page is present, user and writable. *)
Definition ex_touched_state : kstate :=
  state_of (pagefault 2 1 0 0 ex_two_regions) ex_two_regions.

Definition ex_unmapped_state : kstate :=
  state_of (remove_vma 1 0 4096 ex_touched_state) ex_touched_state.

Definition ex_touched_vmap : vmap :=
  mk_vmap [ex_region0; ex_region1] {[ 0 := 1048583 ]} 1.


(** ** Page faults *)

(** The entry [pagefault] installs for the page at [p] of a PRIVATE
    region. *)
Definition private_pte (p : Z) : Z :=
  Z.lor (Z.lor (Z.lor (v2p p) PTE_P) PTE_U) PTE_W.

(** One node mapped PRIVATE at two ranges of the same address space, its
    page resident. *)
Definition ex_twice_state : kstate :=
  state_of ((nd ← vmnode_new 1 EAGER None 0 0;
             mp ← vmap_new;
             match mp, nd with
             | Some mpa, Some nda =>
               insert_vma mpa nd 0 true;; insert_vma mpa nd 8192 true;; allocpg nda
             | _, _ => mret 0
             end) ex_boot) ex_boot.

Definition ex_twice_vmap : vmap :=
  mk_vmap [mk_vma 0 4096 PRIVATE (Some 1%positive);
           mk_vma 8192 12288 PRIVATE (Some 1%positive)] ∅ 1.

Definition ex_twice_node : vmnode := mk_vmnode 1 [pg 0] 2 EAGER None 0 0.



(** An anonymous node of two pages mapped at [0, 8192), no page touched
    yet. *)
Definition ex_lazy_state : kstate :=
  state_of ((nd ← vmnode_new 2 EAGER None 0 0;
             mp ← vmap_new;
             match mp with
             | Some mpa => insert_vma mpa nd 0 true
             | None => mret 0
             end) ex_boot) ex_boot.

Definition ex_lazy_vma : vma := mk_vma 0 8192 PRIVATE (Some 1%positive).

Definition ex_lazy_vmap : vmap := mk_vmap [ex_lazy_vma] ∅ 1.

Definition ex_lazy_node : vmnode := mk_vmnode 2 [0; 0] 1 EAGER None 0 0.

(** The entry [pagefault] installs for the page at [p] of a COW region. *)
Definition cow_pte (p : Z) : Z :=
  Z.lor (Z.lor (Z.lor (v2p p) PTE_P) PTE_U) PTE_COW.


(** ** Partial outcomes and copyout *)

(** [post m s Q]: whenever [m] returns from [s], the value and the state
    it returns satisfy [Q]. *)
Definition post {A} (m : M A) (s : kstate) (Q : A → kstate → Prop) : Prop :=
  ∀ a s', m s = Ok a s' → Q a s'.

(** The address spaces, with their page tables, and the TLB are as in
    [s]. *)
Definition same_maps (s s' : kstate) : Prop :=
  vmaps s' = vmaps s ∧ tlbflushes s' = tlbflushes s.

(** The offset of [va] in its page. *)
Definition page_offset (va : Z) : Z := va - PGROUNDDOWN va.

(** The bytes of a page after [buf] was written at offset [off]. *)
Definition overwrite (off : Z) (buf old : list byte) : list byte :=
  take (Z.to_nat off) old ++ buf ++ drop (Z.to_nat off + length buf) old.

(** The child of [ex_fork_state] after [copyout] wrote one byte into its
    COW region. *)
Definition ex_cow_written : kstate :=
  state_of (copyout 2 0 [x41] ex_fork_state) ex_fork_state.


(** ** Fork *)

(** The entry is not present+user+writable: the fast-accept test of
    [pagefault] fails on it. *)
Definition not_puw (v : Z) : Prop := Z.land v PTE_PUW ≠ PTE_PUW.

(** The page table of the address space at [this], when there is one. *)
Definition pt_of (this : positive) (s : kstate) : option (gmap Z Z) :=
  pml4 <$> vmaps s !! this.

(** The page table [pt'] has the entries of [pt], none of them made
    present+user+writable, and those of the pages in [R] are not. *)
Definition downgraded (R : Z → Prop) (pt pt' : gmap Z Z) : Prop :=
  ∀ k, match pt !! k with
       | Some v => ∃ v', pt' !! k = Some v' ∧ (not_puw v → not_puw v') ∧
                         (R k → not_puw v')
       | None => pt' !! k = None
       end.

(** The page table of [this] and the TLB are as in [s]. *)
Definition kept (this : positive) (s s' : kstate) : Prop :=
  tlbflushes s' = tlbflushes s ∧ pt_of this s' = pt_of this s.

(** The pages of the regions of [l] that are not COW. *)
Definition private_pages (l : list vma) (k : Z) : Prop :=
  ∃ e, e ∈ l ∧ va_type e ≠ COW ∧ in_pages (vma_start e) (vma_end e) k = true.

(** [ex_touched_state] after a fork with sharing. *)
Definition ex_touched_forked : kstate :=
  state_of (vmap_copy 1 true ex_touched_state) ex_touched_state.

(** The region [ne] of a state [s] is the private duplicate of the
    region [e] of the state [s0]: the same range, PRIVATE, over a node that
    was not there in [s0], has one referrer and has the page count and the
    load policy of the node of [e]. *)
Definition dup_of (s0 s : kstate) (e ne : vma) : Prop :=
  vma_start ne = vma_start e ∧ vma_end ne = vma_end e ∧ va_type ne = PRIVATE ∧
  ∃ c cn, n ne = Some c ∧ nodes s0 !! c = None ∧ nodes s !! c = Some cn ∧
    ref cn = 1 ∧
    ∀ a nd, n e = Some a → nodes s0 !! a = Some nd →
      npages cn = npages nd ∧ type cn = type nd.

(** The loop invariant of [vmap::copy] without sharing, after the
    regions [done]: the new address space at [nm] holds their duplicates,
    nothing else of the address spaces, the TLB and the nodes of [s0] has
    changed. *)
Definition noshare_inv (nm : positive) (s0 : kstate) (done : list vma) (s : kstate)
    : Prop :=
  tlbflushes s = tlbflushes s0 ∧
  (∀ a nd, nodes s0 !! a = Some nd → nodes s !! a = Some nd) ∧
  ∃ mc l, vmaps s = <[nm := mc]> (vmaps s0) ∧ pml4 mc = ∅ ∧ cr mc ≡ₚ l ∧
    Forall2 (dup_of s0 s) done l.

(** [ex_touched_state] after a fork without sharing. *)
Definition ex_touched_cloned : kstate :=
  state_of (vmap_copy 1 false ex_touched_state) ex_touched_state.


(** ** Dropping regions *)

(** The nodes after each lost the references that the regions of [l]
    held. *)
Definition released (l : list vma) (nds : gmap positive vmnode) : gmap positive vmnode :=
  map_imap (λ a nd, Some (set_ref nd (ref nd - refs_in l a))) nds.

(** Every node that a region of [l] refers to exists and has referrers
    beyond those of [l]. *)
Definition held_elsewhere (l : list vma) (s : kstate) : Prop :=
  Forall (λ e, ∀ a, n e = Some a → is_Some (nodes s !! a)) l ∧
  map_Forall (λ a nd, 0 < refs_in l a → refs_in l a < ref nd < 2 ^ 64) (nodes s).

(** A region loaded on demand from the last bytes of the file and
    beyond: the file ends 3808 bytes into the page. *)
Definition ex_short_state : kstate :=
  state_of ((nd ← vmnode_new 1 ONDEMAND (Some 1%positive) 12000 4096;
             mp ← vmap_new;
             match mp, nd with
             | Some mpa, Some nda => insert_vma mpa nd 0 true;; allocpg nda
             | _, _ => mret 0
             end) ex_boot) ex_boot.

Definition ex_short_node : vmnode :=
  mk_vmnode 1 [pg 0] 1 ONDEMAND (Some 1%positive) 12000 4096.

Definition ex_short_vma : vma := mk_vma 0 4096 PRIVATE (Some 1%positive).

(** ** A write fault on a COW region, resolved *)





(** * Verification *)

(** ** Running the monad *)

Lemma bind_eq {A B} (m : M A) (f : A → M B) (s : kstate) :
  (m ≫= f) s = match m s with Ok a s' => f a s' | Halt h => Halt h end.
Proof. reflexivity. Qed.

Lemma ret_eq {A} (a : A) (s : kstate) : (mret a : M A) s = Ok a s.
Proof. reflexivity. Qed.

Lemma bind_ok {A B} (m : M A) (f : A → M B) s a s' :
  m s = Ok a s' → (m ≫= f) s = f a s'.
Proof. intros H. rewrite bind_eq, H. reflexivity. Qed.

Lemma bind_inv {A B} (m : M A) (f : A → M B) s b s2 :
  (m ≫= f) s = Ok b s2 → ∃ a s1, m s = Ok a s1 ∧ f a s1 = Ok b s2.
Proof.
  rewrite bind_eq. destruct (m s) as [a s1|h]; [|discriminate].
  intros H. exists a, s1. split; [reflexivity|exact H].
Qed.

Lemma deref_node_ok s a nd :
  nodes s !! a = Some nd → deref_node (Some a) s = Ok nd s.
Proof. intros H. unfold deref_node. rewrite H. reflexivity. Qed.

Lemma deref_node_inv s p nd s' :
  deref_node p s = Ok nd s' → s' = s ∧ ∃ a, p = Some a ∧ nodes s !! a = Some nd.
Proof.
  unfold deref_node. destruct p as [a|]; [|discriminate].
  destruct (nodes s !! a) as [x|] eqn:E; [|discriminate].
  intros [= <- <-]. eauto.
Qed.

Lemma deref_vmap_ok s a mp :
  vmaps s !! a = Some mp → deref_vmap a s = Ok mp s.
Proof. intros H. unfold deref_vmap. rewrite H. reflexivity. Qed.

Lemma deref_vmap_inv s a mp s' :
  deref_vmap a s = Ok mp s' → s' = s ∧ vmaps s !! a = Some mp.
Proof.
  unfold deref_vmap. destruct (vmaps s !! a) as [x|] eqn:E; [|discriminate].
  intros [= <- <-]. eauto.
Qed.

Lemma slot_ok nd (k : nat) p :
  page nd !! k = Some p → Z.of_nat k < npages nd →
  ∀ s, slot nd (Z.of_nat k) s = Ok p s.
Proof.
  intros H Hlt s. unfold slot.
  replace (0 <=? Z.of_nat k) with true by (symmetry; apply Z.leb_le; lia).
  replace (Z.of_nat k <? npages nd) with true by (symmetry; apply Z.ltb_lt; lia).
  simpl. rewrite Nat2Z.id, H. reflexivity.
Qed.

Lemma slot_inv nd i p s s' :
  slot nd i s = Ok p s' →
  s' = s ∧ 0 ≤ i < npages nd ∧ page nd !! Z.to_nat i = Some p.
Proof.
  unfold slot.
  destruct (0 <=? i) eqn:E1; [|discriminate].
  destruct (i <? npages nd) eqn:E2; [|discriminate].
  simpl. destruct (page nd !! Z.to_nat i) as [q|] eqn:E3; [|discriminate].
  intros [= <- <-]. apply Z.leb_le in E1. apply Z.ltb_lt in E2. auto.
Qed.

(** ** allocpg as a function of the slot array and the free list *)

Lemma set_page_id nd : set_page nd (page nd) = nd.
Proof. destruct nd; reflexivity. Qed.

Lemma alloc_state_id this nd s :
  nodes s !! this = Some nd → alloc_state this nd (page nd) [] (freelist s) s = s.
Proof.
  intros H. unfold alloc_state. rewrite set_page_id, insert_id by exact H.
  destruct s; reflexivity.
Qed.

Lemma alloc_state_twice this nd pg1 used1 fl1 pg2 used2 fl2 s :
  alloc_state this (set_page nd pg1) pg2 used2 fl2
    (alloc_state this nd pg1 used1 fl1 s)
  = alloc_state this nd pg2 (used1 ++ used2) fl2 s.
Proof.
  unfold alloc_state, zero_fill; simpl.
  rewrite insert_insert_eq, foldl_app. reflexivity.
Qed.

Ltac mrun := repeat first [rewrite bind_eq | rewrite ret_eq | progress cbv beta iota].

Ltac mrun_in H :=
  repeat first [rewrite bind_eq in H | rewrite ret_eq in H | progress cbv beta iota in H].

Lemma allocpg_loop_spec this :
  ∀ suf pre nd s,
    nodes s !! this = Some nd →
    page nd = pre ++ suf →
    Z.of_nat (length (pre ++ suf)) = npages nd →
    allocpg_loop this (seqZ (Z.of_nat (length pre)) (Z.of_nat (length suf))) s =
      let '(suf', used, fl', ok) := fill_slots suf (freelist s) in
      Ok (if ok : bool then 0 else -1)
         (alloc_state this nd (pre ++ suf') used fl' s).
Proof.
  induction suf as [|c suf IH]; intros pre nd s Hnd Hpg Hlen.
  - simpl. rewrite ret_eq, app_nil_r, <- (app_nil_r pre), <- Hpg.
    rewrite alloc_state_id by exact Hnd. reflexivity.
  - rewrite seqZ_cons by (simpl; lia).
    assert (Hc : page nd !! length pre = Some c).
    { rewrite Hpg, lookup_app_r, Nat.sub_diag by lia. reflexivity. }
    assert (Hlt : Z.of_nat (length pre) < npages nd).
    { rewrite <- Hlen, length_app. simpl. lia. }
    cbn [allocpg_loop]. unfold allocpg_slot.
    replace (Z.succ (Z.of_nat (length pre))) with (Z.of_nat (length (pre ++ [c])))
      by (rewrite length_app; simpl; lia).
    replace (Z.pred (Z.of_nat (length (c :: suf)))) with (Z.of_nat (length suf))
      by (simpl; lia).
    mrun. rewrite (deref_node_ok _ _ _ Hnd). mrun. rewrite (slot_ok _ _ _ Hc Hlt). mrun.
    cbn [fill_slots].
    destruct (negb (c =? 0)) eqn:Ec.
    + mrun.
      rewrite (IH (pre ++ [c]) nd s Hnd) by (rewrite <- app_assoc; simpl; assumption).
      destruct (fill_slots suf (freelist s)) as [[[pg' used] fl'] ok].
      rewrite <- app_assoc. reflexivity.
    + apply negb_false_iff, Z.eqb_eq in Ec. subst c.
      mrun. unfold kalloc at 1. cbv beta.
      destruct (freelist s) as [|p fl1] eqn:Efl.
      * mrun. simpl. mrun. unfold alloc_state, zero_fill. simpl.
        rewrite <- Hpg, set_page_id, insert_id by exact Hnd.
        destruct s; simpl in *; subst; reflexivity.
      * mrun. destruct (p =? 0) eqn:Ep.
        { mrun. unfold alloc_state, zero_fill. simpl.
          rewrite <- Hpg, set_page_id, insert_id by exact Hnd.
          unfold set_freelist. reflexivity. }
        unfold memset_page. rewrite Ep. unfold modify at 1. mrun.
        unfold cmpxch_slot. mrun.
        rewrite (deref_node_ok _ _ nd) by exact Hnd. mrun.
        rewrite (slot_ok _ _ _ Hc Hlt). mrun. simpl (0 =? 0).
        mrun. unfold put_node, modify. mrun.
        rewrite Nat2Z.id.
        set (s1 := set_nodes _ _).
        assert (Hs1 : s1 = alloc_state this nd (pre ++ p :: suf) [p] fl1 s).
        { unfold s1, alloc_state, set_nodes, set_mem, set_freelist, zero_fill. simpl.
          rewrite Hpg, insert_app_r_alt, Nat.sub_diag by lia. reflexivity. }
        rewrite Hs1.
        replace (length (pre ++ [0])) with (length (pre ++ [p]))
          by (rewrite !length_app; reflexivity).
        rewrite (IH (pre ++ [p]) (set_page nd (pre ++ p :: suf))).
        -- simpl. destruct (fill_slots suf fl1) as [[[pg' used] fl'] ok].
           rewrite alloc_state_twice, <- app_assoc. reflexivity.
        -- simpl. apply lookup_insert_eq.
        -- simpl. rewrite <- app_assoc. reflexivity.
        -- simpl. rewrite <- Hlen, <- app_assoc. rewrite !length_app. simpl. lia.
Qed.

Lemma allocpg_spec this nd s :
  nodes s !! this = Some nd →
  length (page nd) = Z.to_nat (npages nd) → 0 ≤ npages nd →
  allocpg this s =
    let '(pg', used, fl', ok) := fill_slots (page nd) (freelist s) in
    Ok (if ok : bool then 0 else -1) (alloc_state this nd pg' used fl' s).
Proof.
  intros Hnd Hlen Hnp. unfold allocpg.
  rewrite bind_eq, (deref_node_ok _ _ _ Hnd).
  replace (npages nd) with (Z.of_nat (length (page nd))) by lia.
  apply (allocpg_loop_spec this (page nd) [] nd s Hnd eq_refl).
  simpl. lia.
Qed.

(** *** Properties of [fill_slots] *)

Lemma fill_slots_length pg : ∀ fl pg' used fl' ok,
  fill_slots pg fl = (pg', used, fl', ok) → length pg' = length pg.
Proof.
  induction pg as [|c pg IH]; intros fl pg' used fl' ok; simpl.
  - intros [= <- <- <- <-]. reflexivity.
  - destruct (negb (c =? 0)).
    + destruct (fill_slots pg fl) as [[[a b] d] e] eqn:E.
      intros [= <- <- <- <-]. simpl. f_equal. eauto.
    + destruct fl as [|p fl1]; [intros [= <- <- <- <-]; reflexivity|].
      destruct (p =? 0); [intros [= <- <- <- <-]; reflexivity|].
      destruct (fill_slots pg fl1) as [[[a b] d] e] eqn:E.
      intros [= <- <- <- <-]. simpl. f_equal. eauto.
Qed.

(** A populated slot is never reassigned. *)
Lemma fill_slots_keeps pg : ∀ fl pg' used fl' ok (i : nat) c,
  fill_slots pg fl = (pg', used, fl', ok) →
  pg !! i = Some c → c ≠ 0 → pg' !! i = Some c.
Proof.
  induction pg as [|c0 pg IH]; intros fl pg' used fl' ok i c; simpl.
  - intros _ H. discriminate.
  - destruct (negb (c0 =? 0)) eqn:Ec.
    + destruct (fill_slots pg fl) as [[[a b] d] e] eqn:E.
      intros [= <- <- <- <-]. destruct i; simpl; eauto.
    + apply negb_false_iff, Z.eqb_eq in Ec. subst c0.
      destruct fl as [|p fl1]; [intros [= <- <- <- <-]; auto|].
      destruct (p =? 0); [intros [= <- <- <- <-]; auto|].
      destruct (fill_slots pg fl1) as [[[a b] d] e] eqn:E.
      intros [= <- <- <- <-]. destruct i; simpl; [intros [= <-]; lia|eauto].
Qed.

(** A slot that was empty and is populated holds a page that was zeroed. *)
Lemma fill_slots_new pg : ∀ fl pg' used fl' ok (i : nat) p,
  fill_slots pg fl = (pg', used, fl', ok) →
  pg !! i = Some 0 → pg' !! i = Some p → p ≠ 0 → p ∈ used.
Proof.
  induction pg as [|c0 pg IH]; intros fl pg' used fl' ok i p; simpl.
  - intros _ H. discriminate.
  - destruct (negb (c0 =? 0)) eqn:Ec.
    + destruct (fill_slots pg fl) as [[[a b] d] e] eqn:E.
      intros [= <- <- <- <-]. destruct i; simpl.
      * intros [= ->]. discriminate.
      * eauto.
    + destruct fl as [|q fl1].
      { intros [= <- <- <- <-] H1 H2. rewrite H1 in H2. congruence. }
      destruct (q =? 0).
      { intros [= <- <- <- <-] H1 H2. rewrite H1 in H2. congruence. }
      destruct (fill_slots pg fl1) as [[[a b] d] e] eqn:E.
      intros [= <- <- <- <-]. destruct i; simpl.
      * intros _ [= ->] _. apply list_elem_of_here.
      * intros H1 H2 H3. apply list_elem_of_further. eauto.
Qed.


(** With a free page for every empty slot the loop gets to the end, and
    then no slot is empty. *)
Lemma fill_slots_enough pg : ∀ fl,
  0 ∉ fl → (length (filter (λ c : Z, c = 0%Z) pg) ≤ length fl)%nat →
  (fill_slots pg fl).2 = true.
Proof.
  induction pg as [|c0 pg IH]; intros fl H0 Hlen; simpl; [reflexivity|].
  destruct (negb (c0 =? 0)) eqn:Ec.
  - apply negb_true_iff, Z.eqb_neq in Ec.
    rewrite filter_cons_False in Hlen by exact Ec.
    specialize (IH fl H0 Hlen).
    destruct (fill_slots pg fl) as [[[a b] d] e]. exact IH.
  - apply negb_false_iff, Z.eqb_eq in Ec. subst c0.
    rewrite filter_cons_True in Hlen by reflexivity. simpl in Hlen.
    destruct fl as [|q fl1]; [simpl in Hlen; lia|].
    destruct (q =? 0) eqn:Eq.
    { apply Z.eqb_eq in Eq. subst q. exfalso. apply H0, list_elem_of_here. }
    assert (H0' : 0 ∉ fl1) by (intros H; apply H0, list_elem_of_further, H).
    simpl in Hlen. specialize (IH fl1 H0' ltac:(lia)).
    destruct (fill_slots pg fl1) as [[[a b] d] e]. exact IH.
Qed.

Lemma fill_slots_full pg : ∀ fl pg' used fl',
  fill_slots pg fl = (pg', used, fl', true) → Forall (λ p, p ≠ 0) pg'.
Proof.
  induction pg as [|c0 pg IH]; intros fl pg' used fl'; simpl.
  - intros [= <- <- <-]. constructor.
  - destruct (negb (c0 =? 0)) eqn:Ec.
    + apply negb_true_iff, Z.eqb_neq in Ec.
      destruct (fill_slots pg fl) as [[[a b] d] e] eqn:E.
      intros [= <- <- <- ->]. constructor; eauto.
    + destruct fl as [|q fl1]; [discriminate|].
      destruct (q =? 0) eqn:Eq; [discriminate|]. apply Z.eqb_neq in Eq.
      destruct (fill_slots pg fl1) as [[[a b] d] e] eqn:E.
      intros [= <- <- <- ->]. constructor; eauto.
Qed.

(** All slots empty: the slots become the head of the free list. *)
Lemma fill_slots_empty (k : nat) : ∀ fl,
  0 ∉ fl → (k ≤ length fl)%nat →
  fill_slots (replicate k 0) fl = (take k fl, take k fl, drop k fl, true).
Proof.
  induction k as [|k IH]; intros fl H0 Hlen; simpl.
  - rewrite take_0, drop_0. reflexivity.
  - destruct fl as [|q fl1]; [simpl in Hlen; lia|].
    destruct (q =? 0) eqn:Eq.
    { apply Z.eqb_eq in Eq. subst q. exfalso. apply H0, list_elem_of_here. }
    assert (H0' : 0 ∉ fl1) by (intros H; apply H0, list_elem_of_further, H).
    simpl in Hlen. rewrite (IH fl1 H0') by lia. reflexivity.
Qed.

Lemma zero_fill_in used : ∀ m p, p ∈ used → zero_fill used m !! p = Some zero_page.
Proof.
  unfold zero_fill. induction used as [|q used IH] using rev_ind; intros m p Hin.
  - inversion Hin.
  - rewrite foldl_app. simpl. destruct (decide (q = p)) as [->|Hne].
    + apply lookup_insert_eq.
    + rewrite lookup_insert_ne by exact Hne. apply IH.
      apply elem_of_app in Hin as [H|H]; [exact H|].
      apply list_elem_of_singleton in H. congruence.
Qed.

Lemma zero_fill_out used : ∀ m p, p ∉ used → zero_fill used m !! p = m !! p.
Proof.
  unfold zero_fill. induction used as [|q used IH]; intros m p Hout; simpl.
  - reflexivity.
  - rewrite IH by (intros H; apply Hout, list_elem_of_further, H).
    apply lookup_insert_ne. intros ->. apply Hout, list_elem_of_here.
Qed.

Lemma length_zero_page : Z.of_nat (length zero_page) = PGSIZE.
Proof. unfold zero_page. rewrite length_replicate. reflexivity. Qed.

(** ** C10: allocpg installs zero-filled pages *)

(** C10.  After [allocpg] has run on a node (to the end or until the
    allocator is exhausted), every slot that was empty before and holds a
    page afterwards holds a page whose [PGSIZE] bytes are all zero; slots
    that were populated keep their page. *)
Theorem allocpg_installs_zero_pages this nd s r s' :
  nodes s !! this = Some nd →
  node_wf nd →
  allocpg this s = Ok r s' →
  ∃ nd', nodes s' !! this = Some nd' ∧
    length (page nd') = length (page nd) ∧
    ∀ (i : nat) p, page nd' !! i = Some p → p ≠ 0 →
      (page nd !! i = Some 0 →
         page_bytes s' p = zero_page ∧ Z.of_nat (length (page_bytes s' p)) = PGSIZE ∧
         Forall (λ b, b = x00) (page_bytes s' p)) ∧
      (page nd !! i ≠ Some 0 → page nd !! i = Some p).
Proof.
  intros Hnd [Hnp Hlen] Hrun.
  rewrite (allocpg_spec this nd s Hnd Hlen) in Hrun by lia.
  destruct (fill_slots (page nd) (freelist s)) as [[[pg' used] fl'] ok] eqn:E.
  injection Hrun as _ <-.
  exists (set_page nd pg'). split; [apply lookup_insert_eq|]. simpl.
  split; [eapply fill_slots_length, E|].
  intros i p Hp Hne. split.
  - intros H0. assert (Hin : p ∈ used) by (eapply fill_slots_new; eauto).
    unfold page_bytes. simpl. rewrite (zero_fill_in _ _ _ Hin). simpl.
    split; [reflexivity|]. split; [apply length_zero_page|].
    apply Forall_replicate. reflexivity.
  - intros H0. destruct (page nd !! i) as [c|] eqn:Ec.
    + assert (c ≠ 0) by congruence.
      rewrite (fill_slots_keeps _ _ _ _ _ _ _ _ E Ec) in Hp by assumption.
      exact Hp.
    + apply lookup_ge_None in Ec. apply lookup_lt_Some in Hp.
      apply fill_slots_length in E. lia.
Qed.

Lemma allocpg_installs_zero_pages_witness :
  ∃ nd', nodes (alloc_state 1 ex_empty_node [pg 0; 0] [pg 0] [] ex_alloc_state) !! 1%positive
           = Some nd' ∧
    length (page nd') = length (page ex_empty_node) ∧
    ∀ (i : nat) p, page nd' !! i = Some p → p ≠ 0 →
      (page ex_empty_node !! i = Some 0 →
         page_bytes (alloc_state 1 ex_empty_node [pg 0; 0] [pg 0] [] ex_alloc_state) p = zero_page ∧
         Z.of_nat (length (page_bytes (alloc_state 1 ex_empty_node [pg 0; 0] [pg 0] []
                                                   ex_alloc_state) p)) = PGSIZE ∧
         Forall (λ b, b = x00)
                (page_bytes (alloc_state 1 ex_empty_node [pg 0; 0] [pg 0] [] ex_alloc_state) p)) ∧
      (page ex_empty_node !! i ≠ Some 0 → page ex_empty_node !! i = Some p).
Proof.
  apply (allocpg_installs_zero_pages 1 ex_empty_node ex_alloc_state (-1)).
  - reflexivity.
  - unfold node_wf, NELEM_page. simpl. split; [lia|reflexivity].
  - vm_compute. reflexivity.
Defined.

(** ** vmnode::copy *)

Lemma fresh_node_None s : nodes s !! fresh_node s = None.
Proof. unfold fresh_node. apply not_elem_of_dom. apply is_fresh. Qed.

(** The constructor when it does not load eagerly. *)
Lemma vmnode_new_lazy npg ntype i off size s :
  ¬ (ntype = EAGER ∧ i ≠ None) → npg ≤ NELEM_page →
  vmnode_new npg ntype i off size s =
    Ok (Some (fresh_node s))
       (set_nodes <[fresh_node s :=
          mk_vmnode npg (replicate (Z.to_nat npg) 0) 0 ntype i off size]> s).
Proof.
  intros Hlazy Hnp. unfold vmnode_new, new_node.
  replace (NELEM_page <? npg) with false by (symmetry; apply Z.ltb_ge; lia).
  unfold put_node, modify. mrun. case_decide; [contradiction|]. mrun.
  unfold set_nodes. simpl. rewrite insert_insert_eq. reflexivity.
Qed.

Lemma set_mem_id s : set_mem (λ m, m) s = s.
Proof. destruct s; reflexivity. Qed.

Lemma copy_pages_spec this c nd cn :
  ∀ (cnt k : nat) s,
    nodes s !! this = Some nd → nodes s !! c = Some cn →
    (k + cnt)%nat = length (page nd) →
    length (page cn) = length (page nd) →
    npages nd = Z.of_nat (length (page nd)) → npages cn = npages nd →
    Forall (λ p, p ≠ 0) (page cn) →
    copy_pages this c (seqZ (Z.of_nat k) (Z.of_nat cnt)) s =
      Ok tt (set_mem (copy_fill (drop k (zip (page nd) (page cn)))) s).
Proof.
  induction cnt as [|cnt IH]; intros k s Hnd Hcn Hk Hlen Hnp Hnpc Hfull.
  - simpl. rewrite ret_eq, drop_ge by (rewrite length_zip; lia).
    unfold copy_fill. simpl. rewrite set_mem_id. reflexivity.
  - rewrite seqZ_cons by lia.
    replace (Z.succ (Z.of_nat k)) with (Z.of_nat (S k)) by lia.
    replace (Z.pred (Z.of_nat (S cnt))) with (Z.of_nat cnt) by lia.
    destruct (lookup_lt_is_Some_2 (page nd) k ltac:(lia)) as [src Hsrc].
    destruct (lookup_lt_is_Some_2 (page cn) k ltac:(lia)) as [dst Hdst].
    assert (Hz : zip (page nd) (page cn) !! k = Some (src, dst)).
    { rewrite lookup_zip_with, Hsrc. simpl. rewrite Hdst. reflexivity. }
    rewrite (drop_S _ _ _ Hz).
    cbn [copy_pages]. unfold copy_page. mrun.
    rewrite (deref_node_ok _ _ _ Hnd). mrun.
    rewrite (slot_ok _ _ _ Hsrc) by lia. mrun.
    unfold copy_fill. cbn [foldl fst snd].
    destruct (src =? 0) eqn:Es; cbn [negb]; mrun.
    + rewrite (IH (S k) s) by (assumption || lia). reflexivity.
    + rewrite (deref_node_ok _ _ _ Hcn). mrun.
      rewrite (slot_ok _ _ _ Hdst) by lia. mrun.
      assert (Hd : dst ≠ 0).
      { eapply (proj1 (Forall_lookup _ _) Hfull); eauto. }
      unfold memmove_page.
      replace (dst =? 0) with false by (symmetry; apply Z.eqb_neq; exact Hd).
      rewrite Es. cbn [orb]. unfold get, modify. mrun.
      rewrite (IH (S k)) by (assumption || lia). reflexivity.
Qed.

Lemma copy_fill_out pairs : ∀ m q,
  q ∉ pairs.*2 → copy_fill pairs m !! q = m !! q.
Proof.
  unfold copy_fill. induction pairs as [|[a b] pairs IH]; intros m q Hq; simpl.
  - reflexivity.
  - rewrite IH by (intros H; apply Hq, list_elem_of_further, H).
    destruct (a =? 0); [reflexivity|].
    apply lookup_insert_ne. intros ->. apply Hq, list_elem_of_here.
Qed.

Lemma copy_fill_at pairs : ∀ m (i : nat) a b,
  NoDup pairs.*2 →
  (∀ x, x ∈ pairs.*1 → x ∉ pairs.*2) →
  pairs !! i = Some (a, b) →
  copy_fill pairs m !! b =
    if a =? 0 then m !! b else Some (default zero_page (m !! a)).
Proof.
  unfold copy_fill.
  induction pairs as [|[a0 b0] pairs IH]; intros m i a b Hnd Hdisj Hi.
  - discriminate.
  - simpl in Hnd. apply NoDup_cons in Hnd as [Hb0 Hnd].
    assert (Hdisj' : ∀ x, x ∈ pairs.*1 → x ∉ pairs.*2).
    { intros x Hx Hx2. apply (Hdisj x); simpl;
        apply list_elem_of_further; assumption. }
    destruct i as [|i]; simpl in Hi.
    + injection Hi as -> ->. cbn [foldl fst snd].
      fold (copy_fill pairs (if a =? 0 then m
                             else <[b := default zero_page (m !! a)]> m)).
      rewrite copy_fill_out by exact Hb0.
      destruct (a =? 0); [reflexivity|apply lookup_insert_eq].
    + cbn [foldl fst snd]. rewrite (IH _ i a b Hnd Hdisj' Hi).
      assert (Ha : a ≠ b0).
      { intros ->. apply (Hdisj b0); simpl.
        - apply list_elem_of_further.
          apply (list_elem_of_fmap_2 fst _ _ (list_elem_of_lookup_2 _ _ _ Hi)).
        - apply list_elem_of_here. }
      assert (Hb : b ≠ b0).
      { intros ->. apply Hb0.
        apply (list_elem_of_fmap_2 snd _ _ (list_elem_of_lookup_2 _ _ _ Hi)). }
      destruct (a0 =? 0); [reflexivity|].
      rewrite !lookup_insert_ne by congruence. reflexivity.
Qed.

Lemma idup_step nd s :
  (if decide (type nd = ONDEMAND) then idup (ip nd) else mret None) s
  = Ok (copy_ip nd) (after_idup nd s).
Proof.
  unfold after_idup, copy_ip. case_decide; [|reflexivity].
  unfold idup. destruct (ip nd); reflexivity.
Qed.

Lemma after_idup_nodes nd s : nodes (after_idup nd s) = nodes s.
Proof. unfold after_idup. destruct (copy_ip nd); reflexivity. Qed.

Lemma after_idup_mem nd s : mem (after_idup nd s) = mem s.
Proof. unfold after_idup. destruct (copy_ip nd); reflexivity. Qed.

Lemma after_idup_freelist nd s : freelist (after_idup nd s) = freelist s.
Proof. unfold after_idup. destruct (copy_ip nd); reflexivity. Qed.

Lemma after_idup_vmaps nd s : vmaps (after_idup nd s) = vmaps s.
Proof. unfold after_idup. destruct (copy_ip nd); reflexivity. Qed.

Lemma after_idup_tlb nd s : tlbflushes (after_idup nd s) = tlbflushes s.
Proof. unfold after_idup. destruct (copy_ip nd); reflexivity. Qed.

Lemma copy_ip_lazy nd : ¬ (type nd = EAGER ∧ copy_ip nd ≠ None).
Proof.
  unfold copy_ip. intros [H1 H2]. case_decide; [congruence|]. apply H2. reflexivity.
Qed.

Lemma vmnode_copy_start this nd s :
  nodes s !! this = Some nd → node_wf nd →
  vmnode_copy this s =
    let c := fresh_node s in
    let s1 := set_nodes <[c := empty_dup nd]> (after_idup nd s) in
    (p0 ← slot nd 0;
     if p0 =? 0 then mret (Some c)
     else
       r ← allocpg c;
       if r <? 0 then vmnode_delete c;; mret None
       else copy_pages this c (seqZ 0 (npages nd));; mret (Some c)) s1.
Proof.
  intros Hnd [Hnp Hlen]. unfold vmnode_copy. mrun.
  rewrite (deref_node_ok _ _ _ Hnd). mrun. rewrite idup_step. mrun.
  rewrite vmnode_new_lazy by (apply copy_ip_lazy || lia). mrun.
  unfold fresh_node. rewrite after_idup_nodes. reflexivity.
Qed.

(** ** C7: duplicating an object whose first slot is empty *)

(** C7.  When the first page slot of a node is empty, [vmnode::copy]
    returns a new node with the same page count and no resident page,
    and neither the free list nor physical memory changes: no page is
    allocated. *)
Theorem copy_of_empty_node this nd s :
  nodes s !! this = Some nd →
  node_wf nd →
  page nd !! 0%nat = Some 0 →
  ∃ c cn s',
    vmnode_copy this s = Ok (Some c) s' ∧
    nodes s !! c = None ∧
    nodes s' !! c = Some cn ∧
    nodes s' !! this = Some nd ∧
    npages cn = npages nd ∧
    length (page cn) = length (page nd) ∧
    Forall (λ p, p = 0) (page cn) ∧
    freelist s' = freelist s ∧
    mem s' = mem s.
Proof.
  intros Hnd Hwf H0. pose proof Hwf as [Hnp Hlen].
  assert (Hpos : 0 < npages nd).
  { apply lookup_lt_Some in H0. lia. }
  exists (fresh_node s), (empty_dup nd),
         (set_nodes <[fresh_node s := empty_dup nd]> (after_idup nd s)).
  pose proof (fresh_node_None s) as Hfresh.
  split; [|split; [exact Hfresh|]].
  - rewrite (vmnode_copy_start this nd s Hnd Hwf). cbv zeta. mrun.
    rewrite (slot_ok nd 0%nat 0 H0) by (simpl; lia). mrun. reflexivity.
  - simpl. rewrite after_idup_nodes, after_idup_mem, after_idup_freelist.
    split; [apply lookup_insert_eq|].
    split; [rewrite lookup_insert_ne by congruence; exact Hnd|].
    split; [reflexivity|].
    split; [rewrite length_replicate; lia|].
    split; [apply Forall_replicate; reflexivity|].
    split; reflexivity.
Qed.

(** ** C8: duplicating an object whose first page is resident *)

Lemma copy_of_resident_run this nd s p0 :
  nodes s !! this = Some nd →
  node_wf nd →
  page nd !! 0%nat = Some p0 → p0 ≠ 0 →
  freelist_ok nd s →
  npages nd ≤ Z.of_nat (length (freelist s)) →
  vmnode_copy this s = Ok (Some (fresh_node s)) (dup_state nd s).
Proof.
  intros Hnd Hwf H0 Hp0 (Hz & Hnodup & Hdisj) Hfree. unfold dup_state.
  set (k := Z.to_nat (npages nd)). set (c := fresh_node s). set (fl := freelist s).
  pose proof Hwf as [Hnp Hlen].
  assert (Hpos : 0 < npages nd) by (apply lookup_lt_Some in H0; lia).
  pose proof (fresh_node_None s) as Hfresh. fold c in Hfresh.
  rewrite (vmnode_copy_start this nd s Hnd Hwf). cbv zeta. fold c. mrun.
  rewrite (slot_ok nd 0%nat p0 H0) by (simpl; lia). mrun.
  replace (p0 =? 0) with false by (symmetry; apply Z.eqb_neq; exact Hp0).
  set (s1 := set_nodes _ _). mrun.
  assert (Hc1 : nodes s1 !! c = Some (empty_dup nd)).
  { unfold s1. simpl. apply lookup_insert_eq. }
  rewrite (allocpg_spec c (empty_dup nd) s1 Hc1)
    by (simpl; rewrite ?length_replicate; lia).
  assert (Hfl1 : freelist s1 = fl).
  { unfold s1. simpl. apply after_idup_freelist. }
  rewrite Hfl1. cbn [empty_dup page]. fold k.
  rewrite (fill_slots_empty k fl Hz) by (unfold k, fl; lia).
  cbv zeta iota beta.
  set (s2 := alloc_state _ _ _ _ _ _).
  assert (Hlk : length (take k fl) = length (page nd)).
  { rewrite length_take. unfold k, fl. lia. }
  replace (seqZ 0 (npages nd))
    with (seqZ (Z.of_nat 0) (Z.of_nat (Z.to_nat (npages nd)))) by (f_equal; lia).
  change (0 <? 0) with false. mrun.
  rewrite (copy_pages_spec this c nd (set_page (empty_dup nd) (take k fl))
             (Z.to_nat (npages nd)) 0 s2).
  - rewrite drop_0. reflexivity.
  - unfold s2, alloc_state, s1. simpl. rewrite after_idup_nodes.
    rewrite insert_insert_eq, lookup_insert_ne by congruence. exact Hnd.
  - unfold s2, alloc_state. simpl. apply lookup_insert_eq.
  - lia.
  - simpl. exact Hlk.
  - lia.
  - reflexivity.
  - simpl. apply Forall_take, Forall_forall. intros x Hx ->. exact (Hz Hx).
Qed.

(** C8 (amended).  When the first page of a node is resident and the
    allocator has a page for every slot, [vmnode::copy] returns a new node
    with the same page count in which every slot is populated: a slot whose
    source page is resident holds a byte-for-byte copy of it, a slot that is
    empty in the source holds a zero-filled page.  The source keeps its
    slots and its bytes. *)
Theorem copy_of_resident_node this nd s p0 :
  nodes s !! this = Some nd →
  node_wf nd →
  page nd !! 0%nat = Some p0 → p0 ≠ 0 →
  freelist_ok nd s →
  npages nd ≤ Z.of_nat (length (freelist s)) →
  ∃ c cn s',
    vmnode_copy this s = Ok (Some c) s' ∧
    nodes s !! c = None ∧
    nodes s' !! c = Some cn ∧
    nodes s' !! this = Some nd ∧
    npages cn = npages nd ∧
    length (page cn) = length (page nd) ∧
    ∀ (i : nat) p, page nd !! i = Some p →
      ∃ q, page cn !! i = Some q ∧ q ≠ 0 ∧ (q ∉ page nd) ∧
        page_bytes s' q = (if p =? 0 then zero_page else page_bytes s p) ∧
        page_bytes s' p = page_bytes s p.
Proof.
  intros Hnd Hwf H0 Hp0 Hfl Hfree.
  pose proof (copy_of_resident_run this nd s p0 Hnd Hwf H0 Hp0 Hfl Hfree) as Hrun.
  unfold dup_state in Hrun.
  destruct Hfl as (Hz & Hnodup & Hdisj). pose proof Hwf as [Hnp Hlen].
  assert (Hlk : length (take (Z.to_nat (npages nd)) (freelist s)) = length (page nd)).
  { rewrite length_take. lia. }
  set (k := Z.to_nat (npages nd)) in *. set (fl := freelist s) in *.
  set (c := fresh_node s) in *.
  pose proof (fresh_node_None s) as Hfresh. fold c in Hfresh.
  eexists c, _, _. split; [exact Hrun|]. split; [exact Hfresh|].
  simpl. rewrite after_idup_nodes, insert_insert_eq.
  split; [apply lookup_insert_eq|].
  split; [rewrite lookup_insert_ne by congruence; exact Hnd|].
  split; [reflexivity|]. split; [exact Hlk|].
  intros i p Hp.
  destruct (lookup_lt_is_Some_2 (take k fl) i) as [q Hq].
  { rewrite Hlk. eapply lookup_lt_Some, Hp. }
  assert (Hqfl : q ∈ fl).
  { eapply subseteq_take, list_elem_of_lookup_2, Hq. }
  assert (Hqk : q ∈ take k fl) by (eapply list_elem_of_lookup_2, Hq).
  assert (Hpfl : p ∉ take k fl).
  { intros H. apply (Hdisj p); [eapply list_elem_of_lookup_2, Hp|].
    eapply subseteq_take, H. }
  exists q. split; [exact Hq|].
  split; [intros ->; exact (Hz Hqfl)|].
  split; [intros H; exact (Hdisj q H Hqfl)|].
  unfold page_bytes. simpl. rewrite after_idup_mem.
  assert (Hpair : zip (page nd) (take k fl) !! i = Some (p, q)).
  { rewrite lookup_zip_with, Hp. simpl. rewrite Hq. reflexivity. }
  split.
  - rewrite (copy_fill_at _ _ i p q).
    + destruct (p =? 0) eqn:Ep.
      * rewrite (zero_fill_in _ _ _ Hqk). reflexivity.
      * rewrite (zero_fill_out _ _ _ Hpfl). simpl.
        destruct (mem s !! p); reflexivity.
    + rewrite snd_zip by lia. apply (sublist_NoDup _ fl Hnodup), sublist_take.
    + rewrite fst_zip, snd_zip by lia. intros x Hx H.
      apply (Hdisj x Hx). eapply subseteq_take, H.
    + exact Hpair.
  - rewrite copy_fill_out by (rewrite snd_zip by lia; exact Hpfl).
    rewrite (zero_fill_out _ _ _ Hpfl). reflexivity.
Qed.

(** ** demand_load *)

Lemma readi_ok a f p off cnt s :
  inodes s !! a = Some f → p ≠ 0 →
  0 ≤ off → 0 ≤ cnt → off + cnt ≤ Z.of_nat (length (idata f)) → off + cnt < 2 ^ 64 →
  readi (Some a) p off cnt s =
    Ok cnt (set_mem <[p := take (Z.to_nat cnt) (drop (Z.to_nat off) (idata f))
                           ++ drop (Z.to_nat cnt) (page_bytes s p)]> s).
Proof.
  intros Hf Hp Hoff Hcnt Hlen Hmax. unfold readi, get. mrun. rewrite Hf.
  replace (Z.of_nat (length (idata f)) <? off) with false
    by (symmetry; apply Z.ltb_ge; lia).
  replace (2 ^ 64 <=? off + cnt) with false by (symmetry; apply Z.leb_gt; lia).
  replace (p =? 0) with false by (symmetry; apply Z.eqb_neq; exact Hp).
  replace (Z.of_nat (length (idata f)) <? off + cnt) with false
    by (symmetry; apply Z.ltb_ge; lia).
  cbn [orb]. unfold modify. mrun. reflexivity.
Qed.

Lemma chunk_len_bounds size i :
  0 ≤ i < size → 0 < chunk_len size i ≤ PGSIZE ∧ i + chunk_len size i ≤ size.
Proof.
  intros H. unfold chunk_len, PGSIZE.
  destruct (size - i <? 4096) eqn:E;
    [apply Z.ltb_lt in E | apply Z.ltb_ge in E]; lia.
Qed.

Lemma demand_load_loop_spec this nd a f :
  ∀ (cnt k : nat) s,
    nodes s !! this = Some nd → ip nd = Some a → inodes s !! a = Some f →
    Z.of_nat (length (page nd)) = npages nd →
    Forall (λ p, p ≠ 0) (page nd) →
    0 ≤ offset nd →
    offset nd + sz nd ≤ Z.of_nat (length (idata f)) →
    offset nd + sz nd < 2 ^ 64 →
    (k + cnt ≤ length (page nd))%nat →
    (Z.of_nat (k + cnt) - 1) * PGSIZE < sz nd ∨ cnt = 0%nat →
    demand_load_loop this ((λ j, j * PGSIZE) <$> seqZ (Z.of_nat k) (Z.of_nat cnt)) s =
      Ok 0 (set_mem (load_fill (idata f) (offset nd) (sz nd)
                       (zip ((λ j, j * PGSIZE) <$> seqZ (Z.of_nat k) (Z.of_nat cnt))
                            (drop k (page nd)))) s).
Proof.
  induction cnt as [|cnt IH]; intros k s Hnd Hip Hf Hlen Hfull Hoff Hsz Hmax Hk Hlast.
  - simpl. rewrite ret_eq. unfold load_fill. simpl. rewrite set_mem_id. reflexivity.
  - destruct Hlast as [Hlast|]; [|discriminate].
    rewrite seqZ_cons by lia.
    replace (Z.succ (Z.of_nat k)) with (Z.of_nat (S k)) by lia.
    replace (Z.pred (Z.of_nat (S cnt))) with (Z.of_nat cnt) by lia.
    destruct (lookup_lt_is_Some_2 (page nd) k ltac:(lia)) as [p Hp].
    assert (Hp0 : p ≠ 0) by (eapply (proj1 (Forall_lookup _ _) Hfull); eauto).
    rewrite (drop_S _ _ _ Hp). cbn [fmap list_fmap zip zip_with].
    cbn [demand_load_loop]. unfold demand_load_chunk. mrun.
    rewrite (deref_node_ok _ _ _ Hnd). mrun.
    assert (HPG : PGSIZE = 4096) by reflexivity.
    replace (Z.of_nat k * PGSIZE / PGSIZE) with (Z.of_nat k)
      by (symmetry; apply Z.div_mul; lia).
    rewrite (slot_ok _ _ _ Hp) by lia. mrun.
    fold (chunk_len (sz nd) (Z.of_nat k * PGSIZE)).
    assert (Hin : 0 ≤ Z.of_nat k * PGSIZE < sz nd) by lia.
    pose proof (chunk_len_bounds _ _ Hin) as [Hc1 Hc2].
    rewrite Hip.
    replace (wrap64 (offset nd + Z.of_nat k * PGSIZE))
      with (offset nd + Z.of_nat k * PGSIZE)
      by (unfold wrap64; symmetry; apply Z.mod_small; lia).
    rewrite (readi_ok a f p) by (assumption || lia). mrun.
    rewrite Z.eqb_refl. cbn [negb]. mrun.
    rewrite (IH (S k)); try assumption; try lia.
    unfold load_fill at 2. cbn [foldl fst snd].
    fold (load_fill (idata f) (offset nd) (sz nd)).
    unfold loaded_page at 2. unfold page_bytes. reflexivity.
Qed.

Lemma load_fill_cons data off size i p chunks m :
  load_fill data off size ((i, p) :: chunks) m =
  load_fill data off size chunks
    (<[p := loaded_page data off size i (default zero_page (m !! p))]> m).
Proof. reflexivity. Qed.

Lemma load_fill_out data off size chunks : ∀ m q,
  q ∉ chunks.*2 → load_fill data off size chunks m !! q = m !! q.
Proof.
  induction chunks as [|[i p] chunks IH]; intros m q Hq.
  - reflexivity.
  - rewrite load_fill_cons, IH by (intros H; apply Hq, list_elem_of_further, H).
    apply lookup_insert_ne. intros ->. apply Hq, list_elem_of_here.
Qed.

Lemma load_fill_at data off size chunks : ∀ m (j : nat) i p,
  NoDup chunks.*2 → chunks !! j = Some (i, p) →
  load_fill data off size chunks m !! p =
    Some (loaded_page data off size i (default zero_page (m !! p))).
Proof.
  induction chunks as [|[i0 p0] chunks IH]; intros m j i p Hnd Hj; [discriminate|].
  simpl in Hnd. apply NoDup_cons in Hnd as [Hp0 Hnd].
  rewrite load_fill_cons.
  destruct j as [|j]; simpl in Hj.
  - injection Hj as -> ->.
    rewrite load_fill_out by exact Hp0. apply lookup_insert_eq.
  - rewrite (IH _ j i p Hnd Hj).
    assert (p ≠ p0).
    { intros ->. apply Hp0.
      apply (list_elem_of_fmap_2 snd _ _ (list_elem_of_lookup_2 _ _ _ Hj)). }
    rewrite lookup_insert_ne by congruence. reflexivity.
Qed.

(** ** C9: eager construction *)

Lemma chunk_starts_eq size :
  0 ≤ size →
  chunk_starts size =
    (λ j, j * PGSIZE) <$> seqZ (Z.of_nat 0)
                               (Z.of_nat (Z.to_nat ((size + PGSIZE - 1) / PGSIZE))).
Proof.
  intros H. unfold chunk_starts. f_equal. f_equal.
  assert (0 ≤ (size + PGSIZE - 1) / PGSIZE).
  { apply Z.div_pos; unfold PGSIZE; lia. }
  lia.
Qed.

Lemma chunks_count size npg :
  0 ≤ size ≤ npg * PGSIZE →
  let m := (size + PGSIZE - 1) / PGSIZE in
  0 ≤ m ≤ npg ∧ (m - 1) * PGSIZE < size ∧ size ≤ m * PGSIZE.
Proof.
  intros H m. unfold PGSIZE in *.
  assert (H1 : 4096 * m ≤ size + 4095 < 4096 * m + 4096).
  { unfold m. pose proof (Z.mul_div_le (size + 4096 - 1) 4096 ltac:(lia)).
    pose proof (Z.mul_succ_div_gt (size + 4096 - 1) 4096 ltac:(lia)). lia. }
  lia.
Qed.

Lemma vmnode_new_eager_run npg a f off size s :
  0 ≤ npg ≤ NELEM_page →
  inodes s !! a = Some f →
  0 ≤ off → 0 ≤ size ≤ npg * PGSIZE →
  off + size ≤ Z.of_nat (length (idata f)) → off + size < 2 ^ 64 →
  (0 ∉ freelist s) → npg ≤ Z.of_nat (length (freelist s)) →
  vmnode_new npg EAGER (Some a) off size s =
    Ok (Some (fresh_node s)) (eager_state npg a (idata f) off size s).
Proof.
  intros Hnp Hf Hoff Hsize Hlen Hmax Hz Hfree.
  unfold vmnode_new, new_node, eager_state.
  set (k := Z.to_nat npg). set (c := fresh_node s). set (fl := freelist s).
  set (nd0 := mk_vmnode npg (replicate k 0) 0 EAGER (Some a) off size).
  mrun. fold c.
  replace (NELEM_page <? npg) with false by (symmetry; apply Z.ltb_ge; lia).
  unfold put_node, modify. mrun. case_decide as Hd; [|exfalso; apply Hd; split; congruence].
  fold k. fold nd0. mrun.
  set (s1 := set_nodes _ _).
  assert (Hs1 : s1 = set_nodes <[c := nd0]> s).
  { unfold s1, set_nodes. simpl. rewrite insert_insert_eq. reflexivity. }
  rewrite Hs1. clear s1 Hs1. set (s1 := set_nodes _ s).
  assert (Hc1 : nodes s1 !! c = Some nd0) by apply lookup_insert_eq.
  change (fresh (dom (nodes s))) with c.
  rewrite (allocpg_spec c nd0 s1 Hc1)
    by (simpl; rewrite ?length_replicate; unfold k; lia).
  change (freelist s1) with fl. change (page nd0) with (replicate k 0).
  rewrite (fill_slots_empty k fl Hz) by (unfold k, fl; lia).
  cbv zeta iota beta. change (0 =? 0) with true. unfold assert. mrun.
  set (s2 := alloc_state _ _ _ _ _ _).
  assert (Hc2 : nodes s2 !! c = Some (set_page nd0 (take k fl))) by apply lookup_insert_eq.
  assert (Hlk : length (take k fl) = k).
  { rewrite length_take. unfold k, fl. lia. }
  pose proof (chunks_count size npg Hsize) as (Hm1 & Hm2 & Hm3). cbv zeta in Hm1, Hm2, Hm3.
  unfold demand_load. mrun. rewrite (deref_node_ok _ _ _ Hc2). mrun.
  change (sz (set_page nd0 (take k fl))) with size.
  rewrite (chunk_starts_eq size) by lia.
  rewrite (demand_load_loop_spec c (set_page nd0 (take k fl)) a f _ 0 s2 Hc2 eq_refl).
  - mrun. change (0 =? 0) with true. mrun.
    simpl (page _). rewrite drop_0. reflexivity.
  - exact Hf.
  - simpl. unfold k in *. lia.
  - simpl. apply Forall_take, Forall_forall. intros x Hx ->. exact (Hz Hx).
  - exact Hoff.
  - exact Hlen.
  - exact Hmax.
  - simpl. rewrite Hlk. unfold k. lia.
  - simpl sz. destruct (decide ((size + PGSIZE - 1) / PGSIZE = 0)) as [->|Hne].
    + right. reflexivity.
    + left. lia.
Qed.

Lemma snd_zip_take {A B} (l : list A) (k : list B) :
  (zip l k).*2 = take (length l) k.
Proof.
  revert k. induction l as [|x l IH]; intros [|y k]; simpl; f_equal; auto.
Qed.

Lemma lookup_zero_page (b : nat) :
  (b < Z.to_nat PGSIZE)%nat → zero_page !! b = Some x00.
Proof. intros H. unfold zero_page. apply lookup_replicate_2. exact H. Qed.

(** C9 (amended).  A node constructed with the EAGER policy and a
    non-null backing file is fully populated and loaded when the
    constructor returns: every slot holds a page, and the pages hold the
    [size] bytes of the file from [off] on, followed by zeros. *)
Theorem eager_node_loaded npg a f off size s :
  0 ≤ npg ≤ NELEM_page →
  inodes s !! a = Some f →
  0 ≤ off → 0 ≤ size ≤ npg * PGSIZE →
  off + size ≤ Z.of_nat (length (idata f)) → off + size < 2 ^ 64 →
  (0 ∉ freelist s) → NoDup (freelist s) →
  npg ≤ Z.of_nat (length (freelist s)) →
  ∃ c cn s',
    vmnode_new npg EAGER (Some a) off size s = Ok (Some c) s' ∧
    nodes s' !! c = Some cn ∧
    npages cn = npg ∧ Z.of_nat (length (page cn)) = npg ∧
    ∀ (j : nat) p, page cn !! j = Some p →
      p ≠ 0 ∧
      ∀ b : nat, (b < Z.to_nat PGSIZE)%nat →
        page_bytes s' p !! b =
          if Z.of_nat j * PGSIZE + Z.of_nat b <? size
          then idata f !! Z.to_nat (off + Z.of_nat j * PGSIZE + Z.of_nat b)
          else Some x00.
Proof.
  intros Hnp Hf Hoff Hsize Hlen Hmax Hz Hnodup Hfree.
  pose proof (vmnode_new_eager_run npg a f off size s Hnp Hf Hoff Hsize Hlen Hmax Hz Hfree)
    as Hrun.
  pose proof (chunks_count size npg Hsize) as (Hm1 & Hm2 & Hm3). cbv zeta in Hm1, Hm2, Hm3.
  assert (Hlk : length (take (Z.to_nat npg) (freelist s)) = Z.to_nat npg).
  { rewrite length_take. lia. }
  set (k := Z.to_nat npg) in *. set (fl := freelist s) in *.
  exists (fresh_node s), (mk_vmnode npg (take k fl) 0 EAGER (Some a) off size),
         (eager_state npg a (idata f) off size s).
  split; [exact Hrun|].
  split.
  { unfold eager_state. simpl. rewrite insert_insert_eq. apply lookup_insert_eq. }
  split; [reflexivity|]. split; [simpl; rewrite Hlk; unfold k; lia|].
  intros j p Hp. simpl in Hp.
  assert (Hpk : p ∈ take k fl) by (eapply list_elem_of_lookup_2, Hp).
  assert (Hjk : (j < k)%nat) by (apply lookup_lt_Some in Hp; lia).
  split; [intros ->; apply Hz; eapply subseteq_take, Hpk|].
 intros b Hb. unfold page_bytes, eager_state. simpl. fold k fl.
  assert (Hnd' : NoDup (take k fl)) by (apply (sublist_NoDup _ fl Hnodup), sublist_take).
  set (m := (size + PGSIZE - 1) / PGSIZE) in *.
  assert (HPG : PGSIZE = 4096) by reflexivity.
  assert (Hlen_st : length (chunk_starts size) = Z.to_nat m).
  { unfold chunk_starts. rewrite length_fmap, length_seqZ. reflexivity. }
  destruct (decide (Z.of_nat j < m)) as [Hjm|Hjm].
  - assert (Hst : chunk_starts size !! j = Some (Z.of_nat j * PGSIZE)).
    { unfold chunk_starts. rewrite list_lookup_fmap.
      rewrite lookup_seqZ_lt by (fold m; lia). simpl. reflexivity. }
    rewrite (load_fill_at _ _ _ _ _ j (Z.of_nat j * PGSIZE) p).
    + rewrite (zero_fill_in _ _ _ Hpk). simpl. unfold loaded_page.
      assert (Hin : 0 ≤ Z.of_nat j * PGSIZE < size) by lia.
      pose proof (chunk_len_bounds _ _ Hin) as [Hc1 Hc2].
      set (cl := chunk_len size (Z.of_nat j * PGSIZE)) in *.
      assert (Hcl : Z.of_nat j * PGSIZE + cl = size ∨ cl = PGSIZE).
      { unfold cl, chunk_len.
        destruct (size - Z.of_nat j * PGSIZE <? PGSIZE); lia. }
      assert (Htl : length (take (Z.to_nat cl)
                      (drop (Z.to_nat (off + Z.of_nat j * PGSIZE)) (idata f)))
                    = Z.to_nat cl).
      { rewrite length_take, length_drop. lia. }
      destruct (Z.of_nat j * PGSIZE + Z.of_nat b <? size) eqn:Eb.
      * apply Z.ltb_lt in Eb.
        rewrite lookup_app_l by (rewrite Htl; lia).
        rewrite lookup_take_lt by lia. rewrite lookup_drop. f_equal. clear -Hoff Hin. lia.
      * apply Z.ltb_ge in Eb.
        rewrite lookup_app_r by (rewrite Htl; lia). rewrite Htl, lookup_drop.
        apply lookup_zero_page. lia.
    + rewrite snd_zip_take. apply (sublist_NoDup _ _ Hnd'), sublist_take.
    + rewrite lookup_zip_with, Hst. simpl. rewrite Hp. reflexivity.
  - assert (Hout : p ∉ (zip (chunk_starts size) (take k fl)).*2).
    { intros Hin. apply list_elem_of_fmap in Hin as ([i q] & -> & Hin).
      apply list_elem_of_lookup in Hin as [j' Hj'].
      rewrite lookup_zip_with in Hj'.
      destruct (chunk_starts size !! j') as [i'|] eqn:E1; [|discriminate].
      simpl in Hj'. destruct (take k fl !! j') as [q'|] eqn:E2; [|discriminate].
      injection Hj' as -> ->. simpl in Hp.
      apply lookup_lt_Some in E1. rewrite Hlen_st in E1.
      pose proof (NoDup_lookup _ _ _ _ Hnd' Hp E2). lia. }
    rewrite load_fill_out by exact Hout.
    rewrite (zero_fill_in _ _ _ Hpk). simpl.
    replace (Z.of_nat j * PGSIZE + Z.of_nat b <? size) with false
      by (symmetry; apply Z.ltb_ge; lia).
    apply lookup_zero_page. exact Hb.
Qed.

(** ** C3 and C4: insert and remove *)

Lemma wrap64_small z : 0 ≤ z < 2 ^ 64 → wrap64 z = z.
Proof. intros H. unfold wrap64. apply Z.mod_small. exact H. Qed.

Lemma wrap64_le z : 0 ≤ z → wrap64 z ≤ z.
Proof. intros H. unfold wrap64. apply Z.mod_le; lia. Qed.

Lemma elem_of_span_of l k len r :
  r ∈ span_of l k len ↔ r ∈ l ∧ overlaps k len r = true.
Proof.
  unfold span_of. rewrite list_elem_of_filter.
  rewrite Is_true_true. tauto.
Qed.

Lemma overlaps_spec k len r :
  overlaps k len r = true ↔ vma_start r < k + len ∧ k < vma_end r.
Proof.
  unfold overlaps. rewrite andb_true_iff, !Z.ltb_lt. tauto.
Qed.

(** C3.  [vmap::insert] of a node at [start] fails with -1 and changes
    nothing when a region of the address space overlaps the target range
    [start, start + npages * PGSIZE). *)
Theorem insert_overlap_rejected this a nd mp start dotlb s :
  vmaps s !! this = Some mp →
  nodes s !! a = Some nd →
  node_wf nd →
  (∃ r, r ∈ cr mp ∧
        vma_start r < start + npages nd * PGSIZE ∧ start < vma_end r) →
  insert_vma this (Some a) start dotlb s = Ok (-1) s.
Proof.
  intros Hmp Hnd [Hnp Hlen] (r & Hr & Hov).
  - unfold insert_vma. mrun. rewrite (deref_node_ok _ _ _ Hnd). mrun.
    rewrite (deref_vmap_ok _ _ _ Hmp). mrun.
    rewrite wrap64_small by (unfold NELEM_page, PGSIZE in *; lia).
    assert (Hin : r ∈ span_of (cr mp) start (npages nd * PGSIZE)).
    { apply elem_of_span_of. split; [exact Hr|]. apply overlaps_spec. exact Hov. }
    destruct (span_of (cr mp) start (npages nd * PGSIZE)) as [|x l].
    + inversion Hin.
    + reflexivity.
Qed.

(** C4.  [vmap::remove] fails with -1 and changes nothing when a region
    overlapping [start, start + len) extends outside of it; when it
    succeeds, every region overlapping the range lies inside it. *)
Theorem remove_partial_rejected this mp start len s :
  vmaps s !! this = Some mp →
  0 ≤ start → 0 ≤ len →
  ((∃ r, r ∈ cr mp ∧
         (vma_start r < start + len ∧ start < vma_end r) ∧
         (vma_start r < start ∨ start + len < vma_end r)) →
   remove_vma this start len s = Ok (-1) s) ∧
  (∀ s', remove_vma this start len s = Ok 0 s' →
     ∀ r, r ∈ cr mp → vma_start r < start + len → start < vma_end r →
       start ≤ vma_start r ∧ vma_end r ≤ start + len).
Proof.
  intros Hmp Hstart Hlen.
  pose proof (wrap64_le (start + len) ltac:(lia)) as Hw.
  unfold remove_vma.
  set (cond := λ r, (vma_start r <? start) || (wrap64 (start + len) <? vma_end r)).
  split.
  - intros (r & Hr & Hov & Hout). mrun. rewrite (deref_vmap_ok _ _ _ Hmp). mrun.
    replace (existsb cond (span_of (cr mp) start len)) with true; [reflexivity|].
    symmetry. apply existsb_exists. exists r. split.
    + apply list_elem_of_In, elem_of_span_of. split; [exact Hr|].
      apply overlaps_spec. exact Hov.
    + unfold cond. apply orb_true_iff. rewrite !Z.ltb_lt. lia.
  - intros s'. mrun. rewrite (deref_vmap_ok _ _ _ Hmp). mrun.
    destruct (existsb cond (span_of (cr mp) start len)) eqn:E.
    + rewrite ret_eq. discriminate.
    + intros _ r Hr Hov1 Hov2.
      assert (Hc : cond r = false).
      { destruct (cond r) eqn:Ec; [|reflexivity].
        rewrite <- E. symmetry. apply existsb_exists. exists r. split; [|exact Ec].
        apply list_elem_of_In, elem_of_span_of. split; [exact Hr|].
        apply overlaps_spec. lia. }
      unfold cond in Hc. apply orb_false_iff in Hc as [H1 H2].
      apply Z.ltb_ge in H1, H2. lia.
Qed.

(** ** Bits of a page-table entry *)



Lemma aligned_land x k : page_aligned x → Z.land 4095 k = k → Z.land x k = 0.
Proof.
  unfold page_aligned. intros Hx Hk.
  rewrite <- Hk, Z.land_assoc, Hx. reflexivity.
Qed.

(** The entry installed for a COW region is present and user but not
    writable and not locked. *)
Lemma cow_installed x :
  page_aligned x →
  let v := Z.lor (Z.lor (Z.lor x PTE_P) PTE_U) PTE_COW in
  Z.land v PTE_PUW = 5 ∧ Z.land v PTE_LOCK = 0.
Proof.
  intros Hx. cbv zeta.
  unfold PTE_PUW, PTE_P, PTE_U, PTE_W, PTE_COW, PTE_LOCK.
  change (Z.lor (Z.lor 1 4) 2) with 7.
  rewrite !Z.land_lor_distr_l.
  rewrite (aligned_land x 7 Hx eq_refl), (aligned_land x 512 Hx eq_refl).
  split; reflexivity.
Qed.

Lemma v2p_aligned p : page_aligned p → page_aligned (v2p p).
Proof.
  unfold page_aligned, v2p, wrap64, KBASE. intros H.
  change 4095 with (Z.ones 12) in *. rewrite Z.land_ones in * by lia.
  rewrite Z.mod_mod_divide by (exists (2 ^ 52); reflexivity).
  rewrite Zminus_mod, H. reflexivity.
Qed.

(** ** Well-formed interval indexes *)

Lemma disjointb_spec r1 r2 : disjointb r1 r2 = true ↔ disjoint r1 r2.
Proof.
  unfold disjointb, disjoint. rewrite orb_true_iff, !Z.leb_le. tauto.
Qed.

Lemma disjoint_sym r1 r2 : disjoint r1 r2 → disjoint r2 r1.
Proof. unfold disjoint. tauto. Qed.

Lemma disjoint_ne r1 r2 : range_ok r1 → disjoint r1 r2 → range_ok r2 → r1 ≠ r2.
Proof. unfold range_ok, disjoint. intros H1 Hd H2 ->. lia. Qed.

Lemma cr_ok_wf l : cr_ok l = true → cr_wf l.
Proof.
  induction l as [|r l IH]; simpl.
  - intros _. split; [constructor|]. split; [constructor|].
    intros r1 r2 H. inversion H.
  - rewrite !andb_true_iff, Z.leb_le, Z.ltb_lt, Z.leb_le.
    intros [[[[H0 H1] H2] Hd] Hok].
    destruct (IH Hok) as (Hnd & Hr & Hdis).
    assert (Hrok : range_ok r) by (unfold range_ok; lia).
    assert (Hall : ∀ x, x ∈ l → disjoint r x).
    { intros x Hx. apply disjointb_spec.
      rewrite forallb_forall in Hd. apply Hd, list_elem_of_In, Hx. }
    split; [|split].
    + constructor; [|exact Hnd]. intros Hin.
      apply (disjoint_ne r r Hrok (Hall r Hin) Hrok). reflexivity.
    + constructor; assumption.
    + intros r1 r2 Hr1 Hr2 Hne.
      apply elem_of_cons in Hr1 as [->|Hr1];
        apply elem_of_cons in Hr2 as [->|Hr2].
      * congruence.
      * apply Hall, Hr2.
      * apply disjoint_sym, Hall, Hr1.
      * apply Hdis; assumption.
Qed.

Lemma cr_wf_range l r : cr_wf l → r ∈ l → range_ok r.
Proof. intros (_ & H & _) Hr. exact (proj1 (Forall_forall _ _) H r Hr). Qed.

(** In a well-formed index the span of a query inside the region [m] is
    [m] alone. *)
Lemma span_of_inside l m k len :
  cr_wf l → m ∈ l →
  vma_start m ≤ k → 0 < len → k + len ≤ vma_end m →
  span_of l k len = [m].
Proof.
  intros (Hnd & Hr & Hdis) Hm Hk Hlen Hend. unfold span_of.
  assert (Hone : ∀ x, x ∈ l → overlaps k len x = true → x = m).
  { intros x Hx Hov. apply overlaps_spec in Hov.
    destruct (decide (x = m)) as [->|Hne]; [reflexivity|].
    destruct (Hdis x m Hx Hm Hne) as [H|H]; lia. }
  assert (Hmov : overlaps k len m = true) by (apply overlaps_spec; lia).
  clear Hr Hdis. induction l as [|x l IH]; [inversion Hm|].
  apply NoDup_cons in Hnd as [Hx Hnd].
  apply elem_of_cons in Hm as [<-|Hm].
  - rewrite filter_cons_True by (rewrite Hmov; exact I). f_equal.
    assert (Hnone : ∀ y, y ∈ l → ¬ overlaps k len y).
    { intros y Hy Hov. apply Is_true_true in Hov.
      assert (y = m) by (apply Hone; [apply list_elem_of_further, Hy|exact Hov]).
      subst y. contradiction. }
    clear -Hnone. induction l as [|y l IH]; [reflexivity|].
    rewrite filter_cons_False by (apply Hnone, list_elem_of_here).
    apply IH. intros z Hz. apply Hnone, list_elem_of_further, Hz.
  - rewrite filter_cons_False.
    + apply IH; [exact Hnd|exact Hm|].
      intros y Hy. apply Hone, list_elem_of_further, Hy.
    + intros Hov. apply Is_true_true in Hov.
      assert (x = m) by (apply Hone; [apply list_elem_of_here|exact Hov]).
      subst x. contradiction.
Qed.

(** [vmap::lookup] finds the region that holds the address. *)
Lemma lookup_found this mp m va s :
  vmaps s !! this = Some mp → cr_wf (cr mp) → m ∈ cr mp →
  vma_start m ≤ va < vma_end m →
  lookup this va 1 s = Ok (Some m) s.
Proof.
  intros Hmp Hwf Hm Hva.
  pose proof (cr_wf_range _ _ Hwf Hm) as (H0 & H1 & H2). unfold USERTOP in H2.
  unfold lookup.
  rewrite wrap64_small by lia.
  replace (va + 1 <? va) with false by (symmetry; apply Z.ltb_ge; lia).
  mrun. rewrite (deref_vmap_ok _ _ _ Hmp). mrun.
  rewrite (span_of_inside _ m va 1 Hwf Hm) by lia. cbn [head].
  replace (vma_end m <=? vma_start m) with false by (symmetry; apply Z.leb_gt; lia).
  replace (vma_start m <? va + 1) with true by (symmetry; apply Z.ltb_lt; lia).
  replace (va <? vma_end m) with true by (symmetry; apply Z.ltb_lt; lia).
  reflexivity.
Qed.

(** ** Stepping through pagefault *)

Lemma pte_load_eq this mp k s :
  vmaps s !! this = Some mp →
  pte_load this k s = Ok (default 0 (pml4 mp !! k)) s.
Proof.
  intros H. unfold pte_load. mrun. rewrite (deref_vmap_ok _ _ _ H). reflexivity.
Qed.

(** Past the fast-accept and lock tests and the lookup. *)
Lemma pagefault_retry_found fuel this va err s mp m :
  vmaps s !! this = Some mp →
  Z.land (pte_of mp va) PTE_PUW ≠ PTE_PUW →
  Z.land (pte_of mp va) PTE_LOCK = 0 →
  lookup this va 1 s = Ok (Some m) s →
  pagefault_retry (S fuel) this va err (walkpgdir va) s =
    (pagefault_fill m (page_index m va);;
     if bool_decide (va_type m = COW) && negb (Z.land err FEC_WR =? 0) then
       r ← pagefault_wcow this m;
       if r <? 0 then mret (-1)
       else tlbflush;; pagefault_retry fuel this va err (walkpgdir va)
     else
       r ← pagefault_install this (walkpgdir va) (pte_of mp va) m (page_index m va);
       match r with
       | Some v => mret v
       | None => pagefault_retry fuel this va err (walkpgdir va)
       end) s.
Proof.
  intros Hmp Hfast Hlock Hlook. cbn [pagefault_retry]. mrun.
  rewrite (pte_load_eq _ _ _ _ Hmp). mrun. fold (pte_of mp va).
  replace (Z.land (pte_of mp va) PTE_PUW =? PTE_PUW) with false
    by (symmetry; apply Z.eqb_neq; exact Hfast).
  rewrite Hlock. change (negb (0 =? 0)) with false. mrun.
  rewrite Hlook. reflexivity.
Qed.

Lemma fill_slots_short pg : ∀ fl,
  (length fl < length (filter (λ c : Z, c = 0%Z) pg))%nat →
  (fill_slots pg fl).2 = false.
Proof.
  induction pg as [|c0 pg IH]; intros fl Hlen; simpl in *; [lia|].
  destruct (negb (c0 =? 0)) eqn:Ec.
  - apply negb_true_iff, Z.eqb_neq in Ec.
    rewrite filter_cons_False in Hlen by exact Ec.
    specialize (IH fl Hlen).
    destruct (fill_slots pg fl) as [[[a b] d] e]. exact IH.
  - apply negb_false_iff, Z.eqb_eq in Ec. subst c0.
    rewrite filter_cons_True in Hlen by reflexivity. simpl in Hlen.
    destruct fl as [|q fl1]; [reflexivity|].
    destruct (q =? 0); [reflexivity|].
    simpl in Hlen. specialize (IH fl1 ltac:(lia)).
    destruct (fill_slots pg fl1) as [[[a b] d] e]. exact IH.
Qed.

Lemma filter_empty_slots (k : nat) :
  filter (λ c : Z, c = 0) (replicate k 0) = replicate k 0.
Proof.
  induction k as [|k IH]; [reflexivity|]. simpl.
  rewrite filter_cons_True by reflexivity. f_equal. exact IH.
Qed.

Lemma free_pages_ok pg : ∀ s, ∃ s', free_pages pg s = Ok tt s'.
Proof.
  induction pg as [|p pg IH]; intros s; simpl.
  - eexists. reflexivity.
  - mrun. destruct (negb (p =? 0)).
    + unfold kfree, modify. mrun. apply IH.
    + mrun. apply IH.
Qed.

Lemma vmnode_delete_ok c nd s :
  nodes s !! c = Some nd → ∃ s', vmnode_delete c s = Ok tt s'.
Proof.
  intros H. unfold vmnode_delete. mrun. rewrite (deref_node_ok _ _ _ H). mrun.
  destruct (free_pages_ok (take (Z.to_nat (npages nd)) (page nd)) s) as [s1 ->]. mrun.
  case_decide.
  - unfold iput. destruct (ip nd); unfold modify; mrun; eexists; reflexivity.
  - unfold modify. mrun. eexists. reflexivity.
Qed.

(** [pagefault_fill] when the page is resident and nothing is to load. *)
Lemma pagefault_fill_resident m npg a nd p s :
  n m = Some a → nodes s !! a = Some nd →
  0 ≤ npg < npages nd → page nd !! Z.to_nat npg = Some p → p ≠ 0 →
  type nd ≠ ONDEMAND →
  pagefault_fill m npg s = Ok tt s.
Proof.
  intros Hn Hnd Hnpg Hp Hp0 Hty. unfold pagefault_fill. rewrite Hn. mrun.
  rewrite (deref_node_ok _ _ _ Hnd). mrun.
  replace npg with (Z.of_nat (Z.to_nat npg)) at 1 by lia.
  rewrite (slot_ok _ _ _ Hp) by lia. mrun.
  replace (p =? 0) with false by (symmetry; apply Z.eqb_neq; exact Hp0). mrun.
  rewrite (deref_node_ok _ _ _ Hnd). mrun.
  case_decide; [contradiction|]. reflexivity.
Qed.

(** [pagefault_fill] when the slot is empty and the allocator runs out. *)
Lemma pagefault_fill_exhausted m npg a nd s :
  n m = Some a → nodes s !! a = Some nd → node_wf nd →
  0 ≤ npg < npages nd → page nd !! Z.to_nat npg = Some 0 →
  (length (freelist s) < length (filter (λ c : Z, c = 0%Z) (page nd)))%nat →
  pagefault_fill m npg s = Halt (Panic "pagefault: couldn't allocate pages").
Proof.
  intros Hn Hnd [Hnp Hlen] Hnpg Hp Hshort. unfold pagefault_fill. rewrite Hn. mrun.
  rewrite (deref_node_ok _ _ _ Hnd). mrun.
  replace npg with (Z.of_nat (Z.to_nat npg)) at 1 by lia.
  rewrite (slot_ok _ _ _ Hp) by lia. mrun. change (0 =? 0) with true. mrun.
  rewrite (allocpg_spec a nd s Hnd Hlen) by lia.
  pose proof (fill_slots_short _ _ Hshort) as Hok.
  destruct (fill_slots (page nd) (freelist s)) as [[[pg' used] fl'] ok].
  simpl in Hok. subst ok. reflexivity.
Qed.

(** [vmnode::copy] when the allocator cannot populate the duplicate. *)
Lemma vmnode_copy_exhausted this nd s p0 :
  nodes s !! this = Some nd → node_wf nd →
  page nd !! 0%nat = Some p0 → p0 ≠ 0 →
  Z.of_nat (length (freelist s)) < npages nd →
  ∃ s', vmnode_copy this s = Ok None s'.
Proof.
  intros Hnd Hwf H0 Hp0 Hshort. pose proof Hwf as [Hnp Hlen].
  rewrite (vmnode_copy_start this nd s Hnd Hwf). cbv zeta. mrun.
  rewrite (slot_ok nd 0%nat p0 H0) by (apply lookup_lt_Some in H0; simpl; lia). mrun.
  replace (p0 =? 0) with false by (symmetry; apply Z.eqb_neq; exact Hp0).
  set (s1 := set_nodes _ _). mrun.
  assert (Hc1 : nodes s1 !! fresh_node s = Some (empty_dup nd))
    by apply lookup_insert_eq.
  rewrite (allocpg_spec _ (empty_dup nd) s1 Hc1)
    by (simpl; rewrite ?length_replicate; lia).
  assert (Hok : (fill_slots (page (empty_dup nd)) (freelist s1)).2 = false).
  { apply fill_slots_short. unfold s1. simpl. rewrite after_idup_freelist.
    rewrite filter_empty_slots, length_replicate. lia. }
  destruct (fill_slots (page (empty_dup nd)) (freelist s1)) as [[[pg' used] fl'] ok].
  simpl in Hok. subst ok. cbv beta iota zeta. change (-1 <? 0) with true. mrun.
  set (s2 := alloc_state _ _ _ _ _ _).
  destruct (vmnode_delete_ok (fresh_node s) (set_page (empty_dup nd) pg') s2) as [s3 Hs3].
  { apply lookup_insert_eq. }
  rewrite Hs3. mrun. eexists. reflexivity.
Qed.

(** ** The example fork state is reached by running the model *)

Lemma ex_fork_state_reached :
  ex_fork_prog ex_boot1 = Ok (Some 1%positive, Some 2%positive) ex_fork_state.
Proof. vm_compute. reflexivity. Qed.

(** ** Frames of the steps of pagefault *)

Lemma lookup_inv this va len r s s' :
  lookup this va len s = Ok r s' →
  s' = s ∧ ∃ mp, vmaps s !! this = Some mp ∧
    match r with Some m => m ∈ cr mp | None => True end.
Proof.
  unfold lookup. destruct (wrap64 (va + len) <? va); [discriminate|].
  mrun. destruct (deref_vmap this s) as [mp s1|] eqn:E; [|discriminate].
  apply deref_vmap_inv in E as [-> Hmp]. mrun.
  destruct (head (span_of (cr mp) va len)) as [e|] eqn:Eh.
  - assert (He : e ∈ cr mp).
    { apply head_Some_elem_of in Eh. apply elem_of_span_of in Eh. tauto. }
    destruct (vma_end e <=? vma_start e); [discriminate|].
    destruct ((vma_start e <? wrap64 (va + len)) && (va <? vma_end e));
      rewrite ret_eq; intros [= <- <-]; eauto.
  - rewrite ret_eq. intros [= <- <-]. eauto.
Qed.


Lemma same_but_mem_refl s : same_but_mem s s.
Proof. repeat split. Qed.

Lemma same_but_mem_trans s1 s2 s3 :
  same_but_mem s1 s2 → same_but_mem s2 s3 → same_but_mem s1 s3.
Proof.
  intros (A1 & A2 & A3 & A4 & A5) (B1 & B2 & B3 & B4 & B5).
  repeat split; congruence.
Qed.

Lemma readi_replay i p off cnt s r s' t :
  readi i p off cnt s = Ok r s' →
  inodes t = inodes s →
  same_but_mem s s' ∧ ∃ t', readi i p off cnt t = Ok r t' ∧ same_but_mem t t'.
Proof.
  unfold readi. destruct i as [a|]; [|discriminate]. unfold get. mrun.
  intros H Hi. rewrite Hi.
  destruct (inodes s !! a) as [f|]; [|discriminate].
  destruct ((Z.of_nat (length (idata f)) <? off) || (2 ^ 64 <=? off + cnt)).
  - rewrite ret_eq in *. injection H as <- <-.
    split; [apply same_but_mem_refl|]. eexists. split; [reflexivity|apply same_but_mem_refl].
  - destruct (p =? 0); [discriminate|]. unfold modify in *.
    rewrite !bind_eq, !ret_eq in *. injection H as <- <-.
    split; [repeat split|]. eexists. split; [reflexivity|repeat split].
Qed.

Lemma demand_load_loop_replay this idx : ∀ s r s' t,
  demand_load_loop this idx s = Ok r s' →
  nodes t = nodes s → inodes t = inodes s →
  same_but_mem s s' ∧
  ∃ t', demand_load_loop this idx t = Ok r t' ∧ same_but_mem t t'.
Proof.
  induction idx as [|i idx IH]; intros s r s' t H Hn Hi.
  - simpl in *. rewrite ret_eq in *. injection H as <- <-.
    split; [apply same_but_mem_refl|]. eexists.
    split; [reflexivity|apply same_but_mem_refl].
  - cbn [demand_load_loop] in *. unfold demand_load_chunk in *.
    rewrite !bind_eq in *.
    destruct (deref_node (Some this) s) as [nd s0|] eqn:E; [|discriminate].
    apply deref_node_inv in E as [-> (a & [= <-] & Hnd)].
    rewrite (deref_node_ok t this nd) by (rewrite Hn; exact Hnd).
    cbv beta iota in *. rewrite !bind_eq in *.
    destruct (slot nd (i / PGSIZE) s) as [p s0|] eqn:E; [|discriminate].
    apply slot_inv in E as [-> [Hi1 Hp]].
    assert (Hst : slot nd (i / PGSIZE) t = Ok p t).
    { replace (i / PGSIZE) with (Z.of_nat (Z.to_nat (i / PGSIZE))) by lia.
      apply slot_ok; [exact Hp|lia]. }
    rewrite Hst. cbv beta iota in *. rewrite !bind_eq in *.
    set (cnt := if sz nd - i <? PGSIZE then sz nd - i else PGSIZE) in *.
    destruct (readi (ip nd) p (wrap64 (offset nd + i)) cnt s) as [k s1|] eqn:E;
      [|discriminate].
    destruct (readi_replay _ _ _ _ _ _ _ t E Hi) as [Hs1 (t1 & Ht1 & Htt1)].
    rewrite Ht1. cbv beta iota in *.
    destruct (negb (k =? cnt)).
    + rewrite ?ret_eq in *. cbv beta iota in *. rewrite ?ret_eq in *.
      injection H as <- <-. split; [exact Hs1|]. eexists. split; [reflexivity|exact Htt1].
    + rewrite ?ret_eq in *. cbv beta iota in *.
      destruct Hs1 as (A1 & A2 & A3 & A4 & A5).
      destruct Htt1 as (B1 & B2 & B3 & B4 & B5).
      destruct (IH s1 r s' t1 H) as [Hs (t' & Ht' & Htt')]; [congruence..|].
      split.
      * eapply same_but_mem_trans; [|exact Hs]. repeat split; assumption.
      * exists t'. split; [exact Ht'|].
        eapply same_but_mem_trans; [|exact Htt']. repeat split; assumption.
Qed.

Lemma demand_load_replay this s r s' t :
  demand_load this s = Ok r s' →
  nodes t = nodes s → inodes t = inodes s →
  same_but_mem s s' ∧ ∃ t', demand_load this t = Ok r t' ∧ same_but_mem t t'.
Proof.
  unfold demand_load. rewrite !bind_eq. intros H Hn Hi.
  destruct (deref_node (Some this) s) as [nd s0|] eqn:E; [|discriminate].
  apply deref_node_inv in E as [-> (a & [= <-] & Hnd)].
  rewrite (deref_node_ok t this nd) by (rewrite Hn; exact Hnd).
  eapply demand_load_loop_replay; eassumption.
Qed.

Lemma slot_eq nd i p s :
  0 ≤ i < npages nd → page nd !! Z.to_nat i = Some p → slot nd i s = Ok p s.
Proof.
  intros Hi Hp. rewrite <- (Z2Nat.id i) at 1 by lia. apply slot_ok; [exact Hp|lia].
Qed.

Lemma deleted_eq this a mp s :
  vmaps s !! this = Some mp → deleted this a s = Ok (bool_decide (a ∉ cr mp)) s.
Proof.
  intros H. unfold deleted. mrun. rewrite (deref_vmap_ok _ _ _ H). reflexivity.
Qed.

(** The install step, against the entry value just read: the
    compare-and-swap succeeds, the region is still in the index. *)
Lemma pagefault_install_inv this k m npg s mp r s' :
  vmaps s !! this = Some mp → m ∈ cr mp →
  pagefault_install this k (default 0 (pml4 mp !! k)) m npg s = Ok r s' →
  ∃ a nd p,
    n m = Some a ∧ nodes s !! a = Some nd ∧
    0 ≤ npg < npages nd ∧ page nd !! Z.to_nat npg = Some p ∧
    (va_type m ≠ COW → ref nd = 1) ∧
    r = Some 1 ∧ s' = set_pte this mp k (installed_pte m p) s.
Proof.
  intros Hmp Hm. unfold pagefault_install, cmpxch_pte. mrun.
  rewrite (pte_load_eq _ _ _ _ Hmp). mrun. rewrite Z.eqb_refl. mrun.
  unfold pte_store at 1. mrun. rewrite (deref_vmap_ok _ _ _ Hmp). mrun.
  unfold put_vmap, modify. mrun. cbn [negb]. mrun.
  set (sL := set_vmaps _ s).
  assert (HmpL : vmaps sL !! this =
                 Some (set_pml4 mp (<[k := Z.lor (default 0 (pml4 mp !! k)) PTE_LOCK]>
                                      (pml4 mp)))) by apply lookup_insert_eq.
  rewrite (deleted_eq _ _ _ _ HmpL).
  rewrite bool_decide_eq_false_2 by (simpl; intros H; exact (H Hm)). mrun.
  destruct (deref_node (n m) sL) as [nd s0|] eqn:E; [|discriminate].
  apply deref_node_inv in E as [-> (a & Hn & Hnd)]. mrun.
  destruct (slot nd npg sL) as [p s0|] eqn:E; [|discriminate].
  apply slot_inv in E as [-> [Hidx Hp]]. mrun.
  assert (Hfin : ∀ v, pte_store this k v sL = Ok tt (set_pte this mp k v s)).
  { intros v. unfold pte_store. mrun. rewrite (deref_vmap_ok _ _ _ HmpL). mrun.
    unfold put_vmap, modify, set_pte, sL, set_vmaps, set_pml4. simpl.
    rewrite !insert_insert_eq. reflexivity. }
  unfold installed_pte.
  destruct (bool_decide (va_type m = COW)) eqn:Ecow.
  - mrun. rewrite Hfin. mrun. intros [= <- <-].
    exists a, nd, p. apply bool_decide_eq_true in Ecow.
    repeat split; try assumption; try lia. intros H; contradiction.
  - unfold assert. destruct (ref nd =? 1) eqn:Eref; mrun; [|discriminate].
    rewrite Hfin. mrun. intros [= <- <-].
    exists a, nd, p. apply Z.eqb_eq in Eref.
    repeat split; try assumption; lia.
Qed.

Lemma pagefault_install_eq this k m npg s mp a nd p :
  vmaps s !! this = Some mp → m ∈ cr mp →
  n m = Some a → nodes s !! a = Some nd →
  0 ≤ npg < npages nd → page nd !! Z.to_nat npg = Some p →
  (va_type m ≠ COW → ref nd = 1) →
  pagefault_install this k (default 0 (pml4 mp !! k)) m npg s =
    Ok (Some 1) (set_pte this mp k (installed_pte m p) s).
Proof.
  intros Hmp Hm Hn Hnd Hidx Hp Href.
  unfold pagefault_install, cmpxch_pte. mrun.
  rewrite (pte_load_eq _ _ _ _ Hmp). mrun. rewrite Z.eqb_refl. mrun.
  unfold pte_store at 1. mrun. rewrite (deref_vmap_ok _ _ _ Hmp). mrun.
  unfold put_vmap, modify. mrun. cbn [negb]. mrun.
  set (sL := set_vmaps _ s).
  assert (HmpL : vmaps sL !! this =
                 Some (set_pml4 mp (<[k := Z.lor (default 0 (pml4 mp !! k)) PTE_LOCK]>
                                      (pml4 mp)))) by apply lookup_insert_eq.
  rewrite (deleted_eq _ _ _ _ HmpL).
  rewrite bool_decide_eq_false_2 by (simpl; intros H; exact (H Hm)). mrun.
  rewrite Hn, (deref_node_ok sL a nd) by exact Hnd. mrun.
  rewrite (slot_eq _ _ _ _ Hidx Hp). mrun.
  assert (Hfin : ∀ v, pte_store this k v sL = Ok tt (set_pte this mp k v s)).
  { intros v. unfold pte_store. mrun. rewrite (deref_vmap_ok _ _ _ HmpL). mrun.
    unfold put_vmap, modify, set_pte, sL, set_vmaps, set_pml4. simpl.
    rewrite !insert_insert_eq. reflexivity. }
  unfold installed_pte, assert.
  destruct (bool_decide (va_type m = COW)) eqn:Ecow; mrun.
  - rewrite Hfin. reflexivity.
  - apply bool_decide_eq_false in Ecow. rewrite (Href Ecow). simpl. mrun.
    rewrite Hfin. reflexivity.
Qed.


(** ** C5: the same non-writing fault, twice *)



(** ** Reference counts and region replacement *)

Lemma vmnode_incref_inv a s s' :
  vmnode_incref a s = Ok tt s' →
  ∃ nd, nodes s !! a = Some nd ∧ s' = bump_ref a nd 1 s.
Proof.
  unfold vmnode_incref. mrun.
  destruct (deref_node (Some a) s) as [nd s0|] eqn:E; [|discriminate].
  apply deref_node_inv in E as [-> (a' & [= <-] & Hnd)]. mrun.
  unfold put_node, modify. intros [= <-]. eauto.
Qed.

Lemma vma_new_inv st en ty vmn s r s' :
  vma_new st en ty vmn s = Ok r s' →
  r = Some (mk_vma st en ty vmn) ∧
  match vmn with
  | None => s' = s
  | Some a => ∃ nd, nodes s !! a = Some nd ∧ s' = bump_ref a nd 1 s
  end.
Proof.
  unfold vma_new. mrun. destruct vmn as [a|].
  - destruct (vmnode_incref a s) as [[] s1|] eqn:E; [|discriminate].
    apply vmnode_incref_inv in E as (nd & Hnd & ->). mrun. intros [= <- <-]. eauto.
  - mrun. intros [= <- <-]. auto.
Qed.

Lemma vmnode_decref_keep a nd s :
  nodes s !! a = Some nd → wrap64 (ref nd - 1) ≠ 0 →
  vmnode_decref a s = Ok tt (bump_ref a nd (-1) s).
Proof.
  intros Hnd Hr. unfold vmnode_decref. mrun. rewrite (deref_node_ok _ _ _ Hnd). mrun.
  unfold put_node, modify. mrun.
  replace (wrap64 (ref nd - 1) =? 0) with false by (symmetry; apply Z.eqb_neq; exact Hr).
  reflexivity.
Qed.

Lemma cr_insert_perm v l : cr_insert v l ≡ₚ v :: l.
Proof.
  induction l as [|x l IH]; simpl; [reflexivity|].
  destruct (vma_start v <? vma_start x); [reflexivity|].
  rewrite IH. apply Permutation_swap.
Qed.

Lemma elem_of_cr_insert x v l : x ∈ cr_insert v l ↔ x = v ∨ x ∈ l.
Proof. rewrite cr_insert_perm. apply elem_of_cons. Qed.

Lemma span_replace_eq this k len b mp s :
  vmaps s !! this = Some mp →
  span_replace this k len b s =
    vma_delete_all (span_of (cr mp) k len)
      (set_vmaps <[this := set_cr mp (match b with
                                      | Some v => cr_insert v (outside k len (cr mp))
                                      | None => outside k len (cr mp)
                                      end)]> s).
Proof.
  intros H. unfold span_replace. mrun. rewrite (deref_vmap_ok _ _ _ H). mrun.
  unfold put_vmap, modify. mrun. reflexivity.
Qed.

Lemma outside_all k len l :
  Forall (λ r, overlaps k len r = false) l → outside k len l = l.
Proof.
  unfold outside. induction 1 as [|x l Hx Hl IH]; [reflexivity|].
  rewrite filter_cons_True by (rewrite Hx; simpl; auto). f_equal. exact IH.
Qed.

Lemma span_of_none k len l :
  Forall (λ r, overlaps k len r = false) l → span_of l k len = [].
Proof.
  unfold span_of. induction 1 as [|x l Hx Hl IH]; [reflexivity|].
  rewrite filter_cons_False by (rewrite Hx; simpl; auto). exact IH.
Qed.

Lemma span_of_nil_inv k len l :
  span_of l k len = [] → Forall (λ r, overlaps k len r = false) l.
Proof.
  intros H. apply Forall_forall. intros x Hx.
  destruct (overlaps k len x) eqn:E; [|reflexivity].
  assert (Hin : x ∈ span_of l k len) by (apply elem_of_span_of; auto).
  rewrite H in Hin. inversion Hin.
Qed.

(** The range of a region as [replace_vma] passes it to the index. *)
Lemma overlaps_self e :
  range_ok e →
  overlaps (vma_start e) (wrap64 (vma_end e - vma_start e)) e = true.
Proof.
  intros (H0 & H1 & H2). unfold USERTOP in H2.
  rewrite wrap64_small by lia. apply overlaps_spec. lia.
Qed.

Lemma overlaps_disjoint e x :
  range_ok e → disjoint e x → range_ok x →
  overlaps (vma_start e) (wrap64 (vma_end e - vma_start e)) x = false.
Proof.
  intros (H0 & H1 & H2) Hd (H3 & H4 & H5). unfold USERTOP in H2.
  rewrite wrap64_small by lia. unfold overlaps, disjoint in *.
  apply andb_false_iff. rewrite !Z.ltb_ge. lia.
Qed.

(** In a list whose other members are disjoint from [e], the span over
    the range of [e] is [e] alone and leaves the others. *)
Lemma span_of_member l1 l2 e :
  range_ok e →
  Forall (λ x, range_ok x ∧ disjoint e x) (l1 ++ l2) →
  span_of (l1 ++ e :: l2) (vma_start e) (wrap64 (vma_end e - vma_start e)) = [e] ∧
  outside (vma_start e) (wrap64 (vma_end e - vma_start e)) (l1 ++ e :: l2) = l1 ++ l2.
Proof.
  intros He Hall. apply Forall_app in Hall as [Hl1 Hl2].
  assert (Hno : ∀ l, Forall (λ x, range_ok x ∧ disjoint e x) l →
            Forall (λ r, overlaps (vma_start e) (wrap64 (vma_end e - vma_start e)) r
                         = false) l).
  { intros l Hl. eapply Forall_impl; [exact Hl|].
    intros x [Hx Hd]. apply overlaps_disjoint; assumption. }
  pose proof (overlaps_self e He) as Hself.
  unfold span_of, outside. rewrite !filter_app.
  fold (span_of l1 (vma_start e) (wrap64 (vma_end e - vma_start e))).
  fold (outside (vma_start e) (wrap64 (vma_end e - vma_start e)) l1).
  rewrite (span_of_none _ _ _ (Hno _ Hl1)), (outside_all _ _ _ (Hno _ Hl1)).
  rewrite filter_cons_True by (rewrite Hself; exact I).
  rewrite filter_cons_False by (rewrite Hself; simpl; auto).
  fold (span_of l2 (vma_start e) (wrap64 (vma_end e - vma_start e))).
  fold (outside (vma_start e) (wrap64 (vma_end e - vma_start e)) l2).
  rewrite (span_of_none _ _ _ (Hno _ Hl2)), (outside_all _ _ _ (Hno _ Hl2)).
  split; reflexivity.
Qed.

Lemma updatepages_inv this b e cb s r s' :
  updatepages this b e cb s = Ok r s' →
  ∃ mp pt, vmaps s !! this = Some mp ∧
    s' = set_vmaps <[this := set_pml4 mp pt]> s ∧
    ∀ k, match pml4 mp !! k with
         | Some v => ∃ v', pt !! k = Some v' ∧
                           (v' = v ∨ ∃ fl, cb v = Some (v', fl))
         | None => pt !! k = None
         end.
Proof.
  unfold updatepages. mrun.
  destruct (deref_vmap this s) as [mp s0|] eqn:E; [|discriminate].
  apply deref_vmap_inv in E as [-> Hmp]. mrun.
  destruct (forallb _ _); [|discriminate].
  unfold put_vmap, modify. mrun. intros [= <- <-].
  eexists mp, _. split; [exact Hmp|]. split; [reflexivity|].
  intros k. rewrite map_lookup_imap.
  destruct (pml4 mp !! k) as [v|]; [|reflexivity]. simpl.
  destruct (in_pages b e k); [|eauto].
  destruct (cb v) as [[v' fl]|]; simpl; eauto.
Qed.

(** ** C2: fork with sharing *)

Lemma refs_in_app l1 l2 a : refs_in (l1 ++ l2) a = refs_in l1 a + refs_in l2 a.
Proof. unfold refs_in. rewrite filter_app, length_app. lia. Qed.

Lemma refs_in_perm l1 l2 a : l1 ≡ₚ l2 → refs_in l1 a = refs_in l2 a.
Proof. intros H. unfold refs_in. rewrite H. reflexivity. Qed.

Lemma refs_in_to_cow l a : refs_in (to_cow <$> l) a = refs_in l a.
Proof.
  unfold refs_in. f_equal. induction l as [|x l IH]; [reflexivity|]. simpl.
  destruct (decide (n x = Some a)) as [H|H].
  - rewrite !filter_cons_True by exact H. simpl. f_equal. exact IH.
  - rewrite !filter_cons_False by exact H. exact IH.
Qed.

Lemma refs_in_bounds l a : 0 ≤ refs_in l a ≤ Z.of_nat (length l).
Proof. unfold refs_in. pose proof (length_filter (λ r, n r = Some a) l). lia. Qed.

Lemma refs_in_one e a : refs_in [e] a = if decide (n e = Some a) then 1 else 0.
Proof.
  unfold refs_in. case_decide.
  - rewrite filter_cons_True by assumption. reflexivity.
  - rewrite filter_cons_False by assumption. reflexivity.
Qed.

Lemma to_cow_cow e : va_type e = COW → to_cow e = e.
Proof. destruct e as [a b t c]. simpl. intros ->. reflexivity. Qed.

Lemma set_ref_set_ref nd x y : set_ref (set_ref nd x) y = set_ref nd y.
Proof. reflexivity. Qed.

Lemma disjoint_to_cow e x : disjoint e x → disjoint e (to_cow x).
Proof. unfold disjoint. simpl. tauto. Qed.

Lemma range_ok_to_cow x : range_ok x → range_ok (to_cow x).
Proof. unfold range_ok. simpl. tauto. Qed.

Lemma seq_ret_inv {A B} (m : M A) (x : B) s r s' :
  (m ≫= λ _, mret x) s = Ok r s' → r = x ∧ ∃ a, m s = Ok a s'.
Proof.
  rewrite bind_eq. destruct (m s) as [a s1|]; [|discriminate].
  rewrite ret_eq. intros [= <- <-]. eauto.
Qed.

Section copy_share.

Variables (this nm : positive) (s0 : kstate) (cr0 : list vma).

Hypothesis Hne : nm ≠ this.

Hypothesis Hwf : cr_wf cr0.

Hypothesis Hbound : ∀ a nd, nodes s0 !! a = Some nd →
  0 ≤ ref nd ∧ ref nd + Z.of_nat (length cr0) + 1 < 2 ^ 64.

Lemma others_disjoint done e rest :
  cr0 = done ++ e :: rest →
  range_ok e ∧
  Forall (λ x, range_ok x ∧ disjoint e x) ((to_cow <$> done) ++ rest).
Proof.
  intros Hcr. destruct Hwf as (Hnd & Hr & Hdis). rewrite Hcr in *.
  assert (He : e ∈ done ++ e :: rest) by (apply elem_of_app; right; apply list_elem_of_here).
  split; [exact (proj1 (Forall_forall _ _) Hr e He)|].
  apply NoDup_app in Hnd as (Hnd1 & Hnd2 & Hnd3).
  apply NoDup_cons in Hnd3 as [Hnd3 Hnd4].
  apply Forall_app. split.
  - apply Forall_fmap, Forall_forall. intros d Hd. simpl.
    assert (Hdin : d ∈ done ++ e :: rest) by (apply elem_of_app; auto).
    split; [apply range_ok_to_cow, (proj1 (Forall_forall _ _) Hr d Hdin)|].
    apply disjoint_to_cow, Hdis; [exact He|exact Hdin|].
    intros ->. apply (Hnd2 d Hd), list_elem_of_here.
  - apply Forall_forall. intros x Hx.
    assert (Hxin : x ∈ done ++ e :: rest)
      by (apply elem_of_app; right; apply list_elem_of_further, Hx).
    split; [exact (proj1 (Forall_forall _ _) Hr x Hxin)|].
    apply Hdis; [exact He|exact Hxin|]. intros ->. contradiction.
Qed.

(** The node of [a] while region [e] is being mirrored: its count is in
    range, so the increments and the decrement do not wrap. *)
Lemma ref_in_range done e rest a nd :
  cr0 = done ++ e :: rest → nodes s0 !! a = Some nd →
  0 ≤ ref nd + refs_in done a ∧ ref nd + refs_in done a + 2 < 2 ^ 64.
Proof.
  intros Hcr Hnd. destruct (Hbound a nd Hnd) as [H1 H2].
  pose proof (refs_in_bounds done a). rewrite Hcr, length_app in H2. simpl in H2. lia.
Qed.

(** The source side of one turn of the loop: the new region of the child
    is built, and the region of the source is made COW. *)
Lemma copy_region_source done e rest s r s' :
  cr0 = done ++ e :: rest →
  copy_inv this nm s0 done (e :: rest) s →
  (ne ← vma_new (vma_start e) (vma_end e) COW (n e);
   (if decide (va_type e ≠ COW) then
      repl ← vma_new (vma_start e) (vma_end e) COW (n e);
      replace_vma this e repl;;
      updatepages this (vma_start e) (vma_end e) downgrade_cb;;
      mret tt
    else mret tt);;
   mret ne) s = Ok r s' →
  r = Some (to_cow e) ∧
  (n e = None ∨
   (∃ a, n e = Some a ∧ is_Some (nodes s0 !! a)) ∧
   (∃ mp, vmaps s' !! this = Some mp ∧ cr mp ≡ₚ (to_cow <$> (done ++ [e])) ++ rest) ∧
   vmaps s' !! nm = vmaps s !! nm ∧
   (∀ a, nodes s' !! a =
         (λ nd, set_ref nd (ref nd + refs_in (done ++ [e]) a)) <$> (nodes s0 !! a))).
Proof.
  intros Hcr ((mp & Hmp & Hperm) & _ & Hnodes & _).
  rewrite bind_eq.
  destruct (vma_new (vma_start e) (vma_end e) COW (n e) s) as [ne s1|] eqn:E1;
    [|discriminate].
  apply vma_new_inv in E1. fold (to_cow e) in E1. destruct E1 as [-> Hs1].
  destruct (n e) as [a|] eqn:Hn.
  2:{ subst s1. intros H. apply seq_ret_inv in H as [-> _]. auto. }
  destruct Hs1 as (ndi & Hndi & ->).
  pose proof (Hnodes a) as Ha. rewrite Hndi in Ha.
  destruct (nodes s0 !! a) as [nd0|] eqn:Hnd0; [|discriminate].
  simpl in Ha. injection Ha as ->.
  destruct (ref_in_range done e rest a nd0 Hcr Hnd0) as [Hr1 Hr2].
  destruct (others_disjoint done e rest Hcr) as [Hre Hdisj].
  (* the count of every node after the turn *)
  assert (Hcount : ∀ s2, nodes s2 = <[a := set_ref nd0 (ref nd0 + refs_in done a + 1)]>
                                      (nodes s) →
    ∀ b, nodes s2 !! b =
         (λ nd, set_ref nd (ref nd + refs_in (done ++ [e]) b)) <$> (nodes s0 !! b)).
  { intros s2 Hs2 b. rewrite Hs2, refs_in_app, refs_in_one, Hn.
    destruct (decide (a = b)) as [<-|Hab].
    - rewrite lookup_insert_eq, Hnd0. simpl. rewrite decide_True by reflexivity.
      do 2 f_equal. lia.
    - rewrite lookup_insert_ne by exact Hab. rewrite Hnodes.
      rewrite decide_False by congruence. rewrite Z.add_0_r. reflexivity. }
  rewrite bind_eq. case_decide as Hty.
  - (* the source region was not COW: it is replaced *)
    rewrite bind_eq.
    set (nd1 := set_ref (set_ref nd0 (ref nd0 + refs_in done a))
                        (wrap64 (ref (set_ref nd0 (ref nd0 + refs_in done a)) + 1))).
    set (s1 := bump_ref a _ 1 s).
    destruct (vma_new (vma_start e) (vma_end e) COW (Some a) s1) as [repl s2|] eqn:E2;
      [|discriminate].
    apply vma_new_inv in E2. rewrite <- Hn in E2 at 1. fold (to_cow e) in E2.
    destruct E2 as [-> (nd1' & Hnd1 & ->)].
    assert (nd1' = nd1).
    { assert (H : nodes s1 !! a = Some nd1) by apply lookup_insert_eq.
      rewrite H in Hnd1. congruence. }
    subst nd1'. set (s2 := bump_ref a nd1 1 s1).
    assert (Hmp2 : vmaps s2 !! this = Some mp) by exact Hmp.
    (* replace_vma *)
    rewrite bind_eq. unfold replace_vma. rewrite bind_eq.
    rewrite (deref_vmap_ok _ _ _ Hmp2). cbv beta iota. rewrite bind_eq.
    rewrite (deleted_eq _ _ _ _ Hmp2).
    assert (Hin : e ∈ cr mp).
    { rewrite Hperm. apply elem_of_app. right. apply list_elem_of_here. }
    rewrite bool_decide_eq_false_2 by (intros H; exact (H Hin)). cbv beta iota.
    destruct (span_of_member _ _ e Hre Hdisj) as [Hspan Hout].
    assert (Hspan' : span_of (cr mp) (vma_start e) (wrap64 (vma_end e - vma_start e))
                     = [e]).
    { apply Permutation_singleton_r. unfold span_of. rewrite Hperm. fold (span_of
        ((to_cow <$> done) ++ e :: rest) (vma_start e) (wrap64 (vma_end e - vma_start e))).
      rewrite Hspan. reflexivity. }
    assert (Hout' : outside (vma_start e) (wrap64 (vma_end e - vma_start e)) (cr mp)
                    ≡ₚ (to_cow <$> done) ++ rest).
    { unfold outside. rewrite Hperm. fold (outside (vma_start e)
        (wrap64 (vma_end e - vma_start e)) ((to_cow <$> done) ++ e :: rest)).
      rewrite Hout. reflexivity. }
    rewrite Hspan'. cbn [forallb]. rewrite bool_decide_eq_true_2 by reflexivity.
    cbn [andb]. unfold assert. rewrite !bind_eq, ret_eq. cbv beta iota.
    mrun. rewrite (span_replace_eq _ _ _ _ _ _ Hmp2), Hspan'.
    cbn [vma_delete_all]. mrun. unfold vma_delete. rewrite Hn.
    set (mp3 := set_cr mp _). set (s3 := set_vmaps _ s2).
    assert (Hnd3 : nodes s3 !! a = Some (set_ref nd1 (wrap64 (ref nd1 + 1))))
      by apply lookup_insert_eq.
    assert (Hw1 : wrap64 (ref nd0 + refs_in done a + 1) = ref nd0 + refs_in done a + 1)
      by (apply wrap64_small; lia).
    assert (Hw2 : wrap64 (ref nd0 + refs_in done a + 1 + 1)
                  = ref nd0 + refs_in done a + 2) by (rewrite wrap64_small; lia).
    assert (Hw3 : wrap64 (ref nd0 + refs_in done a + 2 - 1)
                  = ref nd0 + refs_in done a + 1) by (rewrite wrap64_small; lia).
    rewrite (vmnode_decref_keep _ _ _ Hnd3)
      by (unfold nd1; simpl; rewrite Hw1, Hw2, Hw3; lia).
    mrun.
    set (s4 := bump_ref a _ (-1) s3).
    destruct (updatepages this (vma_start e) (vma_end e) downgrade_cb s4)
      as [b s5|] eqn:E5; [|discriminate].
    apply updatepages_inv in E5 as (mp4 & pt & Hmp4 & -> & _).
    mrun. intros [= <- <-].
    split; [reflexivity|]. right.
    assert (mp4 = mp3).
    { assert (H : vmaps s4 !! this = Some mp3) by apply lookup_insert_eq.
      rewrite H in Hmp4. congruence. }
    subst mp4.
    split; [eauto|]. split; [|split].
    + eexists. split; [apply lookup_insert_eq|]. simpl.
      rewrite cr_insert_perm, Hout', fmap_app. simpl.
      rewrite <- app_assoc. simpl. apply Permutation_middle.
    + simpl. rewrite !lookup_insert_ne by exact (not_eq_sym Hne). reflexivity.
    + apply Hcount. unfold s4, bump_ref, s3, s2, s1, bump_ref, nd1. simpl.
      rewrite !insert_insert_eq. rewrite Hw1, Hw2.
      change (ref nd0 + refs_in done a + 2 + -1) with (ref nd0 + refs_in done a + 2 - 1).
      rewrite Hw3. reflexivity.
  - (* the source region is COW already *)
    mrun. intros [= <- <-].
    split; [reflexivity|]. right.
    assert (Hcow : va_type e = COW).
    { destruct (decide (va_type e = COW)) as [H|H]; [exact H|contradiction]. }
    split; [eauto|]. split; [|split].
    + exists mp. split; [exact Hmp|]. rewrite Hperm, fmap_app. simpl.
      rewrite (to_cow_cow e Hcow), <- app_assoc. reflexivity.
    + reflexivity.
    + apply Hcount. unfold bump_ref. simpl.
      rewrite wrap64_small by lia. reflexivity.
Qed.

(** One turn of the loop. *)
Lemma copy_region_step done e rest s s' :
  cr0 = done ++ e :: rest →
  copy_inv this nm s0 done (e :: rest) s →
  copy_region this nm true e s = Ok true s' →
  copy_inv this nm s0 (done ++ [e]) rest s'.
Proof.
  intros Hcr Hinv. pose proof Hinv as (_ & (mc & Hmc & Hpermc) & _ & Hdone).
  unfold copy_region. rewrite bind_eq.
  match goal with |- context [match ?m s with _ => _ end] =>
    destruct (m s) as [r s1|] eqn:E; [|discriminate] end.
  apply (copy_region_source done e rest s r s1 Hcr Hinv) in E.
  destruct E as [-> [Hnone | (Hnode & Hparent & Hchild & Hnodes)]].
  { change (n (to_cow e)) with (n e). rewrite Hnone. mrun.
    destruct (vma_delete (to_cow e) s1); discriminate. }
  destruct Hnode as (a & Hn & Hsome).
  change (n (to_cow e)) with (n e). rewrite Hn. mrun.
  assert (Hmc1 : vmaps s1 !! nm = Some mc) by (rewrite Hchild; exact Hmc).
  rewrite (deref_vmap_ok _ _ _ Hmc1). mrun.
  destruct (bool_decide _) eqn:Espan; [|discriminate].
  apply bool_decide_eq_true in Espan. unfold assert. mrun.
  rewrite (span_replace_eq _ _ _ _ _ _ Hmc1). rewrite Espan.
  cbn [vma_delete_all]. mrun. intros [= <-].
  change (vma_start (to_cow e)) with (vma_start e) in Espan.
  change (vma_end (to_cow e)) with (vma_end e) in Espan.
  rewrite (outside_all _ _ _ (span_of_nil_inv _ _ _ Espan)).
  destruct Hparent as (mp' & Hmp' & Hperm').
  split; [|split; [|split]].
  - exists mp'. split; [|exact Hperm'].
    simpl. rewrite lookup_insert_ne by exact Hne. exact Hmp'.
  - eexists. split; [apply lookup_insert_eq|]. simpl.
    rewrite cr_insert_perm, Hpermc, fmap_app. simpl.
    apply Permutation_cons_append.
  - exact Hnodes.
  - apply Forall_app. split; [exact Hdone|]. constructor; [eauto|constructor].
Qed.

Lemma copy_regions_inv : ∀ todo done s s',
  cr0 = done ++ todo →
  copy_inv this nm s0 done todo s →
  copy_regions this nm true todo s = Ok true s' →
  copy_inv this nm s0 cr0 [] s'.
Proof.
  induction todo as [|e rest IH]; intros done s s' Hcr Hinv.
  - simpl. intros [= <-]. rewrite app_nil_r in Hcr. subst done. exact Hinv.
  - cbn [copy_regions]. rewrite bind_eq.
    destruct (copy_region this nm true e s) as [ok s1|] eqn:E; [|discriminate].
    destruct ok; [|discriminate].
    apply (copy_region_step done e rest s s1 Hcr Hinv) in E.
    apply (IH (done ++ [e]) s1 s'); [|exact E].
    rewrite <- app_assoc. exact Hcr.
Qed.

End copy_share.

Lemma set_ref_same nd : set_ref nd (ref nd + 0) = nd.
Proof. destruct nd. unfold set_ref. simpl. rewrite Z.add_0_r. reflexivity. Qed.

(** C2 (amended).  After [vmap::copy] with sharing has succeeded, for
    every region of the source both the source and the new address space
    hold a COW region over the same range and the same node, and the
    reference count of that node is the number of regions referring to it
    in the two address spaces plus [ext], the number of its referrers
    outside the source before the copy (the regions of other address
    spaces, which the copy does not touch).  The count is the number of
    regions in the two address spaces when [ext] is 0, that is when only
    the source referred to the node. *)
Theorem copy_share_refcounts this s nm s' mp (ext : positive → Z) :
  vmaps s !! this = Some mp →
  cr_wf (cr mp) →
  map_Forall (λ a nd, 0 ≤ ext a ∧ ref nd = refs_in (cr mp) a + ext a ∧
                      ref nd + Z.of_nat (length (cr mp)) + 1 < 2 ^ 64) (nodes s) →
  vmap_copy this true s = Ok (Some nm) s' →
  vmaps s !! nm = None ∧
  ∃ mp' mc,
    vmaps s' !! this = Some mp' ∧ vmaps s' !! nm = Some mc ∧
    ∀ e, e ∈ cr mp →
      ∃ a nd', n e = Some a ∧
        to_cow e ∈ cr mp' ∧ to_cow e ∈ cr mc ∧
        nodes s' !! a = Some nd' ∧
        ref nd' = refs_in (cr mp') a + refs_in (cr mc) a + ext a.
Proof.
  intros Hmp Hwf Hrefs. unfold vmap_copy, vmap_new, new_vmap_obj. mrun.
  set (nm0 := fresh (dom (vmaps s))).
  assert (Hfresh : vmaps s !! nm0 = None).
  { apply not_elem_of_dom. apply is_fresh. }
  assert (Hne : nm0 ≠ this) by congruence.
  set (sN := set_vmaps <[nm0 := mk_vmap [] ∅ 1]> s).
  assert (HmpN : vmaps sN !! this = Some mp).
  { simpl. rewrite lookup_insert_ne by exact Hne. exact Hmp. }
  rewrite (deref_vmap_ok _ _ _ HmpN). mrun.
  destruct (copy_regions this nm0 true (cr mp) sN) as [ok s1|] eqn:Eloop; [|discriminate].
  destruct ok.
  2:{ mrun. destruct (vmap_delete nm0 s1); discriminate. }
  unfold tlbflush, modify. mrun. intros [= <- <-].
  split; [exact Hfresh|].
  assert (Hbound : ∀ a nd, nodes sN !! a = Some nd →
            0 ≤ ref nd ∧ ref nd + Z.of_nat (length (cr mp)) + 1 < 2 ^ 64).
  { intros a nd Hnd. destruct (map_Forall_lookup_1 _ _ _ _ Hrefs Hnd) as (H1 & H2 & H3).
    pose proof (refs_in_bounds (cr mp) a). lia. }
  assert (Hinit : copy_inv this nm0 sN [] (cr mp) sN).
  { split; [exists mp; split; [exact HmpN|reflexivity]|].
    split; [eexists; split; [apply lookup_insert_eq|reflexivity]|].
    split; [|constructor].
    intros a. destruct (nodes sN !! a) as [nd|]; [|reflexivity]. simpl.
    change (refs_in [] a) with 0. rewrite set_ref_same. reflexivity. }
  destruct (copy_regions_inv this nm0 sN (cr mp) Hne Hwf Hbound (cr mp) [] sN s1
              eq_refl Hinit Eloop)
    as ((mp' & Hmp' & Hperm') & (mc & Hmc & Hpermc) & Hnodes & Hdone).
  rewrite app_nil_r in Hperm'.
  exists mp', mc. split; [exact Hmp'|]. split; [exact Hmc|].
  intros e He.
  destruct (proj1 (Forall_forall _ _) Hdone e He) as (a & Hn & [nd Hnd]).
  exists a, (set_ref nd (ref nd + refs_in (cr mp) a)).
  split; [exact Hn|].
  split; [rewrite Hperm'; apply list_elem_of_fmap_2, He|].
  split; [rewrite Hpermc; apply list_elem_of_fmap_2, He|].
  split; [simpl; rewrite Hnodes, Hnd; reflexivity|].
  simpl. rewrite (refs_in_perm _ _ a Hperm'), (refs_in_perm _ _ a Hpermc).
  rewrite refs_in_to_cow.
  destruct (map_Forall_lookup_1 _ _ _ _ Hrefs Hnd) as (H1 & H2 & H3). lia.
Qed.

(** ** Outcomes: a result or a halt that is not the fuel of the model *)

Lemma wp_bind {A B} (m : M A) (f : A → M B) s Q :
  wp m s (λ a s1, wp (f a) s1 Q) → wp (m ≫= f) s Q.
Proof. unfold wp. rewrite bind_eq. destruct (m s); auto. Qed.

Lemma wp_ret {A} (a : A) s (Q : A → kstate → Prop) : Q a s → wp (mret a) s Q.
Proof. unfold wp. rewrite ret_eq. auto. Qed.

Lemma wp_mono {A} (m : M A) s (Q Q' : A → kstate → Prop) :
  wp m s Q → (∀ a s', Q a s' → Q' a s') → wp m s Q'.
Proof. unfold wp. destruct (m s); auto. Qed.

Lemma wp_eq {A} (m : M A) s a s' (Q : A → kstate → Prop) :
  m s = Ok a s' → Q a s' → wp m s Q.
Proof. unfold wp. intros ->. auto. Qed.

Lemma wp_halt {A} (m : M A) s h (Q : A → kstate → Prop) :
  m s = Halt h → h ≠ OutOfFuel → wp m s Q.
Proof. unfold wp. intros ->. auto. Qed.

Lemma wp_inv {A} (m : M A) s a s' (Q : A → kstate → Prop) :
  wp m s Q → m s = Ok a s' → Q a s'.
Proof. unfold wp. intros H E. rewrite E in H. exact H. Qed.

Lemma deref_node_halt p s h : deref_node p s = Halt h → h = Fault.
Proof.
  unfold deref_node. destruct p as [a|]; [|intros [= <-]; reflexivity].
  destruct (nodes s !! a); [discriminate|intros [= <-]; reflexivity].
Qed.

Lemma deref_vmap_halt a s h : deref_vmap a s = Halt h → h = Fault.
Proof.
  unfold deref_vmap. destruct (vmaps s !! a); [discriminate|intros [= <-]; reflexivity].
Qed.

Lemma slot_halt nd i s h : slot nd i s = Halt h → h = Fault.
Proof.
  unfold slot. destruct (_ && _); [|intros [= <-]; reflexivity].
  destruct (page nd !! Z.to_nat i); [discriminate|intros [= <-]; reflexivity].
Qed.

Lemma mem_frame_refl s : mem_frame s s.
Proof. split; auto. Qed.

Lemma mem_frame_trans s1 s2 s3 :
  mem_frame s1 s2 → mem_frame s2 s3 → mem_frame s1 s3.
Proof.
  intros [A1 A2] [B1 B2]. split; [auto|].
  intros p Hp. rewrite B2, A2; auto.
Qed.

Lemma mem_frame_same s s' :
  freelist s' = freelist s → mem s' = mem s → mem_frame s s'.
Proof. intros H1 H2. split; intros p; rewrite ?H1, ?H2; auto. Qed.

Lemma fill_slots_sub pg : ∀ fl pg' used fl' ok,
  fill_slots pg fl = (pg', used, fl', ok) →
  (∀ p, p ∈ used → p ∈ fl) ∧ (∀ p, p ∈ fl' → p ∈ fl).
Proof.
  induction pg as [|c pg IH]; intros fl pg' used fl' ok; simpl.
  - intros [= <- <- <- <-]. split; [intros p H; inversion H|auto].
  - destruct (negb (c =? 0)).
    + destruct (fill_slots pg fl) as [[[a b] d] e] eqn:E.
      intros [= <- <- <- <-]. eauto.
    + destruct fl as [|q fl1].
      { intros [= <- <- <- <-]. split; intros p H; inversion H. }
      destruct (q =? 0).
      { intros [= <- <- <- <-]. split; [intros p H; inversion H|].
        intros p H. apply list_elem_of_further, H. }
      destruct (fill_slots pg fl1) as [[[a b] d] e] eqn:E.
      intros [= <- <- <- <-]. destruct (IH _ _ _ _ _ E) as [H1 H2]. split.
      * intros p Hp. apply elem_of_cons in Hp as [->|Hp];
          [apply list_elem_of_here|apply list_elem_of_further, H1, Hp].
      * intros p Hp. apply list_elem_of_further, H2, Hp.
Qed.

Lemma alloc_state_frame a nd s pg' used fl' ok :
  fill_slots (page nd) (freelist s) = (pg', used, fl', ok) →
  mem_frame s (alloc_state a nd pg' used fl' s).
Proof.
  intros E. destruct (fill_slots_sub _ _ _ _ _ _ E) as [H1 H2]. split; simpl.
  - exact H2.
  - intros p Hp. apply zero_fill_out. intros H. apply Hp, H1, H.
Qed.

(** *** demand_load *)

Lemma readi_wp i p off cnt s :
  wp (readi i p off cnt) s (λ _ s', same_but_mem s s').
Proof.
  unfold wp, readi. destruct i as [a|]; [|discriminate]. unfold get. mrun.
  destruct (inodes s !! a) as [f|]; [|discriminate].
  destruct (_ || _); [apply same_but_mem_refl|].
  destruct (p =? 0); [discriminate|]. unfold modify. mrun. repeat split.
Qed.

Lemma demand_load_loop_wp this idx : ∀ s,
  wp (demand_load_loop this idx) s (λ _ s', same_but_mem s s').
Proof.
  induction idx as [|i idx IH]; intros s.
  - apply wp_ret, same_but_mem_refl.
  - cbn [demand_load_loop]. apply wp_bind. unfold demand_load_chunk.
    apply wp_bind. unfold wp at 1.
    destruct (deref_node (Some this) s) as [nd s0|] eqn:E.
    2:{ apply deref_node_halt in E. subst. discriminate. }
    apply deref_node_inv in E as [-> _].
    apply wp_bind. unfold wp at 1.
    destruct (slot nd (i / PGSIZE) s) as [p s0|] eqn:E.
    2:{ apply slot_halt in E. subst. discriminate. }
    apply slot_inv in E as [-> _].
    apply wp_bind. apply (wp_mono _ _ _ _ (readi_wp _ _ _ _ s)).
    intros r s1 Hs1. cbv beta.
    destruct (negb _).
    + do 2 apply wp_ret. exact Hs1.
    + apply wp_ret. cbv beta iota in *. apply (wp_mono _ _ _ _ (IH s1)).
      intros r' s2 Hs2. eapply same_but_mem_trans; eassumption.
Qed.

Lemma demand_load_wp this s :
  wp (demand_load this) s (λ _ s', same_but_mem s s').
Proof.
  unfold demand_load. apply wp_bind. unfold wp at 1.
  destruct (deref_node (Some this) s) as [nd s0|] eqn:E.
  2:{ apply deref_node_halt in E. subst. discriminate. }
  apply deref_node_inv in E as [-> _]. apply demand_load_loop_wp.
Qed.

(** *** The steps of a write fault on a COW region *)

Lemma pagefault_fill_wp m npg a nd s :
  n m = Some a → nodes s !! a = Some nd → node_wf nd →
  wp (pagefault_fill m npg) s (λ _ s1, fill_post a nd s s1).
Proof.
  intros Hn Hnd Hwf. pose proof Hwf as [Hnp Hlen].
  unfold pagefault_fill. rewrite Hn. apply wp_bind.
  (* the allocation step *)
  assert (Halloc : wp (nd0 ← deref_node (Some a); p ← slot nd0 npg;
                       if p =? 0 then
                         r ← allocpg a;
                         if r <? 0 then panic "pagefault: couldn't allocate pages"
                         else mret ()
                       else mret ()) s
                      (λ _ s1, fill_post a nd s s1 ∧ mem_frame s s1 ∧ inodes s1 = inodes s)).
  { apply wp_bind. apply (wp_eq _ _ _ _ _ (deref_node_ok _ _ _ Hnd)).
    apply wp_bind. unfold wp at 1.
    destruct (slot nd npg s) as [p s0|h] eqn:E;
      [|apply slot_halt in E; subst; discriminate].
    apply slot_inv in E as [-> _].
    destruct (p =? 0).
    - apply wp_bind. unfold wp at 1. rewrite (allocpg_spec a nd s Hnd Hlen) by lia.
      destruct (fill_slots (page nd) (freelist s)) as [[[pg' used] fl'] ok] eqn:Ef.
      destruct ok; [|apply (wp_halt _ _ _ _ eq_refl); discriminate].
      change (0 <? 0) with false. apply wp_ret.
      pose proof (alloc_state_frame a nd s _ _ _ _ Ef) as Hfr.
      split; [|split; [exact Hfr|reflexivity]].
      split; [reflexivity|]. split; [reflexivity|].
      exists (set_page nd pg'). split; [reflexivity|].
      split; [reflexivity|]. split; [reflexivity|]. split; [reflexivity|].
      split.
      { split; [exact Hnp|]. simpl. rewrite (fill_slots_length _ _ _ _ _ _ Ef). exact Hlen. }
      split; [|intros _; exact Hfr].
      intros i p' Hp' Hne. simpl. eapply fill_slots_keeps; eassumption.
    - apply wp_ret. split; [|split; [apply mem_frame_refl|reflexivity]].
      split; [reflexivity|]. split; [reflexivity|].
      exists nd. split; [symmetry; apply insert_id, Hnd|].
      split; [reflexivity|]. split; [reflexivity|]. split; [reflexivity|].
      split; [exact Hwf|]. split; [auto|]. intros _. apply mem_frame_refl. }
  apply (wp_mono _ _ _ _ Halloc). clear Halloc.
  intros [] s1 ((Hv & Ht & nd1 & Hn1 & Hr1 & Hty1 & Hnp1 & Hwf1 & Hkeep & _) & Hfr & Hi).
  assert (Hnd1 : nodes s1 !! a = Some nd1) by (rewrite Hn1; apply lookup_insert_eq).
  apply wp_bind. apply (wp_eq _ _ _ _ _ (deref_node_ok _ _ _ Hnd1)).
  case_decide as Hty.
  - apply wp_bind. apply (wp_mono _ _ _ _ (demand_load_wp a s1)).
    intros r s2 (B1 & B2 & B3 & B4 & B5). cbv beta.
    destruct (r <? 0); [apply (wp_halt _ _ _ _ eq_refl); discriminate|].
    apply wp_ret. split; [congruence|]. split; [congruence|].
    exists nd1. rewrite B1.
    split; [exact Hn1|]. split; [exact Hr1|]. split; [exact Hty1|].
    split; [exact Hnp1|]. split; [exact Hwf1|]. split; [exact Hkeep|].
    intros Hno. rewrite Hty1 in Hty. contradiction.
  - apply wp_ret. split; [exact Hv|]. split; [exact Ht|].
    exists nd1.
    split; [exact Hn1|]. split; [exact Hr1|]. split; [exact Hty1|].
    split; [exact Hnp1|]. split; [exact Hwf1|]. split; [exact Hkeep|].
    intros _. exact Hfr.
Qed.

Lemma free_pages_frame pg : ∀ s s',
  free_pages pg s = Ok tt s' →
  nodes s' = nodes s ∧ vmaps s' = vmaps s ∧ tlbflushes s' = tlbflushes s.
Proof.
  induction pg as [|p pg IH]; intros s s'; simpl.
  - intros [= <-]. auto.
  - rewrite bind_eq. destruct (negb (p =? 0)).
    + unfold kfree, modify. mrun. intros H. apply IH in H. exact H.
    + mrun. apply IH.
Qed.

Lemma vmnode_delete_frame c s s' :
  vmnode_delete c s = Ok tt s' →
  nodes s' = delete c (nodes s) ∧ vmaps s' = vmaps s ∧ tlbflushes s' = tlbflushes s.
Proof.
  unfold vmnode_delete. mrun.
  destruct (deref_node (Some c) s) as [nd s0|] eqn:E; [|discriminate].
  apply deref_node_inv in E as [-> _]. mrun.
  destruct (free_pages _ s) as [[] s1|] eqn:E; [|discriminate].
  apply free_pages_frame in E as (A1 & A2 & A3). mrun.
  assert (Hip : ∀ s2 : kstate, nodes s2 = nodes s1 → vmaps s2 = vmaps s1 →
            tlbflushes s2 = tlbflushes s1 →
            modify (set_nodes (delete c)) s2 = Ok tt s' →
            nodes s' = delete c (nodes s) ∧ vmaps s' = vmaps s ∧
            tlbflushes s' = tlbflushes s).
  { intros s2 H1 H2 H3. unfold modify. intros [= <-]. simpl.
    rewrite H1, H2, H3, A1, A2, A3. auto. }
  case_decide.
  - unfold iput. destruct (ip nd); [|contradiction].
    unfold modify at 1. mrun. apply Hip; reflexivity.
  - mrun. apply Hip; reflexivity.
Qed.

Lemma vmnode_copy_wp a nd s :
  nodes s !! a = Some nd → node_wf nd →
  wp (vmnode_copy a) s
     (λ r s3, match r with Some c => copy_post nd s c s3 | None => True end).
Proof.
  intros Hnd Hwf. pose proof Hwf as [Hnp Hlen].
  unfold wp. rewrite (vmnode_copy_start a nd s Hnd Hwf). cbv zeta.
  pose proof (fresh_node_None s) as Hfresh.
  set (c := fresh_node s) in *. set (s1 := set_nodes _ _).
  assert (Hca : c ≠ a) by congruence.
  assert (Hwf0 : node_wf (empty_dup nd)).
  { split; [exact Hnp|]. simpl. apply length_replicate. }
  rewrite bind_eq.
  destruct (slot nd 0 s1) as [p0 s0|h] eqn:E;
    [|apply slot_halt in E; subst; discriminate].
  apply slot_inv in E as [-> _].
  destruct (p0 =? 0).
  { rewrite ret_eq. split; [exact Hfresh|].
    unfold s1. simpl. rewrite after_idup_vmaps, after_idup_tlb, after_idup_nodes.
    split; [reflexivity|]. split; [reflexivity|].
    split; [apply mem_frame_same; simpl;
            [apply after_idup_freelist|apply after_idup_mem]|].
    exists (empty_dup nd). repeat split; try apply Hwf0. }
  assert (Hc1 : nodes s1 !! c = Some (empty_dup nd)) by apply lookup_insert_eq.
  rewrite bind_eq, (allocpg_spec c (empty_dup nd) s1 Hc1)
    by (simpl; rewrite ?length_replicate; lia).
  destruct (fill_slots (page (empty_dup nd)) (freelist s1))
    as [[[pg' used] fl'] ok] eqn:Ef.
  pose proof (alloc_state_frame c (empty_dup nd) s1 _ _ _ _ Ef) as Hfr.
  pose proof (fill_slots_length _ _ _ _ _ _ Ef) as Hl.
  simpl in Hl. rewrite length_replicate in Hl.
  set (s2 := alloc_state _ _ _ _ _ _) in *.
  destruct ok.
  2:{ change (-1 <? 0) with true. cbv iota. rewrite bind_eq.
      destruct (vmnode_delete_ok c (set_page (empty_dup nd) pg') s2) as [s3 ->];
        [apply lookup_insert_eq|]. rewrite ret_eq. exact I. }
  change (0 <? 0) with false. cbv iota. rewrite bind_eq.
  pose proof (fill_slots_full _ _ _ _ _ Ef) as Hfull.
  replace (seqZ 0 (npages nd))
    with (seqZ (Z.of_nat 0) (Z.of_nat (Z.to_nat (npages nd)))) by (f_equal; lia).
  rewrite (copy_pages_spec a c nd (set_page (empty_dup nd) pg')
             (Z.to_nat (npages nd)) 0 s2).
  - rewrite ret_eq, drop_0. split; [exact Hfresh|]. simpl.
    rewrite after_idup_vmaps, after_idup_tlb, after_idup_nodes, insert_insert_eq.
    split; [reflexivity|]. split; [reflexivity|]. split.
    + (* memory: only pages of the free list were written *)
      destruct (fill_slots_sub _ _ _ _ _ _ Ef) as [Hu Hf].
      assert (Hfl1 : freelist s1 = freelist s) by apply after_idup_freelist.
      split; simpl.
      * intros p Hp. rewrite <- Hfl1. apply Hf, Hp.
      * intros p Hp. rewrite copy_fill_out.
        -- rewrite zero_fill_out, after_idup_mem; [reflexivity|].
           intros H. apply Hp. rewrite <- Hfl1. apply Hu, H.
        -- rewrite snd_zip by lia. intros Hin.
           apply list_elem_of_lookup in Hin as [i Hi].
           assert (Hp0 : p ≠ 0) by (eapply (proj1 (Forall_lookup _ _) Hfull); eauto).
           assert (Hz : page (empty_dup nd) !! i = Some 0).
           { simpl. apply lookup_replicate_2. apply lookup_lt_Some in Hi. lia. }
           apply Hp. rewrite <- Hfl1. apply Hu.
           eapply fill_slots_new; eassumption.
    + exists (set_page (empty_dup nd) pg'). repeat split; try apply Hnp.
      simpl. lia.
  - unfold s2, alloc_state, s1. simpl. rewrite after_idup_nodes, insert_insert_eq.
    rewrite lookup_insert_ne by exact Hca. exact Hnd.
  - apply lookup_insert_eq.
  - lia.
  - simpl. lia.
  - lia.
  - reflexivity.
  - exact Hfull.
Qed.

Lemma updatepages_wp this b e cb s :
  wp (updatepages this b e cb) s
     (λ _ s', ∃ mp pt, vmaps s !! this = Some mp ∧
        s' = set_vmaps <[this := set_pml4 mp pt]> s ∧
        ∀ k, match pml4 mp !! k with
             | Some v => ∃ v', pt !! k = Some v' ∧
                               (v' = v ∨ ∃ fl, cb v = Some (v', fl))
             | None => pt !! k = None
             end).
Proof.
  unfold wp. destruct (updatepages this b e cb s) as [r s'|h] eqn:E.
  - eapply updatepages_inv, E.
  - unfold updatepages in E. rewrite bind_eq in E.
    destruct (deref_vmap this s) as [mp s0|] eqn:E1;
      [|apply deref_vmap_halt in E1; congruence].
    apply deref_vmap_inv in E1 as [-> _]. cbv beta iota in E.
    destruct (forallb _ _); [discriminate|]. injection E as <-. discriminate.
Qed.

Lemma pagefault_install_wp this k m npg s mp :
  vmaps s !! this = Some mp → m ∈ cr mp →
  wp (pagefault_install this k (default 0 (pml4 mp !! k)) m npg) s
     (λ r s', ∃ a nd p,
        n m = Some a ∧ nodes s !! a = Some nd ∧
        (va_type m ≠ COW → ref nd = 1) ∧
        r = Some 1 ∧ s' = set_pte this mp k (installed_pte m p) s).
Proof.
  intros Hmp Hm. unfold wp.
  destruct (pagefault_install _ _ _ _ _ s) as [r s'|h] eqn:E.
  - destruct (pagefault_install_inv _ _ _ _ _ _ _ _ Hmp Hm E)
      as (a & nd & p & H1 & H2 & _ & _ & H5 & H6 & H7). eauto 10.
  - revert E. unfold pagefault_install, cmpxch_pte. mrun.
    rewrite (pte_load_eq _ _ _ _ Hmp). mrun. rewrite Z.eqb_refl. mrun.
    unfold pte_store at 1. mrun. rewrite (deref_vmap_ok _ _ _ Hmp). mrun.
    unfold put_vmap, modify. mrun. cbn [negb]. mrun.
    set (sL := set_vmaps _ s).
    assert (HmpL : vmaps sL !! this =
                   Some (set_pml4 mp (<[k := Z.lor (default 0 (pml4 mp !! k)) PTE_LOCK]>
                                        (pml4 mp)))) by apply lookup_insert_eq.
    rewrite (deleted_eq _ _ _ _ HmpL).
    rewrite bool_decide_eq_false_2 by (simpl; intros H; exact (H Hm)). mrun.
    destruct (deref_node (n m) sL) as [nd s0|] eqn:E;
      [|apply deref_node_halt in E; subst; intros [= <-]; discriminate].
    apply deref_node_inv in E as [-> _]. mrun.
    destruct (slot nd npg sL) as [p s0|] eqn:E;
      [|apply slot_halt in E; subst; intros [= <-]; discriminate].
    apply slot_inv in E as [-> _]. mrun.
    assert (Hfin : ∀ v, ∃ t, pte_store this k v sL = Ok tt t).
    { intros v. unfold pte_store. mrun. rewrite (deref_vmap_ok _ _ _ HmpL). mrun.
      unfold put_vmap, modify. eexists. reflexivity. }
    destruct (bool_decide (va_type m = COW)).
    + mrun. destruct (Hfin (Z.lor (Z.lor (Z.lor (v2p p) PTE_P) PTE_U) PTE_COW)) as [t ->].
      discriminate.
    + unfold assert. destruct (ref nd =? 1); mrun; [|intros [= <-]; discriminate].
      destruct (Hfin (Z.lor (Z.lor (Z.lor (v2p p) PTE_P) PTE_U) PTE_W)) as [t ->].
      discriminate.
Qed.

Lemma vmnode_incref_eq a nd s :
  nodes s !! a = Some nd → vmnode_incref a s = Ok tt (bump_ref a nd 1 s).
Proof.
  intros H. unfold vmnode_incref. mrun. rewrite (deref_node_ok _ _ _ H). reflexivity.
Qed.

Lemma vmnode_decref_any a nd s :
  nodes s !! a = Some nd →
  ∃ s', vmnode_decref a s = Ok tt s' ∧
    vmaps s' = vmaps s ∧ tlbflushes s' = tlbflushes s ∧
    (∀ b, b ≠ a → nodes s' !! b = nodes s !! b) ∧
    (wrap64 (ref nd - 1) ≠ 0 → s' = bump_ref a nd (-1) s).
Proof.
  intros Hnd. destruct (decide (wrap64 (ref nd - 1) = 0)) as [Hz|Hnz].
  - unfold vmnode_decref. mrun. rewrite (deref_node_ok _ _ _ Hnd). mrun.
    unfold put_node, modify. mrun. rewrite Hz. change (0 =? 0) with true. cbv iota.
    set (s1 := set_nodes _ s).
    destruct (vmnode_delete_ok a (set_ref nd 0) s1) as [s' Hs']; [apply lookup_insert_eq|].
    exists s'. split; [exact Hs'|].
    apply vmnode_delete_frame in Hs' as (A1 & A2 & A3).
    split; [exact A2|]. split; [exact A3|]. split; [|contradiction].
    intros b Hb. rewrite A1, lookup_delete_ne by congruence.
    unfold s1. simpl. apply lookup_insert_ne. congruence.
  - exists (bump_ref a nd (-1) s). split; [apply vmnode_decref_keep; assumption|].
    split; [reflexivity|]. split; [reflexivity|]. split; [|auto].
    intros b Hb. simpl. apply lookup_insert_ne. congruence.
Qed.

(** [lookup] when the span of the query is a single region. *)
Lemma lookup_of_span this mp x va s :
  vmaps s !! this = Some mp →
  span_of (cr mp) va 1 = [x] →
  0 ≤ va → vma_start x ≤ va < vma_end x → vma_end x ≤ USERTOP →
  lookup this va 1 s = Ok (Some x) s.
Proof.
  intros Hmp Hspan H0 Hva Hend. unfold USERTOP in Hend. unfold lookup.
  rewrite wrap64_small by lia.
  replace (va + 1 <? va) with false by (symmetry; apply Z.ltb_ge; lia).
  mrun. rewrite (deref_vmap_ok _ _ _ Hmp). mrun. rewrite Hspan. cbn [head].
  replace (vma_end x <=? vma_start x) with false by (symmetry; apply Z.leb_gt; lia).
  replace (vma_start x <? va + 1) with true by (symmetry; apply Z.ltb_lt; lia).
  replace (va <? vma_end x) with true by (symmetry; apply Z.ltb_lt; lia).
  reflexivity.
Qed.

(** The region that replaces [m] is the one a later lookup finds. *)
Lemma span_after_replace l m repl va :
  cr_wf l → m ∈ l →
  vma_start repl = vma_start m → vma_end repl = vma_end m →
  vma_start m ≤ va < vma_end m →
  span_of (cr_insert repl
             (outside (vma_start m) (wrap64 (vma_end m - vma_start m)) l)) va 1
  = [repl].
Proof.
  intros Hwf Hm Hs He Hva.
  pose proof (cr_wf_range _ _ Hwf Hm) as (H0 & H1 & H2). unfold USERTOP in H2.
  apply Permutation_singleton_r. unfold span_of. rewrite cr_insert_perm.
  rewrite filter_cons_True
    by (apply Is_true_true, overlaps_spec; rewrite Hs, He; lia).
  apply Permutation_cons; [reflexivity|].
  fold (span_of (outside (vma_start m) (wrap64 (vma_end m - vma_start m)) l) va 1).
  rewrite span_of_none; [reflexivity|].
  apply Forall_forall. intros x Hx.
  unfold outside in Hx. apply list_elem_of_filter in Hx as [Hno _].
  destruct (overlaps va 1 x) eqn:E; [|reflexivity].
  exfalso. apply Hno. apply Is_true_true. apply overlaps_spec in E.
  rewrite wrap64_small by lia. apply overlaps_spec. lia.
Qed.

(** ** C6: allocator exhaustion during fault resolution *)

(** [pagefault_fill] when the page is resident: nothing is allocated,
    and a node loaded on demand is read from its file, which changes
    physical memory only. *)
Lemma pagefault_fill_loaded m npg a nd p s :
  n m = Some a → nodes s !! a = Some nd →
  0 ≤ npg < npages nd → page nd !! Z.to_nat npg = Some p → p ≠ 0 →
  (type nd = ONDEMAND → ∃ s1, demand_load a s = Ok 0 s1) →
  ∃ s1, pagefault_fill m npg s = Ok tt s1 ∧ same_but_mem s s1.
Proof.
  intros Hn Hnd Hnpg Hp Hp0 Hload.
  destruct (decide (type nd = ONDEMAND)) as [Hty|Hty].
  - destruct (Hload Hty) as [s1 Hs1]. exists s1.
    split; [|exact (proj1 (demand_load_replay a s 0 s1 s Hs1 eq_refl eq_refl))].
    unfold pagefault_fill. rewrite Hn. mrun.
    rewrite (deref_node_ok _ _ _ Hnd). mrun.
    rewrite (slot_eq _ _ _ _ Hnpg Hp). mrun.
    replace (p =? 0) with false by (symmetry; apply Z.eqb_neq; exact Hp0). mrun.
    rewrite (deref_node_ok _ _ _ Hnd). mrun.
    rewrite decide_True by exact Hty. mrun. rewrite Hs1. reflexivity.
  - exists s. split; [|apply same_but_mem_refl].
    apply (pagefault_fill_resident m npg a nd p s); assumption.
Qed.

(** C6 (amended).  When the slot of the faulting page is empty and the
    allocator runs out while [allocpg] materialises the object, the fault
    is fatal: [pagefault] panics.  When the page of the faulting address
    and the first page of the object are resident, the load of an object
    loaded on demand succeeds, and the allocator holds fewer pages than the
    object has slots, so that it runs out while the write fault on a COW
    region duplicates the object, [pagefault] returns -1 to the faulting
    context, whatever the type of the object. *)
Theorem pagefault_exhaustion fuel this va err s mp m a nd :
  vmaps s !! this = Some mp → cr_wf (cr mp) → m ∈ cr mp →
  vma_start m ≤ va < vma_end m →
  Z.land (pte_of mp va) PTE_PUW ≠ PTE_PUW →
  Z.land (pte_of mp va) PTE_LOCK = 0 →
  n m = Some a → nodes s !! a = Some nd → node_wf nd →
  0 ≤ page_index m va < npages nd →
  (page nd !! Z.to_nat (page_index m va) = Some 0 →
   (length (freelist s) < length (filter (λ c : Z, c = 0%Z) (page nd)))%nat →
   pagefault (S fuel) this va err s
     = Halt (Panic "pagefault: couldn't allocate pages")) ∧
  (∀ p p0,
     page nd !! Z.to_nat (page_index m va) = Some p → p ≠ 0 →
     page nd !! 0%nat = Some p0 → p0 ≠ 0 →
     (type nd = ONDEMAND → ∃ s1, demand_load a s = Ok 0 s1) →
     va_type m = COW → Z.land err FEC_WR ≠ 0 →
     Z.of_nat (length (freelist s)) < npages nd →
     ∃ s', pagefault (S fuel) this va err s = Ok (-1) s').
Proof.
  intros Hmp Hwf Hm Hva Hfast Hlock Hn Hnd Hnwf Hidx.
  pose proof (cr_wf_range _ _ Hwf Hm) as (H0 & H1 & H2).
  assert (Hpf : pagefault (S fuel) this va err s =
                pagefault_retry (S fuel) this va err (walkpgdir va) s).
  { unfold pagefault.
    replace (USERTOP <=? va) with false by (symmetry; apply Z.leb_gt; lia).
    reflexivity. }
  rewrite Hpf.
  rewrite (pagefault_retry_found fuel this va err s mp m Hmp Hfast Hlock
             (lookup_found this mp m va s Hmp Hwf Hm Hva)).
  split.
  - intros Hp Hshort. mrun.
    rewrite (pagefault_fill_exhausted m _ a nd s Hn Hnd Hnwf Hidx Hp Hshort).
    reflexivity.
  - intros p p0 Hp Hp0 Hfirst Hfirst0 Hload Hcow Hwr Hshort. mrun.
    destruct (pagefault_fill_loaded m _ a nd p s Hn Hnd Hidx Hp Hp0 Hload)
      as (s1 & -> & Hn1 & _ & _ & Hf1 & _). mrun.
    rewrite bool_decide_eq_true_2 by exact Hcow.
    replace (Z.land err FEC_WR =? 0) with false by (symmetry; apply Z.eqb_neq; exact Hwr).
    cbn [andb negb]. mrun. unfold pagefault_wcow. rewrite Hn. mrun.
    destruct (vmnode_copy_exhausted a nd s1 p0) as [s' ->];
      [rewrite Hn1; exact Hnd | exact Hnwf | exact Hfirst | exact Hfirst0
      | rewrite Hf1; exact Hshort |].
    mrun. change (-1 <? 0) with true. mrun. eexists. reflexivity.
Qed.

Lemma pagefault_exhaustion_witness :
  ∃ s', pagefault 1 2 0 FEC_WR ex_ondemand_full = Ok (-1) s'.
Proof.
  refine (proj2 (pagefault_exhaustion 0 2 0 FEC_WR ex_ondemand_full
                   (mk_vmap [ex_cow_vma] ∅ 1) ex_cow_vma 1 ex_ondemand_node
                   _ _ _ _ _ _ _ _ _ _) (pg 0) (pg 0) _ _ _ _ _ _ _ _).
  - vm_compute. reflexivity.
  - apply cr_ok_wf. reflexivity.
  - apply list_elem_of_here.
  - simpl. lia.
  - vm_compute. discriminate.
  - reflexivity.
  - reflexivity.
  - vm_compute. reflexivity.
  - unfold node_wf, NELEM_page. simpl. split; [lia|reflexivity].
  - vm_compute. split; [discriminate|reflexivity].
  - reflexivity.
  - vm_compute. discriminate.
  - reflexivity.
  - vm_compute. discriminate.
  - intros _. eexists. vm_compute. reflexivity.
  - reflexivity.
  - vm_compute. discriminate.
  - reflexivity.
Defined.

(** The claim as stated fails: with the allocator exhausted, the write
    fault of the child on the shared page does not halt the kernel, it
    returns -1 and leaves the state as it was. *)
Lemma pagefault_exhaustion_returns :
  freelist ex_fork_state = [] ∧
  pagefault 2 2 0 FEC_WR ex_fork_state = Ok (-1) ex_fork_state.
Proof. split; [reflexivity|]. vm_compute. reflexivity. Qed.

(** ** The flush of the TLB *)


(** ** The theorems at the example states *)

Lemma allocpg_witness_run : allocpg 1 ex_alloc_state =
  Ok (-1) (alloc_state 1 ex_empty_node [pg 0; 0] [pg 0] [] ex_alloc_state).
Proof. vm_compute. reflexivity. Qed.

Lemma copy_of_empty_node_witness :
  ∃ c cn s',
    vmnode_copy 1 ex_alloc_state = Ok (Some c) s' ∧
    nodes ex_alloc_state !! c = None ∧
    nodes s' !! c = Some cn ∧
    nodes s' !! 1%positive = Some ex_empty_node ∧
    npages cn = npages ex_empty_node ∧
    length (page cn) = length (page ex_empty_node) ∧
    Forall (λ p, p = 0) (page cn) ∧
    freelist s' = freelist ex_alloc_state ∧
    mem s' = mem ex_alloc_state.
Proof.
  apply (copy_of_empty_node 1 ex_empty_node ex_alloc_state).
  - reflexivity.
  - apply (bool_decide_unpack _); vm_compute; exact I.
  - reflexivity.
Defined.

Lemma copy_of_resident_node_witness :
  ∃ c cn s',
    vmnode_copy 1 ex_half_state = Ok (Some c) s' ∧
    nodes ex_half_state !! c = None ∧
    nodes s' !! c = Some cn ∧
    nodes s' !! 1%positive = Some ex_half_node ∧
    npages cn = npages ex_half_node ∧
    length (page cn) = length (page ex_half_node) ∧
    ∀ (i : nat) p, page ex_half_node !! i = Some p →
      ∃ q, page cn !! i = Some q ∧ q ≠ 0 ∧ (q ∉ page ex_half_node) ∧
        page_bytes s' q = (if p =? 0 then zero_page else page_bytes ex_half_state p) ∧
        page_bytes s' p = page_bytes ex_half_state p.
Proof.
  apply (copy_of_resident_node 1 ex_half_node ex_half_state (pg 0)).
  - vm_compute. reflexivity.
  - apply (bool_decide_unpack _); vm_compute; exact I.
  - reflexivity.
  - vm_compute. discriminate.
  - apply (bool_decide_unpack _); vm_compute; exact I.
  - vm_compute. discriminate.
Defined.

(** The claim as stated fails: the second slot of the source is empty,
    the second slot of the duplicate holds a page. *)
Lemma copy_populates_empty_slot :
  ∃ c cn s' q,
    nodes ex_half_state !! 1%positive = Some ex_half_node ∧
    page ex_half_node !! 0%nat = Some (pg 0) ∧ pg 0 ≠ 0 ∧
    page ex_half_node !! 1%nat = Some 0 ∧
    vmnode_copy 1 ex_half_state = Ok (Some c) s' ∧
    nodes s' !! c = Some cn ∧
    page cn !! 1%nat = Some q ∧ q ≠ 0.
Proof.
  exists 2%positive, (mk_vmnode 2 [pg 1; pg 2] 0 EAGER None 0 0),
         (state_of (vmnode_copy 1 ex_half_state) ex_half_state), (pg 2).
  vm_compute. repeat split; discriminate.
Qed.

Lemma eager_node_loaded_witness :
  ∃ c cn s',
    vmnode_new 3 EAGER (Some 1%positive) 0 12288 ex_boot = Ok (Some c) s' ∧
    nodes s' !! c = Some cn ∧
    npages cn = 3 ∧ Z.of_nat (length (page cn)) = 3 ∧
    ∀ (j : nat) p, page cn !! j = Some p →
      p ≠ 0 ∧
      ∀ b : nat, (b < Z.to_nat PGSIZE)%nat →
        page_bytes s' p !! b =
          if Z.of_nat j * PGSIZE + Z.of_nat b <? 12288
          then abc_file !! Z.to_nat (0 + Z.of_nat j * PGSIZE + Z.of_nat b)
          else Some x00.
Proof.
  apply (eager_node_loaded 3 1 (mk_inode abc_file 1) 0 12288 ex_boot).
  - vm_compute. split; discriminate.
  - reflexivity.
  - lia.
  - vm_compute. split; discriminate.
  - vm_compute. discriminate.
  - vm_compute. reflexivity.
  - apply (bool_decide_unpack _); vm_compute; exact I.
  - apply (bool_decide_unpack _); vm_compute; exact I.
  - vm_compute. discriminate.
Defined.

(** The claim as stated fails: an EAGER node without a backing file is
    constructed with its slot empty. *)
Lemma eager_without_file_not_populated :
  ∃ c cn s',
    vmnode_new 1 EAGER None 0 0 ex_boot = Ok (Some c) s' ∧
    nodes s' !! c = Some cn ∧ type cn = EAGER ∧ npages cn = 1 ∧
    page cn = [0] ∧ freelist s' = freelist ex_boot.
Proof.
  exists 1%positive, (mk_vmnode 1 [0] 0 EAGER None 0 0),
         (state_of (vmnode_new 1 EAGER None 0 0 ex_boot) ex_boot).
  vm_compute. repeat split.
Qed.

Lemma insert_overlap_rejected_witness :
  insert_vma 1 (Some 3%positive) 2048 true ex_two_regions = Ok (-1) ex_two_regions.
Proof.
  apply (insert_overlap_rejected 1 3 (mk_vmnode 1 [0] 0 EAGER None 0 0) ex_two_vmap).
  - vm_compute. reflexivity.
  - vm_compute. reflexivity.
  - apply (bool_decide_unpack _); vm_compute; exact I.
  - exists ex_region0. split; [apply list_elem_of_here|]. vm_compute.
    split; reflexivity.
Defined.

Lemma remove_partial_rejected_witness :
  remove_vma 1 0 2048 ex_two_regions = Ok (-1) ex_two_regions.
Proof.
  refine (proj1 (remove_partial_rejected 1 ex_two_vmap 0 2048 ex_two_regions _ _ _) _).
  - vm_compute. reflexivity.
  - lia.
  - lia.
  - exists ex_region0. split; [apply list_elem_of_here|]. vm_compute.
    split; [split; reflexivity|]. right. reflexivity.
Defined.


Lemma copy_share_refcounts_witness :
  vmaps ex_fork_state !! 3%positive = None ∧
  ∃ mp' mc,
    vmaps ex_refork_state !! 1%positive = Some mp' ∧
    vmaps ex_refork_state !! 3%positive = Some mc ∧
    ∀ e, e ∈ [ex_cow_vma] →
      ∃ a nd', n e = Some a ∧
        to_cow e ∈ cr mp' ∧ to_cow e ∈ cr mc ∧
        nodes ex_refork_state !! a = Some nd' ∧
        ref nd' = refs_in (cr mp') a + refs_in (cr mc) a + 1.
Proof.
  apply (copy_share_refcounts 1 ex_fork_state 3 ex_refork_state
           (mk_vmap [ex_cow_vma] {[ 0 := 1050629 ]} 1) (λ _, 1)).
  - vm_compute. reflexivity.
  - apply cr_ok_wf. vm_compute. reflexivity.
  - apply (bool_decide_unpack _); vm_compute; exact I.
  - vm_compute. reflexivity.
Defined.

(** The claim as stated fails: when the parent of [ex_fork_state] forks
    a second time, the shared node is referred to by one region of the
    parent and one region of the new child, two across both address
    spaces, and its reference count is 3: the region of the first child
    counts too. *)
Lemma copy_share_counts_other_spaces :
  vmap_copy 1 true ex_fork_state = Ok (Some 3%positive) ex_refork_state ∧
  cr <$> vmaps ex_refork_state !! 1%positive = Some [ex_cow_vma] ∧
  cr <$> vmaps ex_refork_state !! 3%positive = Some [ex_cow_vma] ∧
  cr <$> vmaps ex_refork_state !! 2%positive = Some [ex_cow_vma] ∧
  refs_in [ex_cow_vma] 1 + refs_in [ex_cow_vma] 1 = 2 ∧
  ref <$> nodes ex_refork_state !! 1%positive = Some 3.
Proof. vm_compute. repeat split. Qed.



(** The fatal half of the exhaustion theorem at work: a read fault on an
    untouched page with no page left panics. *)
Lemma pagefault_exhaustion_panics :
  pagefault 1 1 0 0 ex_two_regions_full
    = Halt (Panic "pagefault: couldn't allocate pages").
Proof. vm_compute. reflexivity. Qed.

(** * Further properties of the code *)

(** ** allocpg, decref and a failed copy *)

Lemma fill_slots_count pg : ∀ fl pg' used fl' ok,
  fill_slots pg fl = (pg', used, fl', ok) → 0 ∉ fl →
  if ok then used = take (empty_slots pg) fl ∧ fl' = drop (empty_slots pg) fl
            ∧ (empty_slots pg ≤ length fl)%nat
  else fl' = [] ∧ (length fl < empty_slots pg)%nat.
Proof.
  unfold empty_slots.
  induction pg as [|c pg IH]; intros fl pg' used fl' ok E H0; simpl in E.
  - injection E as <- <- <- <-. simpl. rewrite drop_0, take_0. split; [|split]; [done..|lia].
  - destruct (negb (c =? 0)) eqn:Ec.
    + apply negb_true_iff, Z.eqb_neq in Ec.
      rewrite filter_cons_False by exact Ec.
      destruct (fill_slots pg fl) as [[[a b] d] e] eqn:E1.
      injection E as <- <- <- <-. exact (IH _ _ _ _ _ E1 H0).
    + apply negb_false_iff, Z.eqb_eq in Ec. subst c.
      rewrite filter_cons_True by reflexivity. simpl.
      destruct fl as [|q fl1].
      * injection E as <- <- <- <-. split; [reflexivity|simpl; lia].
      * assert (q ≠ 0) by (intros ->; apply H0; left).
        replace (q =? 0) with false in E by (symmetry; apply Z.eqb_neq; assumption).
        assert (H1 : 0 ∉ fl1) by (intros Hin; apply H0; right; exact Hin).
        destruct (fill_slots pg fl1) as [[[a b] d] e] eqn:E1.
        injection E as <- <- <- <-.
        pose proof (IH _ _ _ _ _ E1 H1) as IH1.
        destruct e; simpl.
        -- destruct IH1 as (-> & -> & Hle). split; [|split]; [done..|lia].
        -- destruct IH1 as (-> & Hlt). split; [done|lia].
Qed.

Lemma fill_slots_resident pg : ∀ fl,
  Forall (λ p, p ≠ 0) pg → fill_slots pg fl = (pg, [], fl, true).
Proof.
  induction pg as [|c pg IH]; intros fl H; [reflexivity|].
  inversion H as [|? ? Hc Hrest]; subst. simpl.
  replace (c =? 0) with false by (symmetry; apply Z.eqb_neq; exact Hc). simpl.
  rewrite (IH fl Hrest). reflexivity.
Qed.



(** X2.  [allocpg] is idempotent: once it has returned 0, running it
    again returns 0 and changes nothing, whatever the allocator holds. *)
Theorem allocpg_twice this nd s s' :
  nodes s !! this = Some nd → node_wf nd →
  allocpg this s = Ok 0 s' →
  allocpg this s' = Ok 0 s'.
Proof.
  intros Hnd [Hnp Hlen] Hrun.
  rewrite (allocpg_spec this nd s Hnd Hlen) in Hrun by lia.
  destruct (fill_slots (page nd) (freelist s)) as [[[pg' used] fl'] ok] eqn:E.
  destruct ok; [|discriminate]. injection Hrun as <-.
  pose proof (fill_slots_full _ _ _ _ _ E) as Hfull.
  pose proof (fill_slots_length _ _ _ _ _ _ E) as Hl.
  set (s' := alloc_state this nd pg' used fl' s).
  assert (Hnd' : nodes s' !! this = Some (set_page nd pg')) by apply lookup_insert_eq.
  rewrite (allocpg_spec this (set_page nd pg') s' Hnd') by (simpl; lia).
  simpl. rewrite (fill_slots_resident pg' fl' Hfull).
  f_equal. unfold s', alloc_state. simpl. f_equal.
  rewrite insert_insert_eq. reflexivity.
Qed.

Lemma allocpg_twice_witness :
  allocpg 1 (state_of (allocpg 1 ex_half_state) ex_half_state)
  = Ok 0 (state_of (allocpg 1 ex_half_state) ex_half_state).
Proof.
  apply (allocpg_twice 1 ex_half_node ex_half_state).
  - vm_compute. reflexivity.
  - apply (bool_decide_unpack _); vm_compute; exact I.
  - vm_compute. reflexivity.
Defined.

Lemma free_pages_spec pg : ∀ s,
  free_pages pg s = Ok tt (set_freelist (λ fl, rev (resident pg) ++ fl) s).
Proof.
  unfold resident.
  induction pg as [|p pg IH]; intros s; simpl.
  - destruct s; reflexivity.
  - mrun. destruct (decide (p = 0)) as [->|Hp].
    + change (negb (0 =? 0)) with false. mrun. rewrite IH.
      rewrite filter_cons_False by (intros H; apply H; reflexivity). reflexivity.
    + replace (p =? 0) with false by (symmetry; apply Z.eqb_neq; exact Hp).
      simpl. unfold kfree, modify. mrun. rewrite IH.
      rewrite filter_cons_True by exact Hp. simpl.
      destruct s; unfold set_freelist; simpl. rewrite <- app_assoc. reflexivity.
Qed.

Lemma vmnode_delete_spec c nd s :
  nodes s !! c = Some nd → node_wf nd →
  vmnode_delete c s =
    Ok tt (mk_kstate (delete c (nodes s)) (vmaps s) (after_iput nd s) (mem s)
                     (rev (resident (page nd)) ++ freelist s) (tlbflushes s)).
Proof.
  intros H [Hnp Hlen]. unfold vmnode_delete. mrun. rewrite (deref_node_ok _ _ _ H). mrun.
  rewrite free_pages_spec. mrun.
  rewrite take_ge by lia.
  unfold after_iput. case_decide as Hip.
  - unfold iput. destruct (ip nd) as [i|]; [|contradiction].
    unfold modify. mrun. reflexivity.
  - destruct (ip nd) as [i|] eqn:E; [discriminate Hip|].
    unfold modify. mrun. reflexivity.
Qed.

(** [vmnode::decref] on the last reference. *)
Lemma vmnode_decref_last a nd s :
  nodes s !! a = Some nd → node_wf nd → ref nd = 1 →
  vmnode_decref a s =
    Ok tt (mk_kstate (delete a (nodes s)) (vmaps s) (after_iput nd s) (mem s)
                     (rev (resident (page nd)) ++ freelist s) (tlbflushes s)).
Proof.
  intros Hnd Hwf Href. unfold vmnode_decref. mrun.
  rewrite (deref_node_ok _ _ _ Hnd). mrun.
  rewrite Href. change (wrap64 (1 - 1)) with 0.
  unfold put_node, modify. mrun. change (0 =? 0) with true. cbv iota.
  rewrite (vmnode_delete_spec a (set_ref nd 0)).
  - simpl. rewrite delete_insert_eq. reflexivity.
  - simpl. apply lookup_insert_eq.
  - exact Hwf.
Qed.

(** X3.  [vmnode::decref] on the last reference destroys the node: it
    leaves the heap, every resident page goes back to the allocator, the
    file handle is released, and physical memory is not touched.  With
    other referrers left, only the count goes down. *)
Theorem vmnode_decref_outcome a nd s :
  nodes s !! a = Some nd → node_wf nd → 1 ≤ ref nd < 2 ^ 64 →
  ∃ s', vmnode_decref a s = Ok tt s' ∧
    vmaps s' = vmaps s ∧ mem s' = mem s ∧ tlbflushes s' = tlbflushes s ∧
    if decide (ref nd = 1)
    then nodes s' = delete a (nodes s) ∧
         freelist s' = rev (resident (page nd)) ++ freelist s ∧
         inodes s' = after_iput nd s
    else nodes s' = <[a := set_ref nd (ref nd - 1)]> (nodes s) ∧
         freelist s' = freelist s ∧ inodes s' = inodes s.
Proof.
  intros Hnd Hwf Href. case_decide as H1.
  - rewrite (vmnode_decref_last a nd s Hnd Hwf H1).
    eexists. split; [reflexivity|]. simpl. repeat split; reflexivity.
  - rewrite (vmnode_decref_keep a nd s Hnd)
      by (rewrite wrap64_small by lia; lia).
    eexists. split; [reflexivity|]. unfold bump_ref. simpl.
    rewrite wrap64_small by lia. repeat split; reflexivity.
Qed.

Lemma vmnode_decref_outcome_witness :
  ∃ s', vmnode_decref 1 ex_half_held = Ok tt s' ∧
    vmaps s' = vmaps ex_half_held ∧
    mem s' = mem ex_half_held ∧
    tlbflushes s' = tlbflushes ex_half_held ∧
    if decide (ref ex_half_held_node = 1)
    then nodes s' = delete 1%positive (nodes ex_half_held) ∧
         freelist s' = rev (resident (page ex_half_held_node))
                         ++ freelist ex_half_held ∧
         inodes s' = after_iput ex_half_held_node
                       ex_half_held
    else nodes s' = <[1%positive := set_ref ex_half_held_node
                                      (ref ex_half_held_node - 1)]>
                      (nodes ex_half_held) ∧
         freelist s' = freelist ex_half_held ∧
         inodes s' = inodes ex_half_held.
Proof.
  apply (vmnode_decref_outcome 1 ex_half_held_node ex_half_held).
  - vm_compute. reflexivity.
  - apply (bool_decide_unpack _); vm_compute; exact I.
  - vm_compute. split; [discriminate|reflexivity].
Defined.

Lemma fill_slots_drained (k : nat) : ∀ fl,
  (0 ∉ fl) → (length fl < k)%nat →
  fill_slots (replicate k 0) fl = (fl ++ replicate (k - length fl) 0, fl, [], false).
Proof.
  induction k as [|k IH]; intros fl H0 Hlt; [lia|]. simpl.
  destruct fl as [|q fl1]; [reflexivity|].
  assert (q ≠ 0) by (intros ->; apply H0; left).
  replace (q =? 0) with false by (symmetry; apply Z.eqb_neq; assumption).
  assert (H1 : 0 ∉ fl1) by (intros Hin; apply H0; right; exact Hin).
  simpl in Hlt. rewrite (IH fl1 H1) by lia. reflexivity.
Qed.

Lemma resident_app l1 l2 : resident (l1 ++ l2) = resident l1 ++ resident l2.
Proof. unfold resident. apply filter_app. Qed.

Lemma resident_zeros (k : nat) : resident (replicate k 0) = [].
Proof.
  unfold resident. induction k as [|k IH]; [reflexivity|]. simpl.
  rewrite filter_cons_False by (intros H; apply H; reflexivity). exact IH.
Qed.

Lemma resident_all l : (0 ∉ l) → resident l = l.
Proof.
  unfold resident. induction l as [|x l IH]; intros H; [reflexivity|].
  rewrite filter_cons_True by (intros ->; apply H; left).
  f_equal. apply IH. intros Hin. apply H. right. exact Hin.
Qed.

Lemma idup_iput_inodes nd s :
  (∀ i f, copy_ip nd = Some i → inodes s !! i = Some f → 0 ≤ iref f < 2 ^ 64 - 1) →
  after_iput (empty_dup nd) (after_idup nd s) = inodes s.
Proof.
  intros Hb. unfold after_iput, after_idup. simpl.
  destruct (copy_ip nd) as [i|] eqn:E; [|reflexivity]. simpl.
  apply map_eq. intros j.
  destruct (decide (i = j)) as [<-|Hne].
  - rewrite !lookup_alter_eq. destruct (inodes s !! i) as [f|] eqn:Ef; [|reflexivity].
    simpl. f_equal. destruct f as [d r]. simpl. f_equal.
    specialize (Hb i _ eq_refl Ef). simpl in Hb.
    rewrite (wrap64_small (r + 1)) by lia. rewrite wrap64_small by lia. lia.
  - rewrite !lookup_alter_ne by exact Hne. reflexivity.
Qed.

(** X4.  A [vmnode::copy] that runs out of pages leaks nothing: it
    returns null, the heap of nodes and the files' reference counts are as
    before, and every page it had taken is back in the allocator. *)
Theorem vmnode_copy_failure_releases this nd s p0 :
  nodes s !! this = Some nd → node_wf nd →
  page nd !! 0%nat = Some p0 → p0 ≠ 0 →
  (0 ∉ freelist s) →
  Z.of_nat (length (freelist s)) < npages nd →
  (∀ i f, copy_ip nd = Some i → inodes s !! i = Some f → 0 ≤ iref f < 2 ^ 64 - 1) →
  ∃ s', vmnode_copy this s = Ok None s' ∧
    nodes s' = nodes s ∧ vmaps s' = vmaps s ∧ inodes s' = inodes s ∧
    freelist s' = rev (freelist s) ∧ tlbflushes s' = tlbflushes s.
Proof.
  intros Hnd Hwf H0 Hp0 Hz Hshort Hino. pose proof Hwf as [Hnp Hlen].
  rewrite (vmnode_copy_start this nd s Hnd Hwf). cbv zeta. mrun.
  rewrite (slot_ok nd 0%nat p0 H0) by (apply lookup_lt_Some in H0; simpl; lia). mrun.
  replace (p0 =? 0) with false by (symmetry; apply Z.eqb_neq; exact Hp0).
  pose proof (fresh_node_None s) as Hfresh.
  set (c := fresh_node s) in *.
  set (s1 := set_nodes _ _). mrun.
  assert (Hc1 : nodes s1 !! c = Some (empty_dup nd)) by apply lookup_insert_eq.
  rewrite (allocpg_spec _ (empty_dup nd) s1 Hc1)
    by (simpl; rewrite ?length_replicate; lia).
  assert (Hfl : freelist s1 = freelist s) by apply after_idup_freelist.
  rewrite Hfl. cbn [empty_dup page].
  rewrite (fill_slots_drained _ _ Hz) by lia.
  cbv beta iota zeta. change (-1 <? 0) with true. mrun.
  set (pg' := freelist s ++ _).
  rewrite (vmnode_delete_spec c (set_page (empty_dup nd) pg')).
  - mrun. eexists. split; [reflexivity|]. simpl.
    rewrite insert_insert_eq, delete_insert_eq, after_idup_nodes.
    rewrite delete_id by exact Hfresh.
    rewrite after_idup_vmaps, after_idup_tlb.
    split; [reflexivity|]. split; [reflexivity|]. split.
    + change (after_iput (set_page (empty_dup nd) pg')
                (alloc_state c (empty_dup nd) pg' (freelist s) [] s1))
        with (after_iput (empty_dup nd) (after_idup nd s)).
      apply idup_iput_inodes. exact Hino.
    + split; [|reflexivity]. unfold pg'.
      rewrite resident_app, resident_zeros, app_nil_r, app_nil_r.
      rewrite resident_all by exact Hz. reflexivity.
  - simpl. apply lookup_insert_eq.
  - split; simpl; [lia|]. unfold pg'. rewrite length_app, length_replicate. lia.
Qed.

Lemma vmnode_copy_failure_releases_witness :
  ∃ s', vmnode_copy 1 ex_wide_state = Ok None s' ∧
    nodes s' = nodes ex_wide_state ∧ vmaps s' = vmaps ex_wide_state ∧
    inodes s' = inodes ex_wide_state ∧
    freelist s' = rev (freelist ex_wide_state) ∧
    tlbflushes s' = tlbflushes ex_wide_state.
Proof.
  apply (vmnode_copy_failure_releases 1 ex_wide_node ex_wide_state (pg 0)).
  - vm_compute. reflexivity.
  - apply (bool_decide_unpack _); vm_compute; exact I.
  - reflexivity.
  - vm_compute. discriminate.
  - apply (bool_decide_unpack _); vm_compute; exact I.
  - vm_compute. reflexivity.
  - intros i f H. discriminate H.
Defined.

(** ** lookup, insert and remove *)

(** X5.  [vmap::lookup] on a range that does not wrap around leaves the
    state alone and returns a region of the index that overlaps the range,
    or null exactly when no region of the index overlaps it. *)
Theorem lookup_outcome this mp start len s :
  vmaps s !! this = Some mp → Forall range_ok (cr mp) →
  0 ≤ start → 0 ≤ len → start + len < 2 ^ 64 →
  ∃ r, lookup this start len s = Ok r s ∧
    match r with
    | Some e => e ∈ cr mp ∧ vma_start e < start + len ∧ start < vma_end e
    | None => ∀ e, e ∈ cr mp → start + len ≤ vma_start e ∨ vma_end e ≤ start
    end.
Proof.
  intros Hmp Hok H0 Hlen Hsum. unfold lookup.
  rewrite wrap64_small by lia.
  replace (start + len <? start) with false by (symmetry; apply Z.ltb_ge; lia).
  mrun. rewrite (deref_vmap_ok _ _ _ Hmp). mrun.
  destruct (span_of (cr mp) start len) as [|e rest] eqn:E; cbn [head].
  - exists None. split; [reflexivity|]. intros e He.
    apply span_of_nil_inv in E.
    pose proof (proj1 (Forall_forall _ _) E e He) as Hno. simpl in Hno.
    unfold overlaps in Hno. apply andb_false_iff in Hno.
    rewrite !Z.ltb_ge in Hno. lia.
  - assert (Hin : e ∈ span_of (cr mp) start len) by (rewrite E; left).
    apply elem_of_span_of in Hin as [He Hov].
    apply overlaps_spec in Hov.
    pose proof (proj1 (Forall_forall _ _) Hok e He) as (Hr0 & Hr1 & Hr2).
    replace (vma_end e <=? vma_start e) with false by (symmetry; apply Z.leb_gt; lia).
    replace (vma_start e <? start + len) with true by (symmetry; apply Z.ltb_lt; lia).
    replace (start <? vma_end e) with true by (symmetry; apply Z.ltb_lt; lia).
    exists (Some e). split; [reflexivity|]. split; [exact He|]. lia.
Qed.

Lemma lookup_outcome_witness :
  ∃ r, lookup 1 4096 8192 ex_two_regions = Ok r ex_two_regions ∧
    match r with
    | Some e => e ∈ cr ex_two_vmap ∧ vma_start e < 4096 + 8192 ∧ 4096 < vma_end e
    | None => ∀ e, e ∈ cr ex_two_vmap → 4096 + 8192 ≤ vma_start e ∨ vma_end e ≤ 4096
    end.
Proof.
  apply (lookup_outcome 1 ex_two_vmap 4096 8192 ex_two_regions).
  - vm_compute. reflexivity.
  - apply (bool_decide_unpack _); vm_compute; exact I.
  - lia.
  - lia.
  - lia.
Defined.

(** X6.  [vmap::lookup] panics, before it looks at the index, when the
    end of the range wraps around the 64-bit address space. *)
Theorem lookup_bad_len this start len s :
  0 ≤ start < 2 ^ 64 → 0 ≤ len < 2 ^ 64 → 2 ^ 64 ≤ start + len →
  lookup this start len s = Halt (Panic "vmap::lookup bad len").
Proof.
  intros Hs Hl Hsum. unfold lookup, wrap64.
  assert (E : (start + len) mod 2 ^ 64 = start + len - 2 ^ 64).
  { symmetry. apply (Z.mod_unique _ _ 1); lia. }
  rewrite E.
  replace (start + len - 2 ^ 64 <? start) with true by (symmetry; apply Z.ltb_lt; lia).
  reflexivity.
Qed.

Lemma lookup_bad_len_witness :
  lookup 1 (2 ^ 64 - 4096) 4096 ex_two_regions = Halt (Panic "vmap::lookup bad len").
Proof. apply lookup_bad_len; lia. Defined.

Lemma clear_cb_unlocked v : Z.land v PTE_LOCK = 0 → clear_cb v = Some (0, false).
Proof.
  intros H. unfold clear_cb, cmpxch_cell. rewrite H. simpl.
  rewrite Z.eqb_refl. reflexivity.
Qed.

Lemma clear_cb_inv v r : clear_cb v = Some r → r = (0, false).
Proof.
  unfold clear_cb, cmpxch_cell. destruct (negb (Z.land v PTE_LOCK =? 0)); [discriminate|].
  rewrite Z.eqb_refl. intros [= <-]. reflexivity.
Qed.

Lemma updatepages_clear this b e mp s :
  vmaps s !! this = Some mp → unlocked b e (pml4 mp) →
  updatepages this b e clear_cb s =
    Ok false (set_vmaps <[this := set_pml4 mp (cleared b e (pml4 mp))]> s).
Proof.
  intros Hmp Hun. unfold updatepages. mrun. rewrite (deref_vmap_ok _ _ _ Hmp). mrun.
  set (touched := filter _ _).
  assert (Hall : ∀ kv, kv ∈ touched → clear_cb kv.2 = Some (0, false)).
  { intros [k v] Hkv. unfold touched in Hkv. apply list_elem_of_filter in Hkv as [Hin Hkv].
    apply elem_of_map_to_list in Hkv. simpl in *.
    apply clear_cb_unlocked. apply (Hun k v Hkv). apply Is_true_true, Hin. }
  replace (forallb _ touched) with true.
  2:{ symmetry. apply forallb_forall. intros kv Hkv. apply list_elem_of_In in Hkv.
      rewrite (Hall kv Hkv). apply bool_decide_eq_true_2. eauto. }
  unfold put_vmap, modify. mrun.
  replace (existsb _ touched) with false.
  2:{ symmetry. apply not_true_is_false. intros Hex.
      apply existsb_exists in Hex as (kv & Hkv & Hfl). apply list_elem_of_In in Hkv.
      rewrite (Hall kv Hkv) in Hfl. discriminate. }
  do 4 f_equal. unfold cleared. apply map_eq. intros k. rewrite !map_lookup_imap.
  destruct (pml4 mp !! k) as [v|] eqn:Ek; [|reflexivity]. simpl.
  destruct (in_pages b e k) eqn:Ein; [|reflexivity].
  rewrite (clear_cb_unlocked v (Hun k v Ek Ein)). reflexivity.
Qed.

Lemma cr_wf_perm l1 l2 : l1 ≡ₚ l2 → cr_wf l1 → cr_wf l2.
Proof.
  intros Hp (Hnd & Hr & Hd). split; [rewrite <- Hp; exact Hnd|].
  split; [rewrite <- Hp; exact Hr|].
  intros r1 r2 H1 H2. rewrite <- Hp in H1, H2. apply Hd; assumption.
Qed.

Lemma cr_wf_cons e l :
  cr_wf l → range_ok e → (∀ r, r ∈ l → disjoint e r) → cr_wf (e :: l).
Proof.
  intros (Hnd & Hr & Hd) He Hdis. split; [|split].
  - apply NoDup_cons. split; [|exact Hnd]. intros Hin.
    pose proof (Hdis e Hin) as H. destruct He as (? & ? & ?). unfold disjoint in H. lia.
  - constructor; assumption.
  - intros r1 r2 H1 H2 Hne.
    apply elem_of_cons in H1 as [->|H1]; apply elem_of_cons in H2 as [->|H2].
    + contradiction.
    + apply Hdis, H2.
    + apply disjoint_sym, Hdis, H1.
    + apply Hd; assumption.
Qed.


(** [vmap::insert] when nothing overlaps the target range. *)
Lemma insert_vma_run this a nd mp start dotlb s :
  vmaps s !! this = Some mp → nodes s !! a = Some nd → node_wf nd →
  0 ≤ start → start + npages nd * PGSIZE < 2 ^ 64 →
  0 ≤ ref nd < 2 ^ 64 - 1 →
  (∀ r, r ∈ cr mp → start + npages nd * PGSIZE ≤ vma_start r ∨ vma_end r ≤ start) →
  unlocked start (start + npages nd * PGSIZE) (pml4 mp) →
  insert_vma this (Some a) start dotlb s = Ok 0 (insert_state this a nd mp start s).
Proof.
  intros Hmp Hnd [Hnp Hlen] H0 Hend Href Hfree Hun.
  unfold NELEM_page in Hnp. unfold PGSIZE in *.
  unfold insert_vma. mrun. rewrite (deref_node_ok _ _ _ Hnd). mrun.
  rewrite (deref_vmap_ok _ _ _ Hmp). mrun.
  rewrite (wrap64_small (npages nd * PGSIZE)) by (unfold PGSIZE; lia).
  assert (Hno : Forall (λ r, overlaps start (npages nd * PGSIZE) r = false) (cr mp)).
  { apply Forall_forall. intros r Hr. unfold overlaps, PGSIZE.
    apply andb_false_iff. rewrite !Z.ltb_ge. specialize (Hfree r Hr). lia. }
  rewrite (span_of_none _ _ _ Hno).
  unfold vma_new. mrun. rewrite (vmnode_incref_eq a nd s Hnd). mrun.
  rewrite (wrap64_small (start + npages nd * PGSIZE)) by (unfold PGSIZE; lia).
  rewrite (span_replace_eq this start (npages nd * PGSIZE) _ mp) by exact Hmp.
  rewrite (span_of_none _ _ _ Hno), (outside_all _ _ _ Hno).
  cbn [vma_delete_all]. mrun. cbn [vma_start vma_end].
  rewrite (updatepages_clear this _ _ (set_cr mp (cr_insert
             (mk_vma start (start + npages nd * PGSIZE) PRIVATE (Some a)) (cr mp)))).
  - mrun. cbn [andb]. mrun. unfold insert_state, inserted_vma, bump_ref. simpl.
    unfold set_vmaps, set_nodes, set_pml4, set_cr. simpl.
    rewrite insert_insert_eq. rewrite (wrap64_small (ref nd + 1)) by lia.
    reflexivity.
  - simpl. apply lookup_insert_eq.
  - simpl. unfold PGSIZE. exact Hun.
Qed.

Lemma small_bits_above a (k : Z) : 0 ≤ a < 2 ^ 64 → 64 ≤ k → Z.testbit a k = false.
Proof.
  intros Ha Hk. destruct (decide (a = 0)) as [->|Hne]; [apply Z.bits_0|].
  apply Z.bits_above_log2; [lia|].
  assert (Z.log2 a < 64) by (apply Z.log2_lt_pow2; lia). lia.
Qed.

Lemma PGROUNDDOWN_eq a : 0 ≤ a < 2 ^ 64 → PGROUNDDOWN a = PGSIZE * (a / PGSIZE).
Proof.
  intros Ha. unfold PGROUNDDOWN, PGSIZE.
  change (Z.lnot (4096 - 1) mod 2 ^ 64) with (Z.shiftl (Z.ones 52) 12).
  change 4096 with (2 ^ 12). rewrite <- Z.shiftr_div_pow2 by lia.
  rewrite Z.mul_comm, <- Z.shiftl_mul_pow2 by lia.
  apply Z.bits_inj'. intros k Hk.
  rewrite Z.land_spec.
  destruct (Z.lt_ge_cases k 12) as [Hlt|Hge].
  - rewrite !Z.shiftl_spec_low by lia. apply andb_false_r.
  - rewrite !Z.shiftl_spec by lia. rewrite Z.shiftr_spec by lia.
    replace (k - 12 + 12) with k by lia.
    destruct (Z.lt_ge_cases k 64) as [H64|H64].
    + rewrite Z.ones_spec_low by lia. apply andb_true_r.
    + rewrite (small_bits_above a k Ha H64). reflexivity.
Qed.

Lemma PGROUNDDOWN_range a :
  0 ≤ a < 2 ^ 64 → PGROUNDDOWN a ≤ a < PGROUNDDOWN a + PGSIZE.
Proof.
  intros Ha. rewrite (PGROUNDDOWN_eq a Ha). unfold PGSIZE.
  pose proof (Z.div_mod a 4096 ltac:(lia)). pose proof (Z.mod_pos_bound a 4096 ltac:(lia)).
  lia.
Qed.

Lemma in_pages_inside b e va :
  0 ≤ b → b ≤ va < e → e + PGSIZE ≤ 2 ^ 64 →
  in_pages b e (walkpgdir va) = true.
Proof.
  intros Hb Hva He. unfold in_pages, walkpgdir, PGROUNDUP. unfold PGSIZE in *.
  rewrite (wrap64_small (e + 4096 - 1)) by lia.
  rewrite !PGROUNDDOWN_eq by lia. unfold PGSIZE.
  rewrite !(Z.mul_comm 4096), !Z.div_mul by lia.
  apply andb_true_iff. rewrite Z.leb_le, Z.ltb_lt. split.
  - apply Z.div_le_mono; lia.
  - apply Z.div_lt_upper_bound; [lia|].
    pose proof (Z.div_mod (e + 4096 - 1) 4096 ltac:(lia)).
    pose proof (Z.mod_pos_bound (e + 4096 - 1) 4096 ltac:(lia)). lia.
Qed.

Lemma cleared_lookup b e pt k :
  cleared b e pt !! k =
    (λ v, if in_pages b e k then 0 else v) <$> pt !! k.
Proof.
  unfold cleared. rewrite map_lookup_imap.
  destruct (pt !! k) as [v|]; [|reflexivity]. simpl.
  destruct (in_pages b e k); reflexivity.
Qed.

Lemma inserted_range_ok a nd start :
  0 ≤ start → 0 < npages nd → start + npages nd * PGSIZE ≤ USERTOP →
  range_ok (inserted_vma a nd start).
Proof. intros H0 H1 H2. unfold range_ok, inserted_vma, PGSIZE in *. simpl. lia. Qed.

Lemma insert_state_wf a nd (mp : vmap) start :
  cr_wf (cr mp) →
  0 ≤ start → 0 < npages nd → start + npages nd * PGSIZE ≤ USERTOP →
  (∀ r, r ∈ cr mp → start + npages nd * PGSIZE ≤ vma_start r ∨ vma_end r ≤ start) →
  cr_wf (cr_insert (inserted_vma a nd start) (cr mp)).
Proof.
  intros Hwf H0 H1 H2 Hfree.
  apply (cr_wf_perm (inserted_vma a nd start :: cr mp)).
  { symmetry. apply cr_insert_perm. }
  apply cr_wf_cons; [exact Hwf|apply inserted_range_ok; assumption|].
  intros r Hr. unfold disjoint, inserted_vma. simpl.
  destruct (Hfree r Hr); [left|right]; assumption.
Qed.

(** X7.  [vmap::insert] into a free range succeeds: it returns 0, the
    index gains one PRIVATE region over the node for
    [start, start + npages * PGSIZE) and stays well formed, the node
    gains one reference, and physical memory, the allocator and the files
    are as they were. *)
Theorem insert_maps_region this a nd mp start dotlb s :
  vmaps s !! this = Some mp → nodes s !! a = Some nd → node_wf nd →
  cr_wf (cr mp) →
  0 ≤ start → 0 < npages nd → start + npages nd * PGSIZE ≤ USERTOP →
  0 ≤ ref nd < 2 ^ 64 - 1 →
  (∀ r, r ∈ cr mp → start + npages nd * PGSIZE ≤ vma_start r ∨ vma_end r ≤ start) →
  unlocked start (start + npages nd * PGSIZE) (pml4 mp) →
  ∃ s' mp',
    insert_vma this (Some a) start dotlb s = Ok 0 s' ∧
    vmaps s' = <[this := mp']> (vmaps s) ∧
    cr mp' ≡ₚ inserted_vma a nd start :: cr mp ∧ cr_wf (cr mp') ∧
    vref mp' = vref mp ∧
    nodes s' = <[a := set_ref nd (ref nd + 1)]> (nodes s) ∧
    mem s' = mem s ∧ freelist s' = freelist s ∧ inodes s' = inodes s.
Proof.
  intros Hmp Hnd Hwf Hcr H0 H1 H2 Href Hfree Hun.
  eexists _, _. split.
  { apply (insert_vma_run this a nd mp start dotlb s); try assumption.
    unfold USERTOP in H2. lia. }
  split; [reflexivity|]. simpl.
  split; [apply cr_insert_perm|].
  split; [apply insert_state_wf; assumption|].
  repeat split; reflexivity.
Qed.

Lemma insert_maps_region_witness :
  ∃ s' mp',
    insert_vma 1 (Some 3%positive) 4096 true ex_two_regions = Ok 0 s' ∧
    vmaps s' = <[1%positive := mp']> (vmaps ex_two_regions) ∧
    cr mp' ≡ₚ inserted_vma 3 ex_spare_node 4096 :: cr ex_two_vmap ∧ cr_wf (cr mp') ∧
    vref mp' = vref ex_two_vmap ∧
    nodes s' = <[3%positive := set_ref ex_spare_node (ref ex_spare_node + 1)]>
                 (nodes ex_two_regions) ∧
    mem s' = mem ex_two_regions ∧ freelist s' = freelist ex_two_regions ∧
    inodes s' = inodes ex_two_regions.
Proof.
  apply (insert_maps_region 1 3 ex_spare_node ex_two_vmap 4096 true ex_two_regions).
  - vm_compute. reflexivity.
  - vm_compute. reflexivity.
  - apply (bool_decide_unpack _); vm_compute; exact I.
  - apply cr_ok_wf. vm_compute. reflexivity.
  - lia.
  - reflexivity.
  - vm_compute. discriminate.
  - vm_compute. split; [discriminate|reflexivity].
  - apply (proj1 (Forall_forall _ _)).
    apply (bool_decide_unpack _); vm_compute; exact I.
  - apply (bool_decide_unpack _); vm_compute; exact I.
Defined.

(** X8.  Round trip of insert and lookup: after a successful
    [vmap::insert], [vmap::lookup] of every address of the new range
    returns the new region, and the addresses of the regions that were
    mapped before still resolve to them. *)
Theorem insert_then_lookup this a nd mp start dotlb s :
  vmaps s !! this = Some mp → nodes s !! a = Some nd → node_wf nd →
  cr_wf (cr mp) →
  0 ≤ start → 0 < npages nd → start + npages nd * PGSIZE ≤ USERTOP →
  0 ≤ ref nd < 2 ^ 64 - 1 →
  (∀ r, r ∈ cr mp → start + npages nd * PGSIZE ≤ vma_start r ∨ vma_end r ≤ start) →
  unlocked start (start + npages nd * PGSIZE) (pml4 mp) →
  ∃ s',
    insert_vma this (Some a) start dotlb s = Ok 0 s' ∧
    (∀ va, start ≤ va < start + npages nd * PGSIZE →
       lookup this va 1 s' = Ok (Some (inserted_vma a nd start)) s') ∧
    (∀ m va, m ∈ cr mp → vma_start m ≤ va < vma_end m →
       lookup this va 1 s' = Ok (Some m) s').
Proof.
  intros Hmp Hnd Hwf Hcr H0 H1 H2 Href Hfree Hun.
  eexists. split.
  { apply (insert_vma_run this a nd mp start dotlb s); try assumption.
    unfold USERTOP in H2. lia. }
  pose proof (insert_state_wf a nd mp start Hcr H0 H1 H2 Hfree) as Hwf'.
  split.
  - intros va Hva. eapply lookup_found.
    + simpl. apply lookup_insert_eq.
    + exact Hwf'.
    + simpl. apply elem_of_cr_insert. left. reflexivity.
    + exact Hva.
  - intros m va Hm Hva. eapply lookup_found.
    + simpl. apply lookup_insert_eq.
    + exact Hwf'.
    + simpl. apply elem_of_cr_insert. right. exact Hm.
    + exact Hva.
Qed.

Lemma insert_then_lookup_witness :
  ∃ s',
    insert_vma 1 (Some 3%positive) 4096 true ex_two_regions = Ok 0 s' ∧
    (∀ va, 4096 ≤ va < 4096 + npages ex_spare_node * PGSIZE →
       lookup 1 va 1 s' = Ok (Some (inserted_vma 3 ex_spare_node 4096)) s') ∧
    (∀ m va, m ∈ cr ex_two_vmap → vma_start m ≤ va < vma_end m →
       lookup 1 va 1 s' = Ok (Some m) s').
Proof.
  apply (insert_then_lookup 1 3 ex_spare_node ex_two_vmap 4096 true ex_two_regions).
  - vm_compute. reflexivity.
  - vm_compute. reflexivity.
  - apply (bool_decide_unpack _); vm_compute; exact I.
  - apply cr_ok_wf. vm_compute. reflexivity.
  - lia.
  - reflexivity.
  - vm_compute. discriminate.
  - vm_compute. split; [discriminate|reflexivity].
  - apply (proj1 (Forall_forall _ _)).
    apply (bool_decide_unpack _); vm_compute; exact I.
  - apply (bool_decide_unpack _); vm_compute; exact I.
Defined.

(** X9.  A successful [vmap::insert] leaves every page-table entry of
    the new range zero and the entries of other pages as they were. *)
Theorem insert_clears_entries this a nd mp start dotlb s :
  vmaps s !! this = Some mp → nodes s !! a = Some nd → node_wf nd →
  0 ≤ start → start + npages nd * PGSIZE ≤ USERTOP →
  0 ≤ ref nd < 2 ^ 64 - 1 →
  (∀ r, r ∈ cr mp → start + npages nd * PGSIZE ≤ vma_start r ∨ vma_end r ≤ start) →
  unlocked start (start + npages nd * PGSIZE) (pml4 mp) →
  ∃ s' mp',
    insert_vma this (Some a) start dotlb s = Ok 0 s' ∧
    vmaps s' !! this = Some mp' ∧
    (∀ va, start ≤ va < start + npages nd * PGSIZE → pte_of mp' va = 0) ∧
    (∀ k, in_pages start (start + npages nd * PGSIZE) k = false →
       pml4 mp' !! k = pml4 mp !! k).
Proof.
  intros Hmp Hnd Hwf H0 H2 Href Hfree Hun. unfold USERTOP in H2.
  eexists _, _. split.
  { apply (insert_vma_run this a nd mp start dotlb s); try assumption. lia. }
  split; [simpl; apply lookup_insert_eq|]. simpl. split.
  - intros va Hva. unfold pte_of. simpl. rewrite cleared_lookup.
    rewrite in_pages_inside by (unfold PGSIZE in *; lia).
    destruct (pml4 mp !! walkpgdir va); reflexivity.
  - intros k Hk. rewrite cleared_lookup, Hk.
    destruct (pml4 mp !! k); reflexivity.
Qed.

Lemma insert_clears_entries_witness :
  ∃ s' mp',
    insert_vma 1 (Some 3%positive) 4096 true ex_stale_state = Ok 0 s' ∧
    vmaps s' !! 1%positive = Some mp' ∧
    (∀ va, 4096 ≤ va < 4096 + npages ex_spare_node * PGSIZE → pte_of mp' va = 0) ∧
    (∀ k, in_pages 4096 (4096 + npages ex_spare_node * PGSIZE) k = false →
       pml4 mp' !! k = pml4 ex_stale_vmap !! k).
Proof.
  apply (insert_clears_entries 1 3 ex_spare_node ex_stale_vmap 4096 true ex_stale_state).
  - vm_compute. reflexivity.
  - vm_compute. reflexivity.
  - apply (bool_decide_unpack _); vm_compute; exact I.
  - lia.
  - vm_compute. discriminate.
  - vm_compute. split; [discriminate|reflexivity].
  - apply (proj1 (Forall_forall _ _)).
    apply (bool_decide_unpack _); vm_compute; exact I.
  - apply (bool_decide_unpack _); vm_compute; exact I.
Defined.

Lemma vmnode_decref_frame a s s' :
  vmnode_decref a s = Ok tt s' →
  vmaps s' = vmaps s ∧ tlbflushes s' = tlbflushes s.
Proof.
  intros H. destruct (nodes s !! a) as [nd|] eqn:E.
  - destruct (vmnode_decref_any a nd s E) as (s2 & E2 & A & B & _).
    rewrite E2 in H. injection H as <-. split; assumption.
  - unfold vmnode_decref, deref_node in H. rewrite bind_eq, E in H. discriminate.
Qed.

Lemma vma_delete_all_frame l : ∀ s s',
  vma_delete_all l s = Ok tt s' →
  vmaps s' = vmaps s ∧ tlbflushes s' = tlbflushes s.
Proof.
  induction l as [|v l IH]; intros s s' H; simpl in H.
  - injection H as <-. split; reflexivity.
  - rewrite bind_eq in H. destruct (vma_delete v s) as [[] s1|] eqn:E; [|discriminate].
    specialize (IH _ _ H) as [A B]. rewrite A, B.
    unfold vma_delete in E. destruct (n v) as [a|].
    + apply vmnode_decref_frame in E. exact E.
    + injection E as <-. split; reflexivity.
Qed.

Lemma clear_cb_some v : is_Some (clear_cb v) → Z.land v PTE_LOCK = 0.
Proof.
  unfold clear_cb. destruct (Z.land v PTE_LOCK =? 0) eqn:E.
  - intros _. apply Z.eqb_eq, E.
  - simpl. intros [x Hx]. discriminate.
Qed.

Lemma updatepages_clear_inv this b e s r s' :
  updatepages this b e clear_cb s = Ok r s' →
  ∃ mp, vmaps s !! this = Some mp ∧ unlocked b e (pml4 mp) ∧ r = false ∧
    s' = set_vmaps <[this := set_pml4 mp (cleared b e (pml4 mp))]> s.
Proof.
  intros H. pose proof H as H'. unfold updatepages in H. rewrite bind_eq in H.
  destruct (deref_vmap this s) as [mp s0|] eqn:E; [|discriminate].
  apply deref_vmap_inv in E as [-> Hmp]. cbv beta iota zeta in H.
  destruct (forallb _ _) eqn:Eall; [|discriminate]. clear H.
  assert (Hun : unlocked b e (pml4 mp)).
  { intros k v Hkv Hin. apply clear_cb_some.
    rewrite forallb_forall in Eall.
    specialize (Eall (k, v)). simpl in Eall.
    assert (Hm : In (k, v) (filter (λ kv : Z * Z, in_pages b e kv.1)
                                   (map_to_list (pml4 mp)))).
    { apply list_elem_of_In, list_elem_of_filter.
      split; [simpl; rewrite Hin; exact I|]. apply elem_of_map_to_list, Hkv. }
    apply Eall in Hm. apply bool_decide_eq_true_1 in Hm. exact Hm. }
  rewrite (updatepages_clear this b e mp s Hmp Hun) in H'. injection H' as <- <-.
  exists mp. repeat split; assumption.
Qed.

(** X10.  Sequentially, neither [vmap::insert] nor [vmap::remove] ever
    invalidates the TLB, whatever entries they clear: the flag that asks
    for the flush is only set when the compare-and-swap of an entry
    fails. *)
Theorem insert_remove_never_flush this nn start len dotlb s r s' :
  insert_vma this nn start dotlb s = Ok r s' ∨ remove_vma this start len s = Ok r s' →
  tlbflushes s' = tlbflushes s.
Proof.
  intros [H|H].
  - unfold insert_vma in H. rewrite bind_eq in H.
    destruct (deref_node nn s) as [nd s0|] eqn:E; [|discriminate].
    apply deref_node_inv in E as [-> (a & -> & Hnd)]. rewrite bind_eq in H.
    destruct (deref_vmap this s) as [mp s0|] eqn:E; [|discriminate].
    apply deref_vmap_inv in E as [-> Hmp]. cbv beta iota zeta in H.
    destruct (span_of _ _ _) eqn:Espan; [|injection H as <- <-; reflexivity].
    unfold vma_new in H. mrun_in H.
    rewrite (vmnode_incref_eq a nd s Hnd) in H. mrun_in H.
    rewrite (span_replace_eq this _ _ _ mp) in H by exact Hmp.
    rewrite Espan in H. cbn [vma_delete_all] in H. mrun_in H.
    destruct (updatepages _ _ _ _ _) as [fl s1|] eqn:Eup; [|discriminate].
    apply updatepages_clear_inv in Eup as (mp1 & _ & _ & -> & ->).
    cbn [andb] in H. mrun_in H. injection H as <- <-. reflexivity.
  - unfold remove_vma in H. rewrite bind_eq in H.
    destruct (deref_vmap this s) as [mp s0|] eqn:E; [|discriminate].
    apply deref_vmap_inv in E as [-> Hmp]. cbv beta iota zeta in H.
    destruct (existsb _ _); [injection H as <- <-; reflexivity|].
    rewrite bind_eq in H.
    rewrite (span_replace_eq this _ _ _ mp) in H by exact Hmp.
    destruct (vma_delete_all _ _) as [[] s1|] eqn:Edel; [|discriminate].
    apply vma_delete_all_frame in Edel as [_ Htlb]. simpl in Htlb.
    mrun_in H.
    destruct (updatepages _ _ _ _ _) as [fl s2|] eqn:Eup; [|discriminate].
    apply updatepages_clear_inv in Eup as (mp1 & _ & _ & -> & ->).
    mrun_in H. injection H as <- <-. simpl. exact Htlb.
Qed.

Lemma insert_remove_never_flush_witness :
  tlbflushes ex_unmapped_state = tlbflushes ex_touched_state.
Proof.
  apply (insert_remove_never_flush 1 None 0 4096 true ex_touched_state 0).
  right. vm_compute. reflexivity.
Defined.

(** The entry that [remove] clears without a flush in the example was
    present, user and writable. *)
Lemma ex_touched_entry :
  vmaps ex_touched_state !! 1%positive = Some ex_touched_vmap ∧
  Z.land (pte_of ex_touched_vmap 0) PTE_PUW = PTE_PUW ∧
  (λ mp, pte_of mp 0) <$> vmaps ex_unmapped_state !! 1%positive = Some 0.
Proof. vm_compute. repeat split. Qed.

Lemma span_outside_miss start len l va :
  0 ≤ start → start ≤ va < start + len →
  span_of (outside start len l) va 1 = [].
Proof.
  intros H0 Hva. apply span_of_none, Forall_forall. intros r Hr.
  unfold outside in Hr. apply list_elem_of_filter in Hr as [Hno _].
  destruct (overlaps va 1 r) eqn:E; [|reflexivity]. exfalso. apply Hno.
  apply overlaps_spec in E. apply Is_true_true, overlaps_spec. lia.
Qed.

Lemma lookup_miss this mp va s :
  vmaps s !! this = Some mp → 0 ≤ va → va + 1 < 2 ^ 64 →
  span_of (cr mp) va 1 = [] →
  lookup this va 1 s = Ok None s.
Proof.
  intros Hmp H0 H1 Hspan. unfold lookup. rewrite wrap64_small by lia.
  replace (va + 1 <? va) with false by (symmetry; apply Z.ltb_ge; lia).
  mrun. rewrite (deref_vmap_ok _ _ _ Hmp). mrun. rewrite Hspan. reflexivity.
Qed.

(** X11.  When [vmap::remove] returns 0, the regions that overlapped
    [start, start+len) have left the index and the others are still in it;
    afterwards [vmap::lookup] finds nothing at any address of the range and
    the entries of the range are zero. *)
Theorem remove_unmaps this mp start len s s' :
  vmaps s !! this = Some mp →
  0 ≤ start → 0 ≤ len → start + len + PGSIZE ≤ 2 ^ 64 →
  remove_vma this start len s = Ok 0 s' →
  ∃ mp', vmaps s' = <[this := mp']> (vmaps s) ∧
    (∀ e, e ∈ cr mp' ↔
          e ∈ cr mp ∧ (start + len ≤ vma_start e ∨ vma_end e ≤ start)) ∧
    (∀ va, start ≤ va < start + len →
       lookup this va 1 s' = Ok None s' ∧ pte_of mp' va = 0).
Proof.
  intros Hmp H0 Hlen Hend H. unfold PGSIZE in Hend.
  unfold remove_vma in H. rewrite bind_eq in H.
  rewrite (deref_vmap_ok _ _ _ Hmp) in H. cbv beta iota zeta in H.
  destruct (existsb _ _); [discriminate|]. rewrite bind_eq in H.
  rewrite (span_replace_eq this _ _ _ mp) in H by exact Hmp.
  destruct (vma_delete_all _ _) as [[] s1|] eqn:Edel; [|discriminate].
  apply vma_delete_all_frame in Edel as [Hv1 _]. simpl in Hv1.
  mrun_in H. rewrite (wrap64_small (start + len)) in H by lia.
  destruct (updatepages _ _ _ _ _) as [fl s2|] eqn:Eup; [|discriminate].
  apply updatepages_clear_inv in Eup as (mp1 & Hmp1 & _ & -> & ->).
  mrun_in H. injection H as <-.
  rewrite Hv1, lookup_insert_eq in Hmp1. injection Hmp1 as <-.
  eexists. split.
  { simpl. rewrite Hv1, insert_insert_eq. reflexivity. }
  simpl. split.
  - intros e. unfold outside. rewrite list_elem_of_filter.
    rewrite Is_true_true, overlaps_spec. split.
    + intros [Hno He]. split; [exact He|]. lia.
    + intros [He Hd]. split; [lia|exact He].
  - intros va Hva. split.
    + apply (lookup_miss this (set_pml4 (set_cr mp (outside start len (cr mp)))
                 (cleared start (start + len) (pml4 mp)))).
      * simpl. apply lookup_insert_eq.
      * lia.
      * lia.
      * simpl. apply span_outside_miss; assumption.
    + unfold pte_of. simpl. rewrite cleared_lookup.
      rewrite in_pages_inside by (unfold PGSIZE; lia).
      destruct (pml4 mp !! walkpgdir va); reflexivity.
Qed.

Lemma remove_unmaps_witness :
  ∃ mp', vmaps ex_unmapped_state = <[1%positive := mp']> (vmaps ex_touched_state) ∧
    (∀ e, e ∈ cr mp' ↔
          e ∈ cr ex_touched_vmap ∧ (0 + 4096 ≤ vma_start e ∨ vma_end e ≤ 0)) ∧
    (∀ va, 0 ≤ va < 0 + 4096 →
       lookup 1 va 1 ex_unmapped_state = Ok None ex_unmapped_state ∧ pte_of mp' va = 0).
Proof.
  apply (remove_unmaps 1 ex_touched_vmap 0 4096 ex_touched_state ex_unmapped_state).
  - vm_compute. reflexivity.
  - lia.
  - lia.
  - vm_compute. discriminate.
  - vm_compute. reflexivity.
Defined.

Lemma span_of_cr_insert e l k len :
  overlaps k len e = true →
  Forall (λ r, overlaps k len r = false) l →
  span_of (cr_insert e l) k len = [e] ∧ outside k len (cr_insert e l) = l.
Proof.
  intros He Hl.
  induction Hl as [|x l Hx Hl IH]; cbn [cr_insert].
  - unfold span_of, outside.
    rewrite filter_cons_True by (rewrite He; exact I).
    rewrite filter_cons_False by (rewrite He; simpl; auto). split; reflexivity.
  - destruct (vma_start e <? vma_start x).
    + split.
      * unfold span_of. rewrite filter_cons_True by (rewrite He; exact I).
        fold (span_of (x :: l) k len).
        rewrite span_of_none by (constructor; assumption). reflexivity.
      * unfold outside. rewrite filter_cons_False by (rewrite He; simpl; auto).
        fold (outside k len (x :: l)).
        rewrite outside_all by (constructor; assumption). reflexivity.
    + destruct IH as [IH1 IH2]. split.
      * unfold span_of in *. rewrite filter_cons_False by (rewrite Hx; simpl; auto).
        exact IH1.
      * unfold outside in *. rewrite filter_cons_True by (rewrite Hx; simpl; auto).
        f_equal. exact IH2.
Qed.

Lemma cleared_unlocked b e pt : unlocked b e (cleared b e pt).
Proof.
  intros k v Hkv Hin. rewrite cleared_lookup, Hin in Hkv.
  destruct (pt !! k); simpl in Hkv; [|discriminate].
  injection Hkv as <-. reflexivity.
Qed.

Lemma cleared_twice b e pt : cleared b e (cleared b e pt) = cleared b e pt.
Proof.
  apply map_eq. intros k. rewrite !cleared_lookup.
  destruct (pt !! k); simpl; [|reflexivity]. destruct (in_pages b e k); reflexivity.
Qed.

(** X12.  [vmap::remove] undoes [vmap::insert]: inserting a node into a
    free range and removing that range again restores the index.  When the
    node has another referrer its count is back to what it was; a node
    that nothing else refers to is destroyed by the removal, its resident
    pages handed back to the allocator. *)
Theorem insert_remove_roundtrip this a nd mp start dotlb s :
  vmaps s !! this = Some mp → nodes s !! a = Some nd → node_wf nd →
  0 ≤ start → 0 < npages nd → start + npages nd * PGSIZE ≤ USERTOP →
  0 ≤ ref nd < 2 ^ 64 - 1 →
  (∀ r, r ∈ cr mp → start + npages nd * PGSIZE ≤ vma_start r ∨ vma_end r ≤ start) →
  unlocked start (start + npages nd * PGSIZE) (pml4 mp) →
  ∃ s1 s2 mp2,
    insert_vma this (Some a) start dotlb s = Ok 0 s1 ∧
    remove_vma this start (npages nd * PGSIZE) s1 = Ok 0 s2 ∧
    vmaps s2 = <[this := mp2]> (vmaps s) ∧ cr mp2 = cr mp ∧
    mem s2 = mem s ∧
    if decide (ref nd = 0)
    then nodes s2 = delete a (nodes s) ∧
         freelist s2 = rev (resident (page nd)) ++ freelist s
    else nodes s2 = nodes s ∧ freelist s2 = freelist s.
Proof.
  intros Hmp Hnd Hwf H0 H1 H2 Href Hfree Hun. unfold USERTOP in H2.
  pose proof Hwf as [Hnp Hlen]. unfold NELEM_page in Hnp.
  exists (insert_state this a nd mp start s).
  set (e := inserted_vma a nd start).
  set (len := npages nd * PGSIZE) in *.
  assert (Hlen0 : 0 < len ≤ 128 * 4096) by (unfold len, PGSIZE; lia).
  assert (Hno : Forall (λ r, overlaps start len r = false) (cr mp)).
  { apply Forall_forall. intros r Hr. unfold overlaps.
    apply andb_false_iff. rewrite !Z.ltb_ge. specialize (Hfree r Hr). lia. }
  assert (He : overlaps start len e = true).
  { apply overlaps_spec. unfold e, inserted_vma. simpl. fold len. lia. }
  destruct (span_of_cr_insert e (cr mp) start len He Hno) as [Hspan Hout].
  assert (Hrun : ∃ s2, remove_vma this start len (insert_state this a nd mp start s)
                         = Ok 0 s2 ∧
            vmaps s2 = <[this := set_pml4 mp (cleared start (start + len) (pml4 mp))]>
                         (vmaps s) ∧
            mem s2 = mem s ∧
            if decide (ref nd = 0)
            then nodes s2 = delete a (nodes s) ∧
                 freelist s2 = rev (resident (page nd)) ++ freelist s
            else nodes s2 = nodes s ∧ freelist s2 = freelist s).
  { unfold remove_vma. mrun.
    erewrite deref_vmap_ok by (simpl; apply lookup_insert_eq). mrun.
    cbn [cr]. fold e. rewrite Hspan. cbn [existsb].
    rewrite (wrap64_small (start + len)) by lia.
    replace (vma_start e <? start) with false
      by (symmetry; apply Z.ltb_ge; unfold e; simpl; lia).
    replace (start + len <? vma_end e) with false
      by (symmetry; apply Z.ltb_ge; unfold e, inserted_vma; simpl; fold len; lia).
    cbn [orb]. mrun.
    erewrite span_replace_eq by (simpl; apply lookup_insert_eq).
    cbn [cr]. fold e. rewrite Hspan, Hout.
    cbn [vma_delete_all]. mrun.
    set (s1 := set_vmaps _ _).
    assert (Hnd1 : nodes s1 !! a = Some (set_ref nd (ref nd + 1))).
    { unfold s1. simpl. apply lookup_insert_eq. }
    change (vma_delete e) with (vmnode_decref a).
    case_decide as Hz.
    - rewrite (vmnode_decref_last a _ s1 Hnd1) by (try exact Hwf; simpl; lia).
      mrun.
      erewrite updatepages_clear.
      2:{ simpl. apply lookup_insert_eq. }
      2:{ simpl. fold len. apply cleared_unlocked. }
      mrun. eexists. split; [reflexivity|]. simpl. fold len.
      rewrite !insert_insert_eq, cleared_twice, delete_insert_eq.
      split; [destruct mp; reflexivity|]. split; [reflexivity|].
      split; reflexivity.
    - rewrite (vmnode_decref_keep a _ s1 Hnd1)
        by (simpl; rewrite wrap64_small by lia; lia).
      mrun.
      erewrite updatepages_clear.
      2:{ simpl. apply lookup_insert_eq. }
      2:{ simpl. fold len. apply cleared_unlocked. }
      mrun. eexists. split; [reflexivity|]. simpl. fold len.
      rewrite !insert_insert_eq, cleared_twice.
      split; [destruct mp; reflexivity|]. split; [reflexivity|].
      split; [|reflexivity].
      rewrite (wrap64_small (ref nd + 1 + -1)) by lia.
      replace (ref nd + 1 + -1) with (ref nd) by lia.
      apply insert_id. rewrite Hnd. f_equal. destruct nd; reflexivity. }
  destruct Hrun as (s2 & Hrem & Hv & Hm & Hrest).
  exists s2, (set_pml4 mp (cleared start (start + len) (pml4 mp))).
  split; [apply insert_vma_run; try assumption; unfold len in *; lia|].
  split; [exact Hrem|]. split; [exact Hv|]. split; [reflexivity|].
  split; [exact Hm|exact Hrest].
Qed.

Lemma insert_remove_roundtrip_witness :
  ∃ s1 s2 mp2,
    insert_vma 1 (Some 3%positive) 4096 true ex_two_regions = Ok 0 s1 ∧
    remove_vma 1 4096 (npages ex_spare_node * PGSIZE) s1 = Ok 0 s2 ∧
    vmaps s2 = <[1%positive := mp2]> (vmaps ex_two_regions) ∧ cr mp2 = cr ex_two_vmap ∧
    mem s2 = mem ex_two_regions ∧
    if decide (ref ex_spare_node = 0)
    then nodes s2 = delete 3%positive (nodes ex_two_regions) ∧
         freelist s2 = rev (resident (page ex_spare_node)) ++ freelist ex_two_regions
    else nodes s2 = nodes ex_two_regions ∧ freelist s2 = freelist ex_two_regions.
Proof.
  apply (insert_remove_roundtrip 1 3 ex_spare_node ex_two_vmap 4096 true ex_two_regions).
  - vm_compute. reflexivity.
  - vm_compute. reflexivity.
  - apply (bool_decide_unpack _); vm_compute; exact I.
  - lia.
  - reflexivity.
  - vm_compute. discriminate.
  - vm_compute. split; [discriminate|reflexivity].
  - apply (proj1 (Forall_forall _ _)).
    apply (bool_decide_unpack _); vm_compute; exact I.
  - apply (bool_decide_unpack _); vm_compute; exact I.
Defined.

(** ** pagefault *)

Lemma page_aligned_mod x : page_aligned x → x mod 4096 = 0.
Proof.
  unfold page_aligned. change 4095 with (Z.ones 12).
  rewrite Z.land_ones by lia. auto.
Qed.

Lemma PTE_ADDR_flags x fl :
  0 ≤ x < 2 ^ 64 → page_aligned x → 0 ≤ fl < 4096 →
  PTE_ADDR (Z.lor x fl) = x.
Proof.
  intros Hx Hal Hfl. unfold PTE_ADDR.
  rewrite Z.land_lor_distr_l.
  assert (E1 : Z.land x (Z.lnot 4095 mod 2 ^ 64) = x).
  { pose proof (PGROUNDDOWN_eq x Hx) as E. unfold PGROUNDDOWN, PGSIZE in E.
    change (4096 - 1) with 4095 in E. rewrite E.
    pose proof (page_aligned_mod x Hal). pose proof (Z.div_mod x 4096 ltac:(lia)). lia. }
  assert (E2 : Z.land fl (Z.lnot 4095 mod 2 ^ 64) = 0).
  { pose proof (PGROUNDDOWN_eq fl ltac:(lia)) as E. unfold PGROUNDDOWN, PGSIZE in E.
    change (4096 - 1) with 4095 in E. rewrite E.
    rewrite Z.div_small by lia. reflexivity. }
  rewrite E1, E2. apply Z.lor_0_r.
Qed.


Lemma pagefault_miss fuel this va err s mp :
  vmaps s !! this = Some mp → 0 ≤ va < USERTOP →
  Z.land (pte_of mp va) PTE_PUW ≠ PTE_PUW →
  Z.land (pte_of mp va) PTE_LOCK = 0 →
  (∀ r, r ∈ cr mp → va < vma_start r ∨ vma_end r ≤ va) →
  pagefault (S fuel) this va err s = Ok (-1) s.
Proof.
  intros Hmp Hva Hfast Hlock Hfree. unfold USERTOP in Hva. unfold pagefault.
  replace (USERTOP <=? va) with false by (symmetry; apply Z.leb_gt; unfold USERTOP; lia).
  cbn [pagefault_retry]. mrun.
  rewrite (pte_load_eq _ _ _ _ Hmp). mrun. fold (pte_of mp va).
  replace (Z.land (pte_of mp va) PTE_PUW =? PTE_PUW) with false
    by (symmetry; apply Z.eqb_neq; exact Hfast).
  rewrite Hlock. change (negb (0 =? 0)) with false. mrun.
  rewrite (lookup_miss this mp va s Hmp) by
    (try lia; apply span_of_none, Forall_forall; intros r Hr; unfold overlaps;
     apply andb_false_iff; rewrite !Z.ltb_ge; specialize (Hfree r Hr); lia).
  reflexivity.
Qed.

(** X13.  [pagefault] refuses, with -1 and without touching the state,
    an address at or above the user ceiling, and an address below it that
    no region of the address space covers. *)
Theorem pagefault_unmapped fuel this va err s mp :
  vmaps s !! this = Some mp → 0 ≤ va →
  USERTOP ≤ va ∨
  (Z.land (pte_of mp va) PTE_PUW ≠ PTE_PUW ∧ Z.land (pte_of mp va) PTE_LOCK = 0 ∧
   ∀ r, r ∈ cr mp → va < vma_start r ∨ vma_end r ≤ va) →
  pagefault (S fuel) this va err s = Ok (-1) s.
Proof.
  intros Hmp H0 [Htop|(Hfast & Hlock & Hfree)].
  - unfold pagefault.
    replace (USERTOP <=? va) with true by (symmetry; apply Z.leb_le; exact Htop).
    reflexivity.
  - destruct (Z.lt_ge_cases va USERTOP) as [Hlt|Hge].
    + apply (pagefault_miss fuel this va err s mp); try assumption. lia.
    + unfold pagefault.
      replace (USERTOP <=? va) with true by (symmetry; apply Z.leb_le; exact Hge).
      reflexivity.
Qed.

Lemma pagefault_unmapped_witness :
  pagefault 1 1 4096 FEC_WR ex_two_regions = Ok (-1) ex_two_regions.
Proof.
  apply (pagefault_unmapped 0 1 4096 FEC_WR ex_two_regions ex_two_vmap).
  - vm_compute. reflexivity.
  - lia.
  - right. split; [vm_compute; discriminate|]. split; [reflexivity|].
    apply (proj1 (Forall_forall _ _)).
    apply (bool_decide_unpack _); vm_compute; exact I.
Defined.

(** [pagefault] on a region that is not COW, with the page resident and
    nothing to load. *)
Lemma pagefault_private_run fuel this va err s mp m a nd p :
  vmaps s !! this = Some mp → cr_wf (cr mp) → m ∈ cr mp → va_type m = PRIVATE →
  vma_start m ≤ va < vma_end m →
  Z.land (pte_of mp va) PTE_PUW ≠ PTE_PUW → Z.land (pte_of mp va) PTE_LOCK = 0 →
  n m = Some a → nodes s !! a = Some nd → type nd ≠ ONDEMAND →
  0 ≤ page_index m va < npages nd →
  page nd !! Z.to_nat (page_index m va) = Some p → p ≠ 0 →
  pagefault (S fuel) this va err s =
    if decide (ref nd = 1)
    then Ok 1 (set_pte this mp (walkpgdir va) (private_pte p) s)
    else Halt (Panic "assertion failed").
Proof.
  intros Hmp Hwf Hm Hty Hva Hfast Hlock Hn Hnd Hnt Hidx Hp Hp0.
  pose proof (cr_wf_range _ _ Hwf Hm) as (H0 & H1 & H2).
  unfold pagefault.
  replace (USERTOP <=? va) with false by (symmetry; apply Z.leb_gt; lia).
  rewrite (pagefault_retry_found fuel this va err s mp m Hmp Hfast Hlock
             (lookup_found this mp m va s Hmp Hwf Hm Hva)).
  mrun. rewrite (pagefault_fill_resident m _ a nd p s Hn Hnd Hidx Hp Hp0 Hnt). mrun.
  rewrite bool_decide_eq_false_2 by (rewrite Hty; discriminate). cbn [andb].
  case_decide as Href.
  - unfold pte_of. mrun.
    rewrite (pagefault_install_eq this _ m _ s mp a nd p Hmp Hm Hn Hnd Hidx Hp)
      by (intros _; exact Href).
    mrun. unfold installed_pte.
    rewrite bool_decide_eq_false_2 by (rewrite Hty; discriminate). reflexivity.
  - mrun. unfold pagefault_install, cmpxch_pte. mrun.
    rewrite (pte_load_eq _ _ _ _ Hmp). mrun. unfold pte_of. rewrite Z.eqb_refl. mrun.
    unfold pte_store at 1. mrun. rewrite (deref_vmap_ok _ _ _ Hmp). mrun.
    unfold put_vmap, modify. mrun. cbn [negb]. mrun.
    set (sL := set_vmaps _ s).
    erewrite (deleted_eq this m _ sL) by apply lookup_insert_eq.
    rewrite bool_decide_eq_false_2 by (simpl; intros H; exact (H Hm)). mrun.
    rewrite Hn, (deref_node_ok sL a nd) by exact Hnd. mrun.
    rewrite (slot_eq _ _ _ _ Hidx Hp). mrun.
    rewrite bool_decide_eq_false_2 by (rewrite Hty; discriminate).
    unfold assert. replace (ref nd =? 1) with false
      by (symmetry; apply Z.eqb_neq; exact Href).
    reflexivity.
Qed.



(** X15.  A fault that reaches the installation of an entry for a region
    that is not COW asserts that the node has exactly one referrer: with
    any other count the kernel panics. *)
Theorem pagefault_private_shared_panics fuel this va err s mp m a nd p :
  vmaps s !! this = Some mp → cr_wf (cr mp) → m ∈ cr mp → va_type m = PRIVATE →
  vma_start m ≤ va < vma_end m →
  Z.land (pte_of mp va) PTE_PUW ≠ PTE_PUW → Z.land (pte_of mp va) PTE_LOCK = 0 →
  n m = Some a → nodes s !! a = Some nd → type nd ≠ ONDEMAND → ref nd ≠ 1 →
  0 ≤ page_index m va < npages nd →
  page nd !! Z.to_nat (page_index m va) = Some p → p ≠ 0 →
  pagefault (S fuel) this va err s = Halt (Panic "assertion failed").
Proof.
  intros Hmp Hwf Hm Hty Hva Hfast Hlock Hn Hnd Hnt Href Hidx Hp Hp0.
  rewrite (pagefault_private_run fuel this va err s mp m a nd p) by assumption.
  rewrite decide_False by exact Href. reflexivity.
Qed.

Lemma pagefault_private_shared_panics_witness :
  pagefault 1 1 0 0 ex_twice_state = Halt (Panic "assertion failed").
Proof.
  apply (pagefault_private_shared_panics 0 1 0 0 ex_twice_state ex_twice_vmap
           (mk_vma 0 4096 PRIVATE (Some 1%positive)) 1 ex_twice_node (pg 0)).
  - vm_compute. reflexivity.
  - apply cr_ok_wf. vm_compute. reflexivity.
  - apply list_elem_of_here.
  - reflexivity.
  - vm_compute. split; [discriminate|reflexivity].
  - vm_compute. discriminate.
  - reflexivity.
  - reflexivity.
  - vm_compute. reflexivity.
  - discriminate.
  - vm_compute. discriminate.
  - vm_compute. split; [discriminate|reflexivity].
  - reflexivity.
  - vm_compute. discriminate.
Defined.

(** [pagefault_fill] when the slot is empty, the allocator has the pages
    and nothing is to load. *)
Lemma pagefault_fill_alloc m npg a nd s pg' used fl' :
  n m = Some a → nodes s !! a = Some nd → node_wf nd →
  0 ≤ npg < npages nd → page nd !! Z.to_nat npg = Some 0 →
  type nd ≠ ONDEMAND →
  fill_slots (page nd) (freelist s) = (pg', used, fl', true) →
  pagefault_fill m npg s = Ok tt (alloc_state a nd pg' used fl' s).
Proof.
  intros Hn Hnd [Hnp Hlen] Hnpg Hp Hty Hfill. unfold pagefault_fill. rewrite Hn. mrun.
  rewrite (deref_node_ok _ _ _ Hnd). mrun.
  rewrite (slot_eq _ _ _ _ Hnpg Hp). mrun. change (0 =? 0) with true. mrun.
  rewrite (allocpg_spec a nd s Hnd Hlen) by lia. rewrite Hfill. mrun.
  change (0 <? 0) with false. mrun.
  erewrite deref_node_ok by (simpl; apply lookup_insert_eq). mrun.
  case_decide as Hc; [exact (False_ind _ (Hty Hc))|]. reflexivity.
Qed.

(** X16.  Pages are allocated lazily, and by the whole node.  For a
    node that is not loaded on demand and has one referrer, when the
    allocator holds a page for every empty slot of the node: a fault on an
    empty slot of a PRIVATE region populates every empty slot of the node,
    taking that many pages from the head of the free list; the page of the
    faulting address reads as zeros and its entry is installed writable. *)
Theorem pagefault_populates_node fuel this va err s mp m a nd :
  vmaps s !! this = Some mp → cr_wf (cr mp) → m ∈ cr mp → va_type m = PRIVATE →
  vma_start m ≤ va < vma_end m →
  Z.land (pte_of mp va) PTE_PUW ≠ PTE_PUW → Z.land (pte_of mp va) PTE_LOCK = 0 →
  n m = Some a → nodes s !! a = Some nd → node_wf nd →
  type nd ≠ ONDEMAND → ref nd = 1 →
  0 ≤ page_index m va < npages nd →
  page nd !! Z.to_nat (page_index m va) = Some 0 →
  (0 ∉ freelist s) → (empty_slots (page nd) ≤ length (freelist s))%nat →
  ∃ s' mp' nd' p,
    pagefault (S fuel) this va err s = Ok 1 s' ∧
    vmaps s' !! this = Some mp' ∧ nodes s' !! a = Some nd' ∧
    Forall (λ q, q ≠ 0) (page nd') ∧
    freelist s' = drop (empty_slots (page nd)) (freelist s) ∧
    page nd' !! Z.to_nat (page_index m va) = Some p ∧
    page_bytes s' p = zero_page ∧
    pte_of mp' va = private_pte p.
Proof.
  intros Hmp Hwf Hm Hty Hva Hfast Hlock Hn Hnd Hnwf Hnt Href Hidx Hp Hz Hfree.
  pose proof (cr_wf_range _ _ Hwf Hm) as (H0 & H1 & H2).
  destruct (fill_slots (page nd) (freelist s)) as [[[pg' used] fl'] ok] eqn:E.
  pose proof (fill_slots_count _ _ _ _ _ _ E Hz) as Hc.
  destruct ok; [|lia]. destruct Hc as (Hused & Hfl' & _).
  pose proof (fill_slots_full _ _ _ _ _ E) as Hfull.
  pose proof (fill_slots_length _ _ _ _ _ _ E) as Hlen'.
  assert (Hlt : (Z.to_nat (page_index m va) < length pg')%nat).
  { rewrite Hlen'. apply lookup_lt_Some in Hp. exact Hp. }
  destruct (lookup_lt_is_Some_2 pg' _ Hlt) as [p Hp'].
  assert (Hp0 : p ≠ 0) by exact (proj1 (Forall_forall _ _) Hfull p
                                   (list_elem_of_lookup_2 _ _ _ Hp')).
  assert (Hin : p ∈ used) by (eapply fill_slots_new; eauto).
  set (s1 := alloc_state a nd pg' used fl' s).
  unfold pagefault.
  replace (USERTOP <=? va) with false by (symmetry; apply Z.leb_gt; lia).
  rewrite (pagefault_retry_found fuel this va err s mp m Hmp Hfast Hlock
             (lookup_found this mp m va s Hmp Hwf Hm Hva)).
  mrun.
  rewrite (pagefault_fill_alloc m _ a nd s pg' used fl' Hn Hnd Hnwf Hidx Hp Hnt E).
  fold s1. mrun.
  rewrite bool_decide_eq_false_2 by (rewrite Hty; discriminate). cbn [andb]. mrun.
  unfold pte_of.
  rewrite (pagefault_install_eq this _ m _ s1 mp a (set_page nd pg') p)
    by (try assumption; try (intros _; exact Href); apply lookup_insert_eq).
  mrun. unfold installed_pte.
  rewrite bool_decide_eq_false_2 by (rewrite Hty; discriminate).
  eexists _, _, (set_page nd pg'), p. split; [reflexivity|].
  split; [simpl; apply lookup_insert_eq|].
  split; [simpl; apply lookup_insert_eq|].
  split; [exact Hfull|]. split; [simpl; exact Hfl'|]. split; [exact Hp'|].
  split.
  - unfold page_bytes. simpl. rewrite (zero_fill_in _ _ _ Hin). reflexivity.
  - simpl. rewrite lookup_insert_eq. reflexivity.
Qed.

Lemma pagefault_populates_node_witness :
  ∃ s' mp' nd' p,
    pagefault 1 1 4096 0 ex_lazy_state = Ok 1 s' ∧
    vmaps s' !! 1%positive = Some mp' ∧ nodes s' !! 1%positive = Some nd' ∧
    Forall (λ q, q ≠ 0) (page nd') ∧
    freelist s' = drop (empty_slots (page ex_lazy_node)) (freelist ex_lazy_state) ∧
    page nd' !! Z.to_nat (page_index ex_lazy_vma 4096) = Some p ∧
    page_bytes s' p = zero_page ∧
    pte_of mp' 4096 = private_pte p.
Proof.
  apply (pagefault_populates_node 0 1 4096 0 ex_lazy_state ex_lazy_vmap ex_lazy_vma 1
           ex_lazy_node).
  - vm_compute. reflexivity.
  - apply cr_ok_wf. vm_compute. reflexivity.
  - apply list_elem_of_here.
  - reflexivity.
  - vm_compute. split; [discriminate|reflexivity].
  - vm_compute. discriminate.
  - reflexivity.
  - reflexivity.
  - vm_compute. reflexivity.
  - apply (bool_decide_unpack _); vm_compute; exact I.
  - discriminate.
  - reflexivity.
  - vm_compute. split; [discriminate|reflexivity].
  - reflexivity.
  - apply (bool_decide_unpack _); vm_compute; exact I.
  - apply (bool_decide_unpack _); vm_compute; exact I.
Defined.

(** ** copyout *)

Lemma post_bind {A B} (m : M A) (f : A → M B) s Q :
  post m s (λ a s1, post (f a) s1 Q) → post (m ≫= f) s Q.
Proof.
  unfold post. intros H b s2 E. rewrite bind_eq in E.
  destruct (m s) as [a s1|] eqn:Em; [|discriminate]. exact (H a s1 eq_refl b s2 E).
Qed.

Lemma post_ret {A} (a : A) s (Q : A → kstate → Prop) : Q a s → post (mret a) s Q.
Proof. unfold post. intros H b s' E. rewrite ret_eq in E. injection E as <- <-. exact H. Qed.

Lemma post_mono {A} (m : M A) s (Q Q' : A → kstate → Prop) :
  post m s Q → (∀ a s', Q a s' → Q' a s') → post m s Q'.
Proof. unfold post. auto. Qed.

Lemma post_halt {A} h s (Q : A → kstate → Prop) : post (halt_with h) s Q.
Proof. unfold post, halt_with. discriminate. Qed.

Lemma post_modify f s (Q : unit → kstate → Prop) : Q tt (f s) → post (modify f) s Q.
Proof. unfold post, modify. intros H b s' E. injection E as <- <-. exact H. Qed.

Lemma post_get s (Q : kstate → kstate → Prop) : Q s s → post get s Q.
Proof. unfold post, get. intros H b s' E. injection E as <- <-. exact H. Qed.

Lemma same_maps_refl s : same_maps s s.
Proof. split; reflexivity. Qed.

Lemma same_maps_trans s1 s2 s3 : same_maps s1 s2 → same_maps s2 s3 → same_maps s1 s3.
Proof. intros [A B] [C D]. split; congruence. Qed.

Lemma deref_node_post p s (Q : vmnode → kstate → Prop) :
  (∀ a nd, p = Some a → nodes s !! a = Some nd → Q nd s) → post (deref_node p) s Q.
Proof.
  intros H nd s' E. apply deref_node_inv in E as [-> (a & -> & Hnd)]. eauto.
Qed.

Lemma slot_post nd i s (Q : Z → kstate → Prop) :
  (∀ p, 0 ≤ i < npages nd → page nd !! Z.to_nat i = Some p → Q p s) →
  post (slot nd i) s Q.
Proof. intros H p s' E. apply slot_inv in E as [-> [Hi Hp]]. eauto. Qed.

Lemma allocpg_slot_maps this i s :
  post (allocpg_slot this i) s (λ _ s', same_maps s s').
Proof.
  unfold allocpg_slot. apply post_bind, deref_node_post. intros a nd _ _.
  apply post_bind, slot_post. intros cur _ _.
  destruct (negb (cur =? 0)); [apply post_ret, same_maps_refl|].
  apply post_bind. intros p s1 E. unfold kalloc in E.
  assert (Hs1 : same_maps s s1).
  { destruct (freelist s); injection E as <- <-; split; reflexivity. }
  clear E. destruct (p =? 0); [apply post_ret, Hs1|].
  apply post_bind. unfold memset_page. destruct (p =? 0); [apply post_halt|].
  apply post_modify. apply post_bind. unfold cmpxch_slot.
  apply post_bind, deref_node_post. intros a2 nd2 _ _.
  apply post_bind, slot_post. intros c2 _ _.
  assert (Hk : ∀ t (b : bool), same_maps s t →
            post ((if b then mret tt else kfree p) ≫= λ _, mret None) t
                 (λ (_ : option Z) s', same_maps s s')).
  { intros t b Ht. apply post_bind. destruct b.
    - apply post_ret, post_ret, Ht.
    - unfold kfree. apply post_modify, post_ret.
      destruct Ht as [A B]. split; simpl; assumption. }
  destruct (c2 =? 0).
  - apply post_bind. unfold put_node. apply post_modify, post_ret.
    apply (Hk _ true). destruct Hs1 as [A B]. split; simpl; assumption.
  - apply post_ret. apply (Hk _ false). destruct Hs1 as [A B]. split; simpl; assumption.
Qed.

Lemma allocpg_loop_maps this idx : ∀ s,
  post (allocpg_loop this idx) s (λ _ s', same_maps s s').
Proof.
  induction idx as [|i idx IH]; intros s; simpl.
  - apply post_ret, same_maps_refl.
  - apply post_bind. eapply post_mono; [apply allocpg_slot_maps|].
    intros r s1 H1. simpl. destruct r as [v|].
    + apply post_ret, H1.
    + eapply post_mono; [apply IH|]. intros r s2 H2. simpl.
      exact (same_maps_trans _ _ _ H1 H2).
Qed.

Lemma allocpg_maps this s : post (allocpg this) s (λ _ s', same_maps s s').
Proof.
  unfold allocpg. apply post_bind, deref_node_post. intros a nd _ _.
  apply allocpg_loop_maps.
Qed.

Lemma lookup_post this va len s (Q : option vma → kstate → Prop) :
  (∀ r, Q r s) → post (lookup this va len) s Q.
Proof. intros H r s' E. apply lookup_inv in E as [-> _]. apply H. Qed.

Lemma copyout_loop_maps this : ∀ fuel va buf s,
  post (copyout_loop fuel this va buf) s
       (λ r s', same_maps s s' ∧ (r = 0 ∨ r = -1)).
Proof.
  induction fuel as [|fuel IH]; intros va buf s; cbn [copyout_loop].
  - apply post_ret. split; [apply same_maps_refl|auto].
  - destruct (Z.of_nat (length buf) <=? 0).
    { apply post_ret. split; [apply same_maps_refl|auto]. }
    apply post_bind, lookup_post. intros [v|];
      [|apply post_ret; split; [apply same_maps_refl|auto]].
    apply post_bind, deref_node_post. intros a nd Ha _.
    apply post_bind. rewrite Ha.
    eapply post_mono; [apply allocpg_maps|]. intros r1 s1 H1. simpl.
    apply post_bind, deref_node_post. intros a2 nd2 _ _.
    apply post_bind, slot_post. intros p0 _ _.
    destruct (p0 =? 0); [apply post_halt|].
    apply post_bind. unfold write_page. destruct (p0 =? 0); [apply post_halt|].
    apply post_bind, post_get, post_modify.
    eapply post_mono; [apply IH|]. intros r s2 [H2 Hr]. simpl. split; [|exact Hr].
    eapply same_maps_trans; [exact H1|]. destruct H2 as [A B].
    split; simpl in *; assumption.
Qed.

(** X17.  [vmap::copyout] never touches an address space or the TLB:
    whenever it returns, with 0 or with -1, every page table and every
    region is as it was, so a region it wrote to keeps its mode and its
    node, also when that is a COW region whose pages are shared. *)
Theorem copyout_keeps_maps this va buf s r s' :
  copyout this va buf s = Ok r s' →
  vmaps s' = vmaps s ∧ tlbflushes s' = tlbflushes s ∧ (r = 0 ∨ r = -1).
Proof.
  intros H. destruct (copyout_loop_maps this _ _ _ _ _ _ H) as [[A B] C].
  split; [exact A|]. split; [exact B|exact C].
Qed.

Lemma copyout_keeps_maps_witness :
  vmaps ex_cow_written = vmaps ex_fork_state ∧
  tlbflushes ex_cow_written = tlbflushes ex_fork_state ∧ (0 = 0 ∨ 0 = -1).
Proof.
  apply (copyout_keeps_maps 2 0 [x41] ex_fork_state 0 ex_cow_written).
  vm_compute. reflexivity.
Defined.

(** In the example the byte written through the child's COW region is in
    the page that the parent's region maps as well. *)
Lemma ex_cow_written_shared :
  cr <$> vmaps ex_cow_written !! 1%positive = Some [ex_cow_vma] ∧
  cr <$> vmaps ex_cow_written !! 2%positive = Some [ex_cow_vma] ∧
  page <$> nodes ex_cow_written !! 1%positive = Some [pg 0] ∧
  take 1 (page_bytes ex_fork_state (pg 0)) = [x00] ∧
  take 1 (page_bytes ex_cow_written (pg 0)) = [x41].
Proof. vm_compute. repeat split. Qed.

Lemma overwrite_read off (buf old : list byte) :
  0 ≤ off → (Z.to_nat off ≤ length old)%nat →
  take (length buf) (drop (Z.to_nat off) (overwrite off buf old)) = buf.
Proof.
  intros H0 Hlen. unfold overwrite.
  rewrite drop_app_length' by (rewrite length_take; lia).
  rewrite take_app_length. reflexivity.
Qed.

Lemma fill_slots_nil pg : ∃ ok, fill_slots pg [] = (pg, [], [], ok).
Proof.
  induction pg as [|c pg [ok IH]]; simpl; [eauto|].
  destruct (negb (c =? 0)); [|eauto]. rewrite IH. eauto.
Qed.

Lemma copyout_loop_done fuel this va s : copyout_loop fuel this va [] s = Ok 0 s.
Proof. destruct fuel; reflexivity. Qed.

(** One pass of the loop of [vmap::copyout], up to the write. *)
Lemma copyout_step fuel this va buf s mp m a nd :
  vmaps s !! this = Some mp → cr_wf (cr mp) → m ∈ cr mp →
  vma_start m ≤ va < vma_end m →
  n m = Some a → nodes s !! a = Some nd → node_wf nd →
  buf ≠ [] →
  copyout_loop (S fuel) this va buf s =
    let '(pg', used, fl', ok) := fill_slots (page nd) (freelist s) in
    (p0 ← slot (set_page nd pg') (page_index m va);
     if p0 =? 0 then panic "copyout: missing page"
     else
       let len := Z.of_nat (length buf) in
       let room := PGSIZE - page_offset va in
       let cnt := if len <? room then len else room in
       write_page p0 (page_offset va) (take (Z.to_nat cnt) buf);;
       copyout_loop fuel this (wrap64 (PGROUNDDOWN va + PGSIZE))
                    (drop (Z.to_nat cnt) buf))
      (alloc_state a nd pg' used fl' s).
Proof.
  intros Hmp Hwf Hm Hva Hn Hnd [Hnp Hlen] Hbuf. cbn [copyout_loop].
  replace (Z.of_nat (length buf) <=? 0) with false
    by (symmetry; apply Z.leb_gt; destruct buf; [contradiction|simpl; lia]).
  mrun. rewrite (lookup_found this mp m va s Hmp Hwf Hm Hva). mrun.
  rewrite Hn, (deref_node_ok _ _ _ Hnd). mrun.
  rewrite (allocpg_spec a nd s Hnd Hlen) by lia.
  destruct (fill_slots (page nd) (freelist s)) as [[[pg' used] fl'] ok]. mrun.
  erewrite deref_node_ok by (simpl; apply lookup_insert_eq). mrun.
  reflexivity.
Qed.

(** X18.  [vmap::copyout] of a buffer that fits in the page of [va]
    returns 0 and writes the buffer into the page of the region's node at
    the offset of [va], leaving the other bytes of the page alone: reading
    the page back at that offset gives the buffer.  The region's mode is
    not consulted. *)
Theorem copyout_writes_page this va buf s mp m a nd p0 :
  vmaps s !! this = Some mp → cr_wf (cr mp) → m ∈ cr mp →
  vma_start m ≤ va < vma_end m →
  n m = Some a → nodes s !! a = Some nd → node_wf nd →
  0 ≤ page_index m va < npages nd →
  page nd !! Z.to_nat (page_index m va) = Some p0 → p0 ≠ 0 → (p0 ∉ freelist s) →
  buf ≠ [] → page_offset va + Z.of_nat (length buf) ≤ PGSIZE →
  ∃ s' nd',
    copyout this va buf s = Ok 0 s' ∧
    nodes s' !! a = Some nd' ∧ page nd' !! Z.to_nat (page_index m va) = Some p0 ∧
    page_bytes s' p0 = overwrite (page_offset va) buf (page_bytes s p0) ∧
    ((Z.to_nat (page_offset va) ≤ length (page_bytes s p0))%nat →
     take (length buf) (drop (Z.to_nat (page_offset va)) (page_bytes s' p0)) = buf).
Proof.
  intros Hmp Hwf Hm Hva Hn Hnd Hnwf Hidx Hp Hp0 Hnf Hbuf Hfit.
  pose proof (cr_wf_range _ _ Hwf Hm) as (H0 & H1 & H2). unfold USERTOP in H2.
  assert (Hoff : 0 ≤ page_offset va).
  { unfold page_offset. pose proof (PGROUNDDOWN_range va ltac:(lia)). lia. }
  unfold copyout. destruct buf as [|b buf]; [contradiction|].
  set (bf := b :: buf) in *. change (length bf) with (S (length buf)) at 1.
  rewrite (copyout_step _ this va bf s mp m a nd) by assumption.
  destruct (fill_slots (page nd) (freelist s)) as [[[pg' used] fl'] ok] eqn:E.
  pose proof (fill_slots_keeps _ _ _ _ _ _ _ _ E Hp Hp0) as Hp'.
  mrun. rewrite (slot_eq (set_page nd pg') _ p0) by (simpl; assumption). mrun.
  replace (p0 =? 0) with false by (symmetry; apply Z.eqb_neq; exact Hp0).
  cbv zeta.
  replace (if Z.of_nat (length bf) <? PGSIZE - page_offset va
           then Z.of_nat (length bf) else PGSIZE - page_offset va)
    with (Z.of_nat (length bf)) by (destruct (Z.ltb_spec (Z.of_nat (length bf))
                                      (PGSIZE - page_offset va)); lia).
  rewrite Nat2Z.id, take_ge, drop_ge by lia. mrun.
  unfold write_page.
  replace (p0 =? 0) with false by (symmetry; apply Z.eqb_neq; exact Hp0).
  unfold get, modify. mrun. rewrite copyout_loop_done.
  assert (Hold : page_bytes (alloc_state a nd pg' used fl' s) p0 = page_bytes s p0).
  { unfold page_bytes. simpl. rewrite zero_fill_out; [reflexivity|].
    intros Hin. apply Hnf. eapply (proj1 (fill_slots_sub _ _ _ _ _ _ E)), Hin. }
  eexists _, (set_page nd pg'). split; [reflexivity|].
  split; [simpl; apply lookup_insert_eq|]. split; [exact Hp'|].
  assert (Hnew : page_bytes
            (set_mem <[p0 := take (Z.to_nat (page_offset va))
                               (page_bytes (alloc_state a nd pg' used fl' s) p0) ++ bf
                             ++ drop (Z.to_nat (page_offset va) + length bf)
                                  (page_bytes (alloc_state a nd pg' used fl' s) p0)]>
               (alloc_state a nd pg' used fl' s)) p0
          = overwrite (page_offset va) bf (page_bytes s p0)).
  { unfold page_bytes at 1. simpl. rewrite lookup_insert_eq. simpl.
    rewrite Hold. reflexivity. }
  split; [exact Hnew|]. intros Hlen. rewrite Hnew.
  apply overwrite_read; assumption.
Qed.

Lemma copyout_writes_page_witness :
  ∃ s' nd',
    copyout 2 5 [x58; x59; x5a] ex_fork_state = Ok 0 s' ∧
    nodes s' !! 1%positive = Some nd' ∧
    page nd' !! Z.to_nat (page_index ex_cow_vma 5) = Some (pg 0) ∧
    page_bytes s' (pg 0)
      = overwrite (page_offset 5) [x58; x59; x5a] (page_bytes ex_fork_state (pg 0)) ∧
    ((Z.to_nat (page_offset 5) ≤ length (page_bytes ex_fork_state (pg 0)))%nat →
     take (length [x58; x59; x5a]) (drop (Z.to_nat (page_offset 5)) (page_bytes s' (pg 0)))
       = [x58; x59; x5a]).
Proof.
  apply (copyout_writes_page 2 5 [x58; x59; x5a] ex_fork_state
           (mk_vmap [ex_cow_vma] ∅ 1) ex_cow_vma 1 ex_shared_node (pg 0)).
  - vm_compute. reflexivity.
  - apply cr_ok_wf. vm_compute. reflexivity.
  - apply list_elem_of_here.
  - vm_compute. split; [discriminate|reflexivity].
  - reflexivity.
  - vm_compute. reflexivity.
  - apply (bool_decide_unpack _); vm_compute; exact I.
  - vm_compute. split; [discriminate|reflexivity].
  - reflexivity.
  - vm_compute. discriminate.
  - apply (bool_decide_unpack _); vm_compute; exact I.
  - discriminate.
  - vm_compute. discriminate.
Defined.

(** X19.  [vmap::copyout] ignores the result of [allocpg]: when the
    slot of the target page is empty and the allocator has no page, it
    panics on the missing page instead of returning an error. *)
Theorem copyout_missing_page this va buf s mp m a nd :
  vmaps s !! this = Some mp → cr_wf (cr mp) → m ∈ cr mp →
  vma_start m ≤ va < vma_end m →
  n m = Some a → nodes s !! a = Some nd → node_wf nd →
  0 ≤ page_index m va < npages nd →
  page nd !! Z.to_nat (page_index m va) = Some 0 →
  freelist s = [] → buf ≠ [] →
  copyout this va buf s = Halt (Panic "copyout: missing page").
Proof.
  intros Hmp Hwf Hm Hva Hn Hnd Hnwf Hidx Hp Hfl Hbuf.
  unfold copyout. destruct buf as [|b buf]; [contradiction|].
  set (bf := b :: buf) in *. change (length bf) with (S (length buf)).
  rewrite (copyout_step _ this va bf s mp m a nd) by assumption.
  rewrite Hfl. destruct (fill_slots_nil (page nd)) as [ok ->].
  mrun. rewrite (slot_eq (set_page nd (page nd)) _ 0) by (simpl; assumption).
  reflexivity.
Qed.

Lemma copyout_missing_page_witness :
  copyout 1 8192 [x41] ex_two_regions_full = Halt (Panic "copyout: missing page").
Proof.
  apply (copyout_missing_page 1 8192 [x41] ex_two_regions_full ex_two_vmap ex_region1 2
           (mk_vmnode 1 [0] 1 EAGER None 0 0)).
  - vm_compute. reflexivity.
  - apply cr_ok_wf. vm_compute. reflexivity.
  - apply list_elem_of_further, list_elem_of_here.
  - vm_compute. split; [discriminate|reflexivity].
  - reflexivity.
  - vm_compute. reflexivity.
  - apply (bool_decide_unpack _); vm_compute; exact I.
  - vm_compute. split; [discriminate|reflexivity].
  - reflexivity.
  - reflexivity.
  - discriminate.
Defined.

(** X20.  [vmap::copyout] of a non-empty buffer to an address that no
    region covers returns -1 and changes nothing. *)
Theorem copyout_unmapped this va buf s mp :
  vmaps s !! this = Some mp → 0 ≤ va → va + 1 < 2 ^ 64 →
  (∀ r, r ∈ cr mp → va < vma_start r ∨ vma_end r ≤ va) →
  buf ≠ [] →
  copyout this va buf s = Ok (-1) s.
Proof.
  intros Hmp H0 H1 Hfree Hbuf. unfold copyout.
  destruct buf as [|b buf]; [contradiction|]. cbn [length copyout_loop].
  replace (Z.of_nat (S (length buf)) <=? 0) with false
    by (symmetry; apply Z.leb_gt; lia).
  mrun. rewrite (lookup_miss this mp va s Hmp H0 H1); [reflexivity|].
  apply span_of_none, Forall_forall. intros r Hr. unfold overlaps.
  apply andb_false_iff. rewrite !Z.ltb_ge. specialize (Hfree r Hr). lia.
Qed.

Lemma copyout_unmapped_witness :
  copyout 1 4096 [x41] ex_two_regions = Ok (-1) ex_two_regions.
Proof.
  apply (copyout_unmapped 1 4096 [x41] ex_two_regions ex_two_vmap).
  - vm_compute. reflexivity.
  - lia.
  - lia.
  - apply (proj1 (Forall_forall _ _)).
    apply (bool_decide_unpack _); vm_compute; exact I.
  - discriminate.
Defined.

(** ** vmap::copy *)

Lemma deref_vmap_post a s (Q : vmap → kstate → Prop) :
  (∀ mp, vmaps s !! a = Some mp → Q mp s) → post (deref_vmap a) s Q.
Proof. intros H mp s' E. apply deref_vmap_inv in E as [-> Hmp]. eauto. Qed.

Lemma post_eq {A} (m : M A) s (Q : A → kstate → Prop) :
  (∀ a s', m s = Ok a s' → Q a s') → post m s Q.
Proof. auto. Qed.

Lemma kept_refl this s : kept this s s.
Proof. split; reflexivity. Qed.

Lemma kept_trans this s1 s2 s3 : kept this s1 s2 → kept this s2 s3 → kept this s1 s3.
Proof. intros [A B] [C D]. split; congruence. Qed.

Lemma kept_vmaps this s s' :
  vmaps s' = vmaps s → tlbflushes s' = tlbflushes s → kept this s s'.
Proof. intros A B. split; [exact B|]. unfold pt_of. rewrite A. reflexivity. Qed.

Lemma vma_new_kept this st en ty vmn s :
  post (vma_new st en ty vmn) s (λ r s', r = Some (mk_vma st en ty vmn) ∧ kept this s s').
Proof.
  intros r s' E. apply vma_new_inv in E as [-> E]. split; [reflexivity|].
  destruct vmn as [a|].
  - destruct E as (nd & _ & ->). apply kept_vmaps; reflexivity.
  - subst. apply kept_refl.
Qed.

Lemma vma_delete_all_kept this l s :
  post (vma_delete_all l) s (λ _ s', kept this s s').
Proof.
  intros [] s' E. apply vma_delete_all_frame in E as [A B]. apply kept_vmaps; assumption.
Qed.

Lemma span_replace_kept this that k len b s :
  post (span_replace that k len b) s (λ _ s', kept this s s').
Proof.
  unfold span_replace. apply post_bind, deref_vmap_post. intros mp Hmp.
  apply post_bind. unfold put_vmap. apply post_modify.
  eapply post_mono; [apply (vma_delete_all_kept this)|].
  intros ? s' [A B]. simpl in *. split; [exact A|]. rewrite B.
  unfold pt_of. simpl. destruct (decide (that = this)) as [->|Hne].
  - rewrite lookup_insert_eq, Hmp. reflexivity.
  - rewrite lookup_insert_ne by exact Hne. reflexivity.
Qed.

Lemma replace_vma_kept this that a b s :
  post (replace_vma that a b) s (λ _ s', kept this s s').
Proof.
  unfold replace_vma. apply post_bind, deref_vmap_post. intros mp Hmp.
  apply post_bind. unfold deleted. apply post_bind, deref_vmap_post. intros mp2 _.
  apply post_ret. destruct (bool_decide _); [apply post_ret, kept_refl|].
  apply post_bind. unfold assert. destruct (forallb _ _); [|apply post_halt].
  apply post_ret. apply post_bind.
  eapply post_mono; [apply (span_replace_kept this)|].
  intros ? s' H. apply post_ret. exact H.
Qed.

Lemma updatepages_inside this b e cb s r s' :
  updatepages this b e cb s = Ok r s' →
  tlbflushes s' = tlbflushes s ∧
  (∀ o, o ≠ this → vmaps s' !! o = vmaps s !! o) ∧
  ∃ mp pt, vmaps s !! this = Some mp ∧ vmaps s' !! this = Some (set_pml4 mp pt) ∧
    ∀ k, match pml4 mp !! k with
         | Some v => ∃ v', pt !! k = Some v' ∧
             (v' = v ∨ ∃ fl, cb v = Some (v', fl)) ∧
             (in_pages b e k = true → ∃ fl, cb v = Some (v', fl))
         | None => pt !! k = None
         end.
Proof.
  unfold updatepages. mrun.
  destruct (deref_vmap this s) as [mp s0|] eqn:E; [|discriminate].
  apply deref_vmap_inv in E as [-> Hmp]. mrun.
  destruct (forallb _ _) eqn:Eall; [|discriminate].
  unfold put_vmap, modify. mrun. intros [= <- <-].
  split; [reflexivity|]. split.
  { intros o Ho. simpl. apply lookup_insert_ne. congruence. }
  eexists mp, _. split; [exact Hmp|]. split; [simpl; apply lookup_insert_eq|].
  intros k. rewrite map_lookup_imap.
  destruct (pml4 mp !! k) as [v|] eqn:Ek; [|reflexivity]. simpl.
  destruct (in_pages b e k) eqn:Ein.
  - assert (Hsome : is_Some (cb v)).
    { rewrite forallb_forall in Eall.
      assert (Hm : In (k, v) (filter (λ kv : Z * Z, in_pages b e kv.1)
                                     (map_to_list (pml4 mp)))).
      { apply list_elem_of_In, list_elem_of_filter.
        split; [simpl; rewrite Ein; exact I|]. apply elem_of_map_to_list, Ek. }
      apply Eall in Hm. apply bool_decide_eq_true_1 in Hm. exact Hm. }
    destruct Hsome as [[v' fl] Hcb]. rewrite Hcb. simpl.
    exists v'. split; [reflexivity|]. split; [right|intros _]; exists fl; reflexivity.
  - exists v. split; [reflexivity|]. split; [left; reflexivity|discriminate].
Qed.

Lemma PTE_ADDR_aligned v : page_aligned (PTE_ADDR v).
Proof.
  unfold page_aligned, PTE_ADDR. rewrite <- Z.land_assoc.
  change (Z.land (Z.lnot 4095 mod 2 ^ 64) 4095) with 0. apply Z.land_0_r.
Qed.

Lemma not_puw_bit v b :
  Z.land v b = 0 → Z.land PTE_PUW b = b → b ≠ 0 → not_puw v.
Proof.
  intros Hv Hb Hb0 Hpuw. unfold not_puw in *.
  assert (E : Z.land (Z.land v PTE_PUW) b = b) by (rewrite Hpuw; exact Hb).
  rewrite <- Z.land_assoc, Hb, Hv in E. congruence.
Qed.

Lemma downgrade_cb_not_puw v v' fl : downgrade_cb v = Some (v', fl) → not_puw v'.
Proof.
  unfold downgrade_cb, cmpxch_cell.
  destruct (negb (Z.land v PTE_LOCK =? 0)); [discriminate|].
  destruct ((Z.land v PTE_P =? 0) || (Z.land v PTE_U =? 0) || (Z.land v PTE_W =? 0))
    eqn:E.
  - intros [= <- <-]. apply orb_true_iff in E as [E|E]; [apply orb_true_iff in E as [E|E]|];
      apply Z.eqb_eq in E.
    + apply (not_puw_bit v PTE_P E); [reflexivity|discriminate].
    + apply (not_puw_bit v PTE_U E); [reflexivity|discriminate].
    + apply (not_puw_bit v PTE_W E); [reflexivity|discriminate].
  - rewrite Z.eqb_refl. intros [= <- <-]. unfold not_puw.
    destruct (cow_installed (PTE_ADDR v) (PTE_ADDR_aligned v)) as [H _].
    cbv zeta in H. rewrite H. discriminate.
Qed.

Lemma downgraded_refl R pt : (∀ k v, pt !! k = Some v → R k → not_puw v) → downgraded R pt pt.
Proof.
  intros H k. destruct (pt !! k) as [v|] eqn:E; [|reflexivity].
  exists v. split; [reflexivity|]. split; [auto|]. apply (H k v E).
Qed.

Lemma downgraded_trans R1 R2 pt1 pt2 pt3 :
  downgraded R1 pt1 pt2 → downgraded R2 pt2 pt3 →
  downgraded (λ k, R1 k ∨ R2 k) pt1 pt3.
Proof.
  intros H1 H2 k. specialize (H1 k). specialize (H2 k).
  destruct (pt1 !! k) as [v|].
  - destruct H1 as (v2 & E2 & A & B). rewrite E2 in H2.
    destruct H2 as (v3 & E3 & C & D). exists v3. split; [exact E3|].
    split; [auto|]. intros [Hr|Hr]; auto.
  - rewrite H1 in H2. exact H2.
Qed.

Lemma downgraded_weaken (R R' : Z → Prop) pt pt' :
  (∀ k, R' k → R k) → downgraded R pt pt' → downgraded R' pt pt'.
Proof.
  intros Hi H k. specialize (H k). destruct (pt !! k) as [v|]; [|exact H].
  destruct H as (v' & E & A & B). exists v'. split; [exact E|]. split; auto.
Qed.

(** One region of [vmap::copy] with sharing, seen from the page table of
    the source. *)
Lemma copy_region_downgrades this nm e s pt :
  pt_of this s = Some pt →
  post (copy_region this nm true e) s
       (λ _ s', tlbflushes s' = tlbflushes s ∧
          ∃ pt', pt_of this s' = Some pt' ∧
            downgraded (λ k, va_type e ≠ COW ∧
                             in_pages (vma_start e) (vma_end e) k = true) pt pt').
Proof.
  intros Hpt. unfold copy_region.
  assert (Hfin : ∀ ne s1 pt1, tlbflushes s1 = tlbflushes s → pt_of this s1 = Some pt1 →
            downgraded (λ k, va_type e ≠ COW ∧
                             in_pages (vma_start e) (vma_end e) k = true) pt pt1 →
            post (match ne with
                  | None => mret false
                  | Some ne =>
                    match n ne with
                    | None => vma_delete ne;; mret false
                    | Some _ =>
                      let len := wrap64 (vma_end ne - vma_start ne) in
                      mp ← deref_vmap nm;
                      assert (bool_decide (span_of (cr mp) (vma_start ne) len = []));;
                      span_replace nm (vma_start ne) len (Some ne);;
                      mret true
                    end
                  end) s1
                 (λ _ s', tlbflushes s' = tlbflushes s ∧
                    ∃ pt', pt_of this s' = Some pt' ∧
                      downgraded (λ k, va_type e ≠ COW ∧
                                   in_pages (vma_start e) (vma_end e) k = true) pt pt')).
  { intros ne s1 pt1 Ht Hp Hd. destruct ne as [ne|]; [|apply post_ret; eauto].
    destruct (n ne) as [c|] eqn:Enc.
    - cbv zeta. apply post_bind, deref_vmap_post. intros mc _.
      apply post_bind. unfold assert. destruct (bool_decide _); [|apply post_halt].
      apply post_ret, post_bind.
      eapply post_mono; [apply (span_replace_kept this)|].
      intros ? s2 [A B]. apply post_ret. split; [congruence|].
      exists pt1. split; [congruence|exact Hd].
    - apply post_bind. unfold vma_delete. rewrite Enc. apply post_ret, post_ret. eauto. }
  apply post_bind. apply post_bind.
  eapply post_mono; [apply (vma_new_kept this)|]. intros r s1 [-> [T1 P1]]. cbv beta.
  case_decide as Hcow.
  - apply post_bind. apply post_bind.
    eapply post_mono; [apply (vma_new_kept this)|]. intros r s2 [-> [T2 P2]]. cbv beta.
    apply post_bind.
    eapply post_mono; [apply (replace_vma_kept this)|]. intros ? s3 [T3 P3]. cbv beta.
    apply post_bind. apply post_eq. intros fl s4 Eup.
    apply updatepages_inside in Eup as (T4 & _ & mp3 & pt4 & Hmp3 & Hmp4 & Hk).
    apply post_ret, post_ret.
    assert (Hpt3 : pt = pml4 mp3).
    { unfold pt_of in *. rewrite Hmp3 in P3. simpl in P3. congruence. }
    refine (Hfin (Some (mk_vma (vma_start e) (vma_end e) COW (n e))) s4 pt4 _ _ _).
    + congruence.
    + unfold pt_of. rewrite Hmp4. reflexivity.
    + intros k. specialize (Hk k). rewrite Hpt3.
      destruct (pml4 mp3 !! k) as [v|]; [|exact Hk].
      destruct Hk as (v' & E & [->|[fl' Hcb]] & Hin).
      * exists v. split; [exact E|]. split; [auto|]. intros [_ Hr].
        destruct (Hin Hr) as [fl' Hcb]. exact (downgrade_cb_not_puw _ _ _ Hcb).
      * exists v'. split; [exact E|].
        split; intros _; exact (downgrade_cb_not_puw _ _ _ Hcb).
  - apply post_bind, post_ret, post_ret.
    refine (Hfin (Some (mk_vma (vma_start e) (vma_end e) COW (n e))) s1 pt _ _ _).
    + exact T1.
    + congruence.
    + apply downgraded_refl. intros k v _ [Hc _]. destruct (Hc Hcow).
Qed.

Lemma copy_regions_downgrade this nm : ∀ l s pt,
  pt_of this s = Some pt →
  post (copy_regions this nm true l) s
       (λ ok s', tlbflushes s' = tlbflushes s ∧
          (ok = true →
           ∃ pt', pt_of this s' = Some pt' ∧ downgraded (private_pages l) pt pt')).
Proof.
  induction l as [|e l IH]; intros s pt Hpt; cbn [copy_regions].
  - apply post_ret. split; [reflexivity|]. intros _. exists pt. split; [exact Hpt|].
    apply downgraded_refl. intros k v _ (e & He & _). inversion He.
  - apply post_bind.
    eapply post_mono; [apply (copy_region_downgrades this nm e s pt Hpt)|].
    intros ok s1 (T1 & pt1 & P1 & D1). simpl.
    destruct ok.
    + eapply post_mono; [apply (IH s1 pt1 P1)|].
      intros r s2 (T2 & H2). simpl. split; [congruence|].
      intros Hr. destruct (H2 Hr) as (pt2 & P2 & D2).
      exists pt2. split; [exact P2|].
      eapply downgraded_weaken; [|exact (downgraded_trans _ _ _ _ _ D1 D2)].
      intros k (x & Hx & Hc & Hin). apply elem_of_cons in Hx as [->|Hx].
      * left. split; assumption.
      * right. exists x. split; [exact Hx|]. split; assumption.
    + apply post_ret. split; [exact T1|]. discriminate.
Qed.

(** X21.  [vmap::copy] with sharing write-protects the source: when it
    succeeds, no entry of a page of a region that was PRIVATE is
    present+user+writable any more, so the next write to such a page
    faults; and the TLB has been flushed exactly once. *)
Theorem copy_share_write_protects this s nm s' mp :
  vmaps s !! this = Some mp →
  vmap_copy this true s = Ok (Some nm) s' →
  tlbflushes s' = S (tlbflushes s) ∧
  ∃ mp', vmaps s' !! this = Some mp' ∧
    ∀ e va, e ∈ cr mp → va_type e = PRIVATE →
      0 ≤ vma_start e → vma_start e ≤ va < vma_end e → vma_end e + PGSIZE ≤ 2 ^ 64 →
      Z.land (pte_of mp' va) PTE_PUW ≠ PTE_PUW.
Proof.
  intros Hmp. unfold vmap_copy, vmap_new, new_vmap_obj. mrun.
  set (nm0 := fresh (dom (vmaps s))).
  assert (Hfresh : vmaps s !! nm0 = None) by (apply not_elem_of_dom, is_fresh).
  assert (Hne : nm0 ≠ this) by congruence.
  set (sN := set_vmaps <[nm0 := mk_vmap [] ∅ 1]> s).
  assert (HmpN : vmaps sN !! this = Some mp).
  { simpl. rewrite lookup_insert_ne by exact Hne. exact Hmp. }
  rewrite (deref_vmap_ok _ _ _ HmpN). mrun.
  destruct (copy_regions this nm0 true (cr mp) sN) as [ok s1|] eqn:Eloop; [|discriminate].
  assert (HptN : pt_of this sN = Some (pml4 mp)) by (unfold pt_of; rewrite HmpN; reflexivity).
  destruct (copy_regions_downgrade this nm0 (cr mp) sN _ HptN _ _ Eloop) as [T1 H1].
  destruct ok.
  2:{ mrun. destruct (vmap_delete nm0 s1); discriminate. }
  unfold tlbflush, modify. mrun. intros [= <- <-].
  destruct (H1 eq_refl) as (pt' & P1 & D1).
  split; [simpl; rewrite T1; reflexivity|].
  unfold pt_of in P1. simpl.
  destruct (vmaps s1 !! this) as [mp'|] eqn:Emp'; [|discriminate].
  simpl in P1. injection P1 as <-.
  exists mp'. split; [reflexivity|].
  intros e va He Hty H0 Hva Hend. unfold pte_of.
  specialize (D1 (walkpgdir va)).
  destruct (pml4 mp !! walkpgdir va) as [v|].
  - destruct D1 as (v' & -> & _ & Hin). simpl. apply Hin.
    exists e. split; [exact He|]. split; [rewrite Hty; discriminate|].
    apply in_pages_inside; assumption.
  - rewrite D1. simpl. discriminate.
Qed.

Lemma copy_share_write_protects_witness :
  tlbflushes ex_touched_forked = S (tlbflushes ex_touched_state) ∧
  ∃ mp', vmaps ex_touched_forked !! 1%positive = Some mp' ∧
    ∀ e va, e ∈ cr ex_touched_vmap → va_type e = PRIVATE →
      0 ≤ vma_start e → vma_start e ≤ va < vma_end e → vma_end e + PGSIZE ≤ 2 ^ 64 →
      Z.land (pte_of mp' va) PTE_PUW ≠ PTE_PUW.
Proof.
  apply (copy_share_write_protects 1 ex_touched_state 2 ex_touched_forked ex_touched_vmap).
  - vm_compute. reflexivity.
  - vm_compute. reflexivity.
Defined.

Lemma dup_of_mono s0 s s' e ne :
  (∀ c cn, nodes s0 !! c = None → nodes s !! c = Some cn → nodes s' !! c = Some cn) →
  dup_of s0 s e ne → dup_of s0 s' e ne.
Proof.
  intros H (A & B & C & c & cn & Hc & H0 & Hs & Hr & Hn).
  split; [exact A|]. split; [exact B|]. split; [exact C|].
  exists c, cn. split; [exact Hc|]. split; [exact H0|]. split; [eauto|]. split; assumption.
Qed.

(** One region of [vmap::copy] without sharing. *)
Lemma copy_region_private this nm s0 done e s a nd :
  nm ≠ this →
  noshare_inv nm s0 done s →
  n e = Some a → nodes s0 !! a = Some nd → node_wf nd →
  post (copy_region this nm false e) s
       (λ ok s', ok = true → noshare_inv nm s0 (done ++ [e]) s').
Proof.
  intros Hne (Ht & Hsrc & mc & l & Hv & Hpt & Hperm & Hall) Hn Hnd Hwf.
  unfold copy_region. rewrite Hn.
  apply post_bind. apply post_bind. apply post_eq. intros c s1 Ecopy.
  pose proof (wp_inv _ _ _ _ _ (vmnode_copy_wp a nd s (Hsrc a nd Hnd) Hwf) Ecopy) as Hpost.
  destruct c as [c|].
  2:{ (* the duplication failed: the region has no node and is dropped *)
      unfold vma_new. apply post_bind, post_ret, post_ret.
      cbn [n]. apply post_bind. unfold vma_delete. cbn [n]. apply post_ret, post_ret.
      discriminate. }
  destruct Hpost as (Hfresh & Hv1 & Ht1 & _ & cn & Hn1 & Hr0 & Hnp & Hty & Hcwf).
  unfold vma_new. apply post_bind.
  apply post_eq. intros u1 t1 E1.
  rewrite (vmnode_incref_eq c cn s1) in E1 by (rewrite Hn1; apply lookup_insert_eq).
  injection E1 as <- <-. apply post_ret. cbv beta iota. cbn [n].
  cbv zeta. cbn [vma_start vma_end].
  set (ne := mk_vma (vma_start e) (vma_end e) PRIVATE (Some c)).
  set (s2 := bump_ref c cn 1 s1).
  apply post_bind, deref_vmap_post. intros mc2 Hmc2.
  assert (mc2 = mc).
  { simpl in Hmc2. rewrite Hv1, Hv, lookup_insert_eq in Hmc2. congruence. }
  subst mc2.
  apply post_bind. unfold assert.
  destruct (bool_decide _) eqn:Espan; [|apply post_halt].
  apply bool_decide_eq_true_1 in Espan. apply post_ret, post_bind.
  apply post_eq. intros u2 t2 E2.
  rewrite (span_replace_eq nm _ _ _ mc) in E2
    by (simpl; rewrite Hv1, Hv; apply lookup_insert_eq).
  rewrite Espan in E2. cbn [vma_delete_all] in E2.
  rewrite (outside_all _ _ _ (span_of_nil_inv _ _ _ Espan)) in E2.
  injection E2 as <- <-. apply post_ret. intros _.
  assert (Hc0 : nodes s0 !! c = None).
  { destruct (nodes s0 !! c) as [x|] eqn:Ex; [|reflexivity].
    rewrite (Hsrc c x Ex) in Hfresh. discriminate. }
  assert (Hkeep : ∀ b x, nodes s !! b = Some x →
            nodes s2 !! b = Some x).
  { intros b x Hb. unfold s2, bump_ref. simpl. rewrite Hn1.
    rewrite !lookup_insert_ne by congruence. exact Hb. }
  split; [simpl; congruence|]. split.
  { intros b x Hb. simpl. apply Hkeep, Hsrc, Hb. }
  exists (set_cr mc (cr_insert ne (cr mc))), (l ++ [ne]).
  split.
  { simpl. rewrite Hv1, Hv, insert_insert_eq. reflexivity. }
  split; [exact Hpt|]. split.
  { simpl. rewrite cr_insert_perm, Hperm. apply Permutation_cons_append. }
  apply Forall2_app.
  - eapply Forall2_impl; [exact Hall|]. intros x y Hxy.
    apply (dup_of_mono s0 s); [|exact Hxy]. intros b x0 _ Hb. apply Hkeep, Hb.
  - constructor; [|constructor].
    split; [reflexivity|]. split; [reflexivity|]. split; [reflexivity|].
    exists c, (set_ref cn (wrap64 (ref cn + 1))).
    split; [reflexivity|]. split; [exact Hc0|].
    split; [simpl; apply lookup_insert_eq|].
    split; [simpl; rewrite Hr0; reflexivity|].
    intros a' nd' Ha' Hnd'. simpl.
    assert (a' = a) by congruence. subst a'.
    assert (nd' = nd) by congruence. subst nd'. split; assumption.
Qed.

Lemma copy_regions_private this nm s0 : ∀ todo done s,
  nm ≠ this →
  noshare_inv nm s0 done s →
  Forall (λ e, ∃ a nd, n e = Some a ∧ nodes s0 !! a = Some nd ∧ node_wf nd) todo →
  post (copy_regions this nm false todo) s
       (λ ok s', ok = true → noshare_inv nm s0 (done ++ todo) s').
Proof.
  induction todo as [|e todo IH]; intros done s Hne Hinv Hall; cbn [copy_regions].
  - apply post_ret. intros _. rewrite app_nil_r. exact Hinv.
  - inversion Hall as [|? ? (a & nd & Hn & Hnd & Hwf) Hrest]; subst.
    apply post_bind.
    eapply post_mono; [apply (copy_region_private this nm s0 done e s a nd); assumption|].
    intros ok s1 H1. cbv beta. destruct ok.
    + eapply post_mono; [apply (IH (done ++ [e]) s1 Hne (H1 eq_refl) Hrest)|].
      intros ok2 s2 H2 Hok. rewrite <- app_assoc in H2. exact (H2 Hok).
    + apply post_ret. discriminate.
Qed.

(** X22.  [vmap::copy] without sharing gives the new address space, for
    every region of the source in turn, a PRIVATE region over the same
    range and over a node of its own, new, referred to once, with the page
    count and load policy of the source's node.  The source address space,
    its nodes and the TLB are left as they were, and the new page table is
    empty. *)
Theorem copy_noshare_duplicates this s nm s' mp :
  vmaps s !! this = Some mp → nodes_wf s →
  (∀ e, e ∈ cr mp → ∃ a, n e = Some a ∧ is_Some (nodes s !! a)) →
  vmap_copy this false s = Ok (Some nm) s' →
  vmaps s !! nm = None ∧ tlbflushes s' = tlbflushes s ∧
  (∀ a nd, nodes s !! a = Some nd → nodes s' !! a = Some nd) ∧
  ∃ mc l, vmaps s' = <[nm := mc]> (vmaps s) ∧ pml4 mc = ∅ ∧ cr mc ≡ₚ l ∧
    Forall2 (dup_of s s') (cr mp) l.
Proof.
  intros Hmp Hwf Hrefs. unfold vmap_copy, vmap_new, new_vmap_obj. mrun.
  set (nm0 := fresh (dom (vmaps s))).
  assert (Hfresh : vmaps s !! nm0 = None) by (apply not_elem_of_dom, is_fresh).
  assert (Hne : nm0 ≠ this) by congruence.
  set (sN := set_vmaps <[nm0 := mk_vmap [] ∅ 1]> s).
  assert (HmpN : vmaps sN !! this = Some mp).
  { simpl. rewrite lookup_insert_ne by exact Hne. exact Hmp. }
  rewrite (deref_vmap_ok _ _ _ HmpN). mrun.
  destruct (copy_regions this nm0 false (cr mp) sN) as [ok s1|] eqn:Eloop; [|discriminate].
  assert (Hinit : noshare_inv nm0 sN [] sN).
  { split; [reflexivity|]. split; [auto|].
    exists (mk_vmap [] ∅ 1), []. split.
    - simpl. rewrite insert_insert_eq. reflexivity.
    - split; [reflexivity|]. split; [reflexivity|constructor]. }
  assert (Hall : Forall (λ e, ∃ a nd, n e = Some a ∧ nodes sN !! a = Some nd ∧ node_wf nd)
                        (cr mp)).
  { apply Forall_forall. intros e He. destruct (Hrefs e He) as (a & Hn & [nd Hnd]).
    exists a, nd. split; [exact Hn|]. split; [exact Hnd|]. exact (Hwf a nd Hnd). }
  pose proof (copy_regions_private this nm0 sN (cr mp) [] sN Hne Hinit Hall _ _ Eloop)
    as Hfin.
  destruct ok.
  2:{ mrun. destruct (vmap_delete nm0 s1); discriminate. }
  mrun. intros [= <- <-].
  destruct (Hfin eq_refl) as (Ht & Hsrc & mc & l & Hv & Hpt & Hperm & Hdup).
  split; [exact Hfresh|]. split; [exact Ht|]. split; [exact Hsrc|].
  exists mc, l. split.
  { rewrite Hv. simpl. apply insert_insert_eq. }
  split; [exact Hpt|]. split; [exact Hperm|exact Hdup].
Qed.

Lemma copy_noshare_duplicates_witness :
  vmaps ex_touched_state !! 2%positive = None ∧
  tlbflushes ex_touched_cloned = tlbflushes ex_touched_state ∧
  (∀ a nd, nodes ex_touched_state !! a = Some nd →
           nodes ex_touched_cloned !! a = Some nd) ∧
  ∃ mc l, vmaps ex_touched_cloned = <[2%positive := mc]> (vmaps ex_touched_state) ∧
    pml4 mc = ∅ ∧ cr mc ≡ₚ l ∧
    Forall2 (dup_of ex_touched_state ex_touched_cloned) (cr ex_touched_vmap) l.
Proof.
  apply (copy_noshare_duplicates 1 ex_touched_state 2 ex_touched_cloned ex_touched_vmap).
  - vm_compute. reflexivity.
  - apply (bool_decide_unpack _); vm_compute; exact I.
  - apply (proj1 (Forall_forall _ _)).
    repeat constructor; eexists; (split; [reflexivity|]); vm_compute; eauto.
  - vm_compute. reflexivity.
Defined.

(** ** remove when the nodes are held elsewhere *)

Lemma refs_in_cons e l a :
  refs_in (e :: l) a = (if decide (n e = Some a) then 1 else 0) + refs_in l a.
Proof.
  change (e :: l) with ([e] ++ l). rewrite refs_in_app, refs_in_one. reflexivity.
Qed.

Lemma released_nil nds : released [] nds = nds.
Proof.
  apply map_eq. intros a. unfold released. rewrite map_lookup_imap.
  destruct (nds !! a) as [nd|]; [|reflexivity]. simpl. f_equal.
  destruct nd. unfold set_ref, refs_in. simpl. f_equal. lia.
Qed.

Lemma vma_delete_all_keep l : ∀ s,
  held_elsewhere l s →
  vma_delete_all l s = Ok tt (set_nodes (released l) s).
Proof.
  induction l as [|e l IH]; intros s [Hex Href].
  - simpl. unfold set_nodes. rewrite released_nil. destruct s; reflexivity.
  - cbn [vma_delete_all]. mrun. inversion Hex as [|? ? He Hex']; subst.
    unfold vma_delete. destruct (n e) as [a|] eqn:En.
    + destruct (He a eq_refl) as [nd Hnd].
      assert (Hra : 1 ≤ refs_in (e :: l) a).
      { rewrite refs_in_cons, decide_True by exact En.
        pose proof (refs_in_bounds l a). lia. }
      pose proof (Href a nd Hnd ltac:(lia)) as Hb.
      rewrite (vmnode_decref_keep a nd s Hnd) by (rewrite wrap64_small by lia; lia).
      mrun. rewrite IH.
      * f_equal. unfold set_nodes, bump_ref. simpl. f_equal.
        apply map_eq. intros b. unfold released. rewrite !map_lookup_imap.
        destruct (decide (b = a)) as [->|Hne].
        -- rewrite lookup_insert_eq, Hnd. simpl. f_equal.
           rewrite wrap64_small by lia. unfold set_ref. simpl. f_equal.
           rewrite refs_in_cons, decide_True by exact En. lia.
        -- rewrite lookup_insert_ne by congruence.
           destruct (nodes s !! b) as [x|]; [|reflexivity]. simpl. f_equal.
           rewrite refs_in_cons, decide_False by congruence. reflexivity.
      * split.
        -- eapply Forall_impl; [exact Hex'|]. intros x Hx b Hb'. simpl.
           destruct (decide (b = a)) as [->|Hne].
           ++ rewrite lookup_insert_eq. eauto.
           ++ rewrite lookup_insert_ne by congruence. eauto.
        -- intros b x Hbx Hpos. simpl in Hbx.
           destruct (decide (b = a)) as [->|Hne].
           ++ rewrite lookup_insert_eq in Hbx. injection Hbx as <-. simpl.
              rewrite wrap64_small by lia.
              rewrite refs_in_cons, decide_True in Hb by exact En. lia.
           ++ rewrite lookup_insert_ne in Hbx by congruence.
              pose proof (Href b x Hbx) as Hb2. cbv beta in Hb2.
              rewrite refs_in_cons, decide_False in Hb2 by congruence.
              apply Hb2. lia.
    + mrun. rewrite IH.
      * f_equal. unfold set_nodes. f_equal.
        apply map_eq. intros b. unfold released. rewrite !map_lookup_imap.
        destruct (nodes s !! b) as [x|]; [|reflexivity]. simpl. f_equal.
        rewrite refs_in_cons, decide_False by congruence. reflexivity.
      * split; [exact Hex'|]. intros b x Hbx Hpos.
        pose proof (Href b x Hbx) as Hb2. cbv beta in Hb2.
        rewrite refs_in_cons, decide_False in Hb2 by congruence. apply Hb2. lia.
Qed.

(** X23.  [vmap::remove] of a range whose regions lie inside it, when
    the node of each of them is still referred to from elsewhere (the
    other side of a fork), returns 0 and frees nothing: the regions leave
    the index, every node loses the references they held and stays, and
    physical memory and the allocator are untouched. *)
Theorem remove_shared_keeps_pages this mp start len s :
  vmaps s !! this = Some mp →
  0 ≤ start → 0 ≤ len → start + len < 2 ^ 64 →
  (∀ r, r ∈ cr mp → vma_start r < start + len → start < vma_end r →
        start ≤ vma_start r ∧ vma_end r ≤ start + len) →
  held_elsewhere (span_of (cr mp) start len) s →
  unlocked start (start + len) (pml4 mp) →
  ∃ s' mp',
    remove_vma this start len s = Ok 0 s' ∧
    vmaps s' = <[this := mp']> (vmaps s) ∧ cr mp' = outside start len (cr mp) ∧
    nodes s' = released (span_of (cr mp) start len) (nodes s) ∧
    mem s' = mem s ∧ freelist s' = freelist s ∧ inodes s' = inodes s.
Proof.
  intros Hmp H0 Hlen Hend Hin Hheld Hun.
  unfold remove_vma. mrun. rewrite (deref_vmap_ok _ _ _ Hmp). mrun.
  rewrite (wrap64_small (start + len)) by lia.
  replace (existsb _ _) with false.
  2:{ symmetry. apply not_true_is_false. intros Hex.
      apply existsb_exists in Hex as (r & Hr & Hout).
      apply list_elem_of_In, elem_of_span_of in Hr as [Hr Hov].
      apply overlaps_spec in Hov. destruct (Hin r Hr) as [A B]; [lia..|].
      apply orb_true_iff in Hout. rewrite !Z.ltb_lt in Hout. lia. }
  mrun. rewrite (span_replace_eq this _ _ _ mp) by exact Hmp.
  rewrite vma_delete_all_keep by exact Hheld. mrun.
  erewrite updatepages_clear.
  2:{ simpl. apply lookup_insert_eq. }
  2:{ simpl. exact Hun. }
  mrun. eexists _, _. split; [reflexivity|]. simpl.
  rewrite insert_insert_eq. repeat split; reflexivity.
Qed.

Lemma remove_shared_keeps_pages_witness :
  ∃ s' mp',
    remove_vma 2 0 4096 ex_fork_state = Ok 0 s' ∧
    vmaps s' = <[2%positive := mp']> (vmaps ex_fork_state) ∧
    cr mp' = outside 0 4096 (cr (mk_vmap [ex_cow_vma] ∅ 1)) ∧
    nodes s' = released (span_of (cr (mk_vmap [ex_cow_vma] ∅ 1)) 0 4096)
                 (nodes ex_fork_state) ∧
    mem s' = mem ex_fork_state ∧ freelist s' = freelist ex_fork_state ∧
    inodes s' = inodes ex_fork_state.
Proof.
  apply (remove_shared_keeps_pages 2 (mk_vmap [ex_cow_vma] ∅ 1) 0 4096 ex_fork_state).
  - vm_compute. reflexivity.
  - lia.
  - lia.
  - lia.
  - apply (proj1 (Forall_forall
             (λ r, vma_start r < 0 + 4096 → 0 < vma_end r →
                   0 ≤ vma_start r ∧ vma_end r ≤ 0 + 4096) _)).
    apply (bool_decide_unpack _); vm_compute; exact I.
  - split.
    + repeat constructor. intros a [= <-]. vm_compute. eauto.
    + apply (bool_decide_unpack _); vm_compute; exact I.
  - apply (bool_decide_unpack _); vm_compute; exact I.
Defined.

(** ** demand_load on a file that is too short *)

Lemma readi_outcome a f p off cnt s :
  inodes s !! a = Some f → p ≠ 0 → 0 ≤ off → 0 < cnt → off + cnt < 2 ^ 64 →
  ∃ r s', readi (Some a) p off cnt s = Ok r s' ∧ same_but_mem s s' ∧
    (r = cnt ↔ off + cnt ≤ Z.of_nat (length (idata f))).
Proof.
  intros Hf Hp Hoff Hcnt Hmax. unfold readi, get. mrun. rewrite Hf.
  replace (2 ^ 64 <=? off + cnt) with false by (symmetry; apply Z.leb_gt; lia).
  rewrite orb_false_r.
  destruct (Z.ltb_spec (Z.of_nat (length (idata f))) off) as [Hlt|Hge].
  - mrun. eexists _, _. split; [reflexivity|]. split; [apply same_but_mem_refl|]. lia.
  - replace (p =? 0) with false by (symmetry; apply Z.eqb_neq; exact Hp).
    cbv zeta. unfold modify. mrun.
    eexists _, _. split; [reflexivity|]. split; [repeat split|].
    destruct (Z.ltb_spec (Z.of_nat (length (idata f))) (off + cnt)); lia.
Qed.

Lemma demand_load_loop_short this nd a f :
  ∀ (cnt k : nat) s,
    nodes s !! this = Some nd → ip nd = Some a → inodes s !! a = Some f →
    Z.of_nat (length (page nd)) = npages nd →
    Forall (λ p, p ≠ 0) (page nd) →
    0 ≤ offset nd → offset nd + sz nd < 2 ^ 64 →
    Z.of_nat (length (idata f)) < offset nd + sz nd →
    (k + S cnt ≤ length (page nd))%nat →
    (Z.of_nat (k + S cnt) - 1) * PGSIZE < sz nd ≤ Z.of_nat (k + S cnt) * PGSIZE →
    ∃ s', demand_load_loop this
            ((λ j, j * PGSIZE) <$> seqZ (Z.of_nat k) (Z.of_nat (S cnt))) s = Ok (-1) s' ∧
          same_but_mem s s'.
Proof.
  induction cnt as [|cnt IH]; intros k s Hnd Hip Hf Hlen Hfull Hoff Hmax Hshort Hk Hlast;
    rewrite seqZ_cons by lia;
    replace (Z.succ (Z.of_nat k)) with (Z.of_nat (S k)) by lia;
    cbn [fmap list_fmap demand_load_loop]; unfold demand_load_chunk; mrun;
    rewrite (deref_node_ok _ _ _ Hnd); mrun;
    (destruct (lookup_lt_is_Some_2 (page nd) k ltac:(lia)) as [p Hp]);
    (assert (Hp0 : p ≠ 0) by (eapply (proj1 (Forall_lookup _ _) Hfull); eauto));
    (assert (HPG : PGSIZE = 4096) by reflexivity);
    replace (Z.of_nat k * PGSIZE / PGSIZE) with (Z.of_nat k)
      by (symmetry; apply Z.div_mul; lia);
    rewrite (slot_ok _ _ _ Hp) by lia; mrun;
    fold (chunk_len (sz nd) (Z.of_nat k * PGSIZE));
    (assert (Hin : 0 ≤ Z.of_nat k * PGSIZE < sz nd) by lia);
    pose proof (chunk_len_bounds _ _ Hin) as [Hc1 Hc2];
    rewrite Hip;
    rewrite (wrap64_small (offset nd + Z.of_nat k * PGSIZE)) by lia;
    (destruct (readi_outcome a f p (offset nd + Z.of_nat k * PGSIZE)
                (chunk_len (sz nd) (Z.of_nat k * PGSIZE)) s Hf Hp0)
       as (r & s1 & -> & Hsame & Hr); [lia..|]); mrun;
    destruct (Z.eqb_spec r (chunk_len (sz nd) (Z.of_nat k * PGSIZE))) as [Heq|Hneq];
    cbn [negb]; mrun.
  - (* the last chunk cannot have been read in full *)
    exfalso. apply Hr in Heq.
    assert (chunk_len (sz nd) (Z.of_nat k * PGSIZE) = sz nd - Z.of_nat k * PGSIZE).
    { unfold chunk_len. destruct (Z.ltb_spec (sz nd - Z.of_nat k * PGSIZE) PGSIZE); lia. }
    lia.
  - exists s1. split; [reflexivity|exact Hsame].
  - replace (Z.pred (Z.of_nat (S (S cnt)))) with (Z.of_nat (S cnt)) by lia.
    destruct Hsame as (Hn1 & Hv1 & Hi1 & Hf1 & Ht1).
    assert (Hnd' : nodes s1 !! this = Some nd) by (rewrite Hn1; exact Hnd).
    assert (Hf' : inodes s1 !! a = Some f) by (rewrite Hi1; exact Hf).
    assert (Hk' : (S k + S cnt ≤ length (page nd))%nat) by lia.
    assert (Hlast' : (Z.of_nat (S k + S cnt) - 1) * PGSIZE < sz nd
                     ≤ Z.of_nat (S k + S cnt) * PGSIZE).
    { replace (S k + S cnt)%nat with (k + S (S cnt))%nat by lia. exact Hlast. }
    destruct (IH (S k) s1 Hnd' Hip Hf' Hlen Hfull Hoff Hmax Hshort Hk' Hlast')
      as (s2 & E2 & Hs2).
    exists s2. split; [exact E2|].
    eapply same_but_mem_trans; [|exact Hs2]. repeat split; assumption.
  - exists s1. split; [reflexivity|exact Hsame].
Qed.

(** [demand_load] when the file ends before the node's range does. *)
Lemma demand_load_short this nd a f s :
  nodes s !! this = Some nd → node_wf nd → Forall (λ p, p ≠ 0) (page nd) →
  ip nd = Some a → inodes s !! a = Some f →
  0 ≤ offset nd → 0 < sz nd ≤ npages nd * PGSIZE → offset nd + sz nd < 2 ^ 64 →
  Z.of_nat (length (idata f)) < offset nd + sz nd →
  ∃ s', demand_load this s = Ok (-1) s' ∧ same_but_mem s s'.
Proof.
  intros Hnd [Hnp Hlen] Hfull Hip Hf Hoff Hsz Hmax Hshort.
  unfold demand_load. mrun. rewrite (deref_node_ok _ _ _ Hnd). mrun.
  rewrite chunk_starts_eq by lia.
  destruct (chunks_count (sz nd) (npages nd) ltac:(lia)) as (Hm & Hm1 & Hm2).
  cbv zeta in Hm, Hm1, Hm2.
  set (m := (sz nd + PGSIZE - 1) / PGSIZE) in *.
  assert (Hmpos : 0 < m) by (unfold PGSIZE in *; lia).
  replace (Z.to_nat m) with (S (Z.to_nat m - 1)) by lia.
  apply (demand_load_loop_short this nd a f (Z.to_nat m - 1) 0 s); try assumption; try lia.
  split; unfold PGSIZE in *; lia.
Qed.

(** X24.  [demand_load] reports -1 when the backing file ends before
    the range [offset, offset + sz) of the node does, whatever part of the
    file it has loaded before it got there; it changes nothing but
    physical memory. *)
Theorem demand_load_short_file this nd a f s :
  nodes s !! this = Some nd → node_wf nd → Forall (λ p, p ≠ 0) (page nd) →
  ip nd = Some a → inodes s !! a = Some f →
  0 ≤ offset nd → 0 < sz nd ≤ npages nd * PGSIZE → offset nd + sz nd < 2 ^ 64 →
  Z.of_nat (length (idata f)) < offset nd + sz nd →
  ∃ s', demand_load this s = Ok (-1) s' ∧
    nodes s' = nodes s ∧ vmaps s' = vmaps s ∧ inodes s' = inodes s ∧
    freelist s' = freelist s ∧ tlbflushes s' = tlbflushes s.
Proof.
  intros Hnd Hwf Hfull Hip Hf Hoff Hsz Hmax Hshort.
  destruct (demand_load_short this nd a f s) as (s' & E & H); try assumption.
  exists s'. split; [exact E|exact H].
Qed.

(** X25.  A fault on a region whose node is loaded on demand from a file
    that is too short is fatal: [pagefault] panics. *)
Theorem pagefault_short_file fuel this va err s mp m a nd i f p :
  vmaps s !! this = Some mp → cr_wf (cr mp) → m ∈ cr mp →
  vma_start m ≤ va < vma_end m →
  Z.land (pte_of mp va) PTE_PUW ≠ PTE_PUW → Z.land (pte_of mp va) PTE_LOCK = 0 →
  n m = Some a → nodes s !! a = Some nd → node_wf nd →
  type nd = ONDEMAND → Forall (λ p, p ≠ 0) (page nd) →
  0 ≤ page_index m va < npages nd →
  page nd !! Z.to_nat (page_index m va) = Some p →
  ip nd = Some i → inodes s !! i = Some f →
  0 ≤ offset nd → 0 < sz nd ≤ npages nd * PGSIZE → offset nd + sz nd < 2 ^ 64 →
  Z.of_nat (length (idata f)) < offset nd + sz nd →
  pagefault (S fuel) this va err s = Halt (Panic "pagefault: couldn't load").
Proof.
  intros Hmp Hwf Hm Hva Hfast Hlock Hn Hnd Hnwf Hty Hfull Hidx Hp Hip Hf Hoff Hsz Hmax
         Hshort.
  pose proof (cr_wf_range _ _ Hwf Hm) as (H0 & H1 & H2).
  assert (Hp0 : p ≠ 0)
    by exact (proj1 (Forall_forall _ _) Hfull p (list_elem_of_lookup_2 _ _ _ Hp)).
  unfold pagefault.
  replace (USERTOP <=? va) with false by (symmetry; apply Z.leb_gt; lia).
  rewrite (pagefault_retry_found fuel this va err s mp m Hmp Hfast Hlock
             (lookup_found this mp m va s Hmp Hwf Hm Hva)).
  mrun. unfold pagefault_fill. rewrite Hn. mrun.
  rewrite (deref_node_ok _ _ _ Hnd). mrun.
  rewrite (slot_eq _ _ _ _ Hidx Hp). mrun.
  replace (p =? 0) with false by (symmetry; apply Z.eqb_neq; exact Hp0). mrun.
  rewrite (deref_node_ok _ _ _ Hnd). mrun.
  rewrite decide_True by exact Hty. mrun.
  destruct (demand_load_short a nd i f s) as (s' & -> & _); try assumption.
  reflexivity.
Qed.

Lemma demand_load_short_file_witness :
  ∃ s', demand_load 1 ex_short_state = Ok (-1) s' ∧
    nodes s' = nodes ex_short_state ∧ vmaps s' = vmaps ex_short_state ∧
    inodes s' = inodes ex_short_state ∧
    freelist s' = freelist ex_short_state ∧ tlbflushes s' = tlbflushes ex_short_state.
Proof.
  apply (demand_load_short_file 1 ex_short_node 1 (mk_inode abc_file 1) ex_short_state).
  - vm_compute. reflexivity.
  - apply (bool_decide_unpack _); vm_compute; exact I.
  - apply (bool_decide_unpack _); vm_compute; exact I.
  - reflexivity.
  - vm_compute. reflexivity.
  - vm_compute. discriminate.
  - vm_compute. split; [reflexivity|discriminate].
  - vm_compute. reflexivity.
  - vm_compute. reflexivity.
Defined.

Lemma pagefault_short_file_witness :
  pagefault 1 1 0 0 ex_short_state = Halt (Panic "pagefault: couldn't load").
Proof.
  apply (pagefault_short_file 0 1 0 0 ex_short_state (mk_vmap [ex_short_vma] ∅ 1)
           ex_short_vma 1 ex_short_node 1 (mk_inode abc_file 1) (pg 0)).
  - vm_compute. reflexivity.
  - apply cr_ok_wf. vm_compute. reflexivity.
  - apply list_elem_of_here.
  - vm_compute. split; [discriminate|reflexivity].
  - vm_compute. discriminate.
  - reflexivity.
  - reflexivity.
  - vm_compute. reflexivity.
  - apply (bool_decide_unpack _); vm_compute; exact I.
  - reflexivity.
  - apply (bool_decide_unpack _); vm_compute; exact I.
  - vm_compute. split; [discriminate|reflexivity].
  - reflexivity.
  - reflexivity.
  - vm_compute. reflexivity.
  - vm_compute. discriminate.
  - vm_compute. split; [reflexivity|discriminate].
  - vm_compute. reflexivity.
  - vm_compute. reflexivity.
Defined.

(** ** A read fault on a COW region *)

Lemma cow_pte_bits p :
  KBASE ≤ p < 2 ^ 64 → page_aligned p →
  PTE_ADDR (cow_pte p) = p - KBASE ∧
  Z.land (cow_pte p) PTE_P = PTE_P ∧ Z.land (cow_pte p) PTE_U = PTE_U ∧
  Z.land (cow_pte p) PTE_COW = PTE_COW ∧ Z.land (cow_pte p) PTE_W = 0.
Proof.
  intros Hp Hal.
  assert (Hv : v2p p = p - KBASE).
  { unfold v2p. apply wrap64_small. unfold KBASE in *. lia. }
  pose proof (v2p_aligned p Hal) as Hva.
  assert (Hbit : ∀ b, Z.land 4095 b = b →
            Z.land (cow_pte p) b = Z.land (Z.lor (Z.lor PTE_P PTE_U) PTE_COW) b).
  { intros b Hb. unfold cow_pte. rewrite <- !Z.lor_assoc.
    rewrite Z.land_lor_distr_l. rewrite (aligned_land _ _ Hva Hb). reflexivity. }
  split.
  - unfold cow_pte. rewrite <- !Z.lor_assoc. rewrite <- Hv. apply PTE_ADDR_flags.
    + rewrite Hv. unfold KBASE in *. lia.
    + exact Hva.
    + vm_compute. split; [discriminate|reflexivity].
  - repeat split; rewrite Hbit by reflexivity; reflexivity.
Qed.

(** X26.  For a node that is not loaded on demand: a fault that does
    not write, on a resident page of a COW region, returns 1 and installs
    an entry with the physical address of the shared page, present and
    user but not writable, tagged COW; the node, its count, physical
    memory and the allocator are untouched.  (A node loaded on demand is
    read from its file again by the fault, so its pages may change.) *)
Theorem pagefault_cow_read_installs fuel this va err s mp m a nd p :
  vmaps s !! this = Some mp → cr_wf (cr mp) → m ∈ cr mp → va_type m = COW →
  vma_start m ≤ va < vma_end m →
  Z.land (pte_of mp va) PTE_PUW ≠ PTE_PUW → Z.land (pte_of mp va) PTE_LOCK = 0 →
  Z.land err FEC_WR = 0 →
  n m = Some a → nodes s !! a = Some nd → type nd ≠ ONDEMAND →
  0 ≤ page_index m va < npages nd →
  page nd !! Z.to_nat (page_index m va) = Some p →
  KBASE ≤ p < 2 ^ 64 → page_aligned p →
  ∃ s' mp',
    pagefault (S fuel) this va err s = Ok 1 s' ∧
    vmaps s' = <[this := mp']> (vmaps s) ∧ cr mp' = cr mp ∧
    nodes s' = nodes s ∧ mem s' = mem s ∧ freelist s' = freelist s ∧
    tlbflushes s' = tlbflushes s ∧
    PTE_ADDR (pte_of mp' va) = p - KBASE ∧
    Z.land (pte_of mp' va) PTE_P = PTE_P ∧ Z.land (pte_of mp' va) PTE_U = PTE_U ∧
    Z.land (pte_of mp' va) PTE_COW = PTE_COW ∧ Z.land (pte_of mp' va) PTE_W = 0.
Proof.
  intros Hmp Hwf Hm Hty Hva Hfast Hlock Herr Hn Hnd Hnt Hidx Hp Hpk Hal.
  pose proof (cr_wf_range _ _ Hwf Hm) as (H0 & H1 & H2).
  assert (Hp0 : p ≠ 0) by (unfold KBASE in Hpk; lia).
  unfold pagefault.
  replace (USERTOP <=? va) with false by (symmetry; apply Z.leb_gt; lia).
  rewrite (pagefault_retry_found fuel this va err s mp m Hmp Hfast Hlock
             (lookup_found this mp m va s Hmp Hwf Hm Hva)).
  mrun. rewrite (pagefault_fill_resident m _ a nd p s Hn Hnd Hidx Hp Hp0 Hnt). mrun.
  rewrite Herr. change (negb (0 =? 0)) with false. rewrite andb_false_r.
  unfold pte_of. mrun.
  rewrite (pagefault_install_eq this _ m _ s mp a nd p Hmp Hm Hn Hnd Hidx Hp)
    by (intros Hc; exfalso; apply Hc; exact Hty).
  mrun. unfold installed_pte. rewrite bool_decide_eq_true_2 by exact Hty.
  fold (cow_pte p).
  eexists _, _. split; [reflexivity|]. split; [reflexivity|].
  simpl. rewrite lookup_insert_eq. simpl.
  repeat (split; [reflexivity|]). apply cow_pte_bits; assumption.
Qed.

Lemma pagefault_cow_read_installs_witness :
  ∃ s' mp',
    pagefault 1 2 0 0 ex_fork_state = Ok 1 s' ∧
    vmaps s' = <[2%positive := mp']> (vmaps ex_fork_state) ∧
    cr mp' = cr (mk_vmap [ex_cow_vma] ∅ 1) ∧
    nodes s' = nodes ex_fork_state ∧ mem s' = mem ex_fork_state ∧
    freelist s' = freelist ex_fork_state ∧
    tlbflushes s' = tlbflushes ex_fork_state ∧
    PTE_ADDR (pte_of mp' 0) = pg 0 - KBASE ∧
    Z.land (pte_of mp' 0) PTE_P = PTE_P ∧ Z.land (pte_of mp' 0) PTE_U = PTE_U ∧
    Z.land (pte_of mp' 0) PTE_COW = PTE_COW ∧ Z.land (pte_of mp' 0) PTE_W = 0.
Proof.
  apply (pagefault_cow_read_installs 0 2 0 0 ex_fork_state (mk_vmap [ex_cow_vma] ∅ 1)
           ex_cow_vma 1 ex_shared_node (pg 0)).
  - vm_compute. reflexivity.
  - apply cr_ok_wf. vm_compute. reflexivity.
  - apply list_elem_of_here.
  - reflexivity.
  - vm_compute. split; [discriminate|reflexivity].
  - vm_compute. discriminate.
  - reflexivity.
  - reflexivity.
  - reflexivity.
  - vm_compute. reflexivity.
  - discriminate.
  - vm_compute. split; [discriminate|reflexivity].
  - reflexivity.
  - vm_compute. split; [discriminate|reflexivity].
  - reflexivity.
Defined.

(** * The write fault on a COW region

    The theorem on the write fault comes last: its proof runs the clearing
    loop of the page table and the fault on the PRIVATE region that
    replaces the COW one, whose lemmas are proved above. *)

(** ** C1: a write fault on a COW region, resolved *)












